(** * AI ad generator: the staged workflow of App.tsx and the provider stages

    A shallow embedding of the workflow engine of the repository: the stage
    functions of the Gemini service (prompt assembly, requested schema,
    response parsing), the React state of [App] with its handlers, the
    concept editor's dotted-path mutation and the hook/CTA selector.

    The code is TypeScript, so what flows through the state at run time is
    whatever JSON.parse returned: the model keeps these values as untyped
    trees ([JS.Value]) and gives the handful of JavaScript operations the
    source applies to them (property reads, assignment, spread, template
    interpolation, trim, JSON.parse and JSON.stringify).

    Modelling boundaries, stated once:
    - strings are byte strings (UTF-8); a string's length and its indexing
      agree with JavaScript on ASCII text;
    - a number is kept as the decimal text it was written with, where
      JavaScript keeps the nearest binary64; the model only asks whether a
      number is zero or positive and prints it back as written. This is
      JavaScript's own answer for the numbers of [JS.plain_number] (the
      integers of up to fifteen digits, written as JavaScript prints them);
      a number that underflows, overflows or is written otherwise (1e-400,
      1e400, 1.0, -0) is outside it, and a statement that depends on the
      truth, the order, the text or the copy of a number keeps to values
      that are [JS.plain];
    - ToString, of a template literal or a computed key, is JavaScript's on
      the values of [JS.printable]: an object that owns a member toString
      makes the conversion throw, which the model does not;
    - [x > 0] is decided on numbers, booleans, null and undefined; a text or
      an array would first be converted by ToNumber, which is not modelled;
    - a write through something that is not a plain object, and a read of a
      member inherited from Object.prototype under a computed key, leave the
      tree fragment: such runs end in [JS.OutOfModel];
    - the text of a TypeError is the engine's; V8's wording is used. *)

From Stdlib Require Import String Ascii List Bool Arith NArith Lia.
From Stdlib Require Import DecimalString DecimalNat.
Import ListNotations.
Local Open Scope list_scope.
Local Open Scope string_scope.

(** ** The host language: values and built-ins *)
Module JS.

(** What a [throw] carries: an Error object with its message, or any other
    value ([err instanceof Error] is false for it). *)
Inductive Thrown : Type :=
| ErrorObject (message : string)
| NotAnError.

(** The completion of a synchronous computation that may throw. *)
Inductive Result (A : Type) : Type :=
| Ok (a : A)
| Throw (e : Thrown).
Arguments Ok {A} a.
Arguments Throw {A} e.

Definition bind {A B : Type} (r : Result A) (k : A -> Result B) : Result B :=
  match r with
  | Ok a => k a
  | Throw e => Throw e
  end.

(** The completion of the two components that use computed keys: as
    [Result], or a run that leaves the modelled fragment. *)
Inductive Outcome (A : Type) : Type :=
| Done (a : A)
| Raised (e : Thrown)
| OutOfModel.
Arguments Done {A} a.
Arguments Raised {A} e.
Arguments OutOfModel {A}.

Definition obind {A B : Type} (r : Outcome A) (k : A -> Outcome B) : Outcome B :=
  match r with
  | Done a => k a
  | Raised e => Raised e
  | OutOfModel => OutOfModel
  end.

Definition lift {A : Type} (r : Result A) : Outcome A :=
  match r with
  | Ok a => Done a
  | Throw e => Raised e
  end.

(** *** Strings *)

Definition bytes (codes : list nat) : string :=
  fold_right (fun n s => String (ascii_of_nat n) s) EmptyString codes.

(** The double quote and the newline, which a literal cannot hold. *)
Definition dq : string := bytes [34].
Definition nl : string := bytes [10].

Definition nonempty (s : string) : bool :=
  match s with
  | EmptyString => false
  | String _ _ => true
  end.

Fixpoint rev_string (s acc : string) : string :=
  match s with
  | EmptyString => acc
  | String c r => rev_string r (String c acc)
  end.

Fixpoint strip_prefix (p s : string) : option string :=
  match p with
  | EmptyString => Some s
  | String a p' =>
      match s with
      | String b s' => if Ascii.eqb a b then strip_prefix p' s' else None
      | EmptyString => None
      end
  end.

(** [s.includes(needle)]. *)
Fixpoint includes (needle s : string) : bool :=
  match strip_prefix needle s with
  | Some _ => true
  | None =>
      match s with
      | EmptyString => false
      | String _ r => includes needle r
      end
  end.

(** [s.split('.')]: always at least one segment. *)
Fixpoint split_dot (s : string) : list string :=
  match s with
  | EmptyString => [EmptyString]
  | String c r =>
      if Ascii.eqb c "."%char then EmptyString :: split_dot r
      else
        match split_dot r with
        | seg :: segs => String c seg :: segs
        | [] => [String c EmptyString]
        end
  end.

Definition of_nat (n : nat) : string := NilEmpty.string_of_uint (Nat.to_uint n).

(** ECMAScript WhiteSpace and LineTerminator code points, in UTF-8: TAB, LF,
    VT, FF, CR, SP, U+00A0, U+1680, U+2000..U+200A, U+2028, U+2029, U+202F,
    U+205F, U+3000, U+FEFF. *)
Definition white_space : list string :=
  map bytes
    [ [9]; [10]; [11]; [12]; [13]; [32]; [194; 160]; [225; 154; 128];
      [226; 128; 128]; [226; 128; 129]; [226; 128; 130]; [226; 128; 131];
      [226; 128; 132]; [226; 128; 133]; [226; 128; 134]; [226; 128; 135];
      [226; 128; 136]; [226; 128; 137]; [226; 128; 138]; [226; 128; 168];
      [226; 128; 169]; [226; 128; 175]; [226; 129; 159]; [227; 128; 128];
      [239; 187; 191] ].

Fixpoint strip_any (ps : list string) (s : string) : option string :=
  match ps with
  | [] => None
  | p :: ps' =>
      match strip_prefix p s with
      | Some r => Some r
      | None => strip_any ps' s
      end
  end.

Fixpoint strip_all (fuel : nat) (ps : list string) (s : string) : string :=
  match fuel with
  | O => s
  | S fuel' =>
      match strip_any ps s with
      | Some r => strip_all fuel' ps r
      | None => s
      end
  end.

Definition trimStart (s : string) : string :=
  strip_all (String.length s) white_space s.

Definition trimEnd (s : string) : string :=
  let r := rev_string s EmptyString in
  rev_string
    (strip_all (String.length r)
       (map (fun w => rev_string w EmptyString) white_space) r)
    EmptyString.

(** [s.trim()]. *)
Definition trim (s : string) : string := trimEnd (trimStart s).

(** *** Values *)

(** A JavaScript value of the fragment the program handles: what JSON.parse
    builds, and [undefined]. An object lists its own members in enumeration
    order. *)
#[local] Unset Elimination Schemes.
Inductive Value : Type :=
| JUndefined
| JNull
| JBool (b : bool)
| JNumber (lexeme : string)
| JString (s : string)
| JArray (items : list Value)
| JObject (members : list (string * Value)).
#[local] Set Elimination Schemes.

Definition Members : Type := list (string * Value).

Fixpoint lookup (k : string) (ms : Members) : option Value :=
  match ms with
  | [] => None
  | (k', v) :: ms' => if String.eqb k k' then Some v else lookup k ms'
  end.

Definition has_own (k : string) (ms : Members) : bool :=
  match lookup k ms with
  | Some _ => true
  | None => false
  end.

Definition is_digit (c : ascii) : bool :=
  let n := nat_of_ascii c in ((48 <=? n)%nat && (n <=? 57)%nat).

Fixpoint all_digits (s : string) : bool :=
  match s with
  | EmptyString => true
  | String c r => is_digit c && all_digits r
  end.

Fixpoint decimal_value (s : string) (acc : N) : N :=
  match s with
  | EmptyString => acc
  | String c r => decimal_value r (10 * acc + (N_of_ascii c - 48))%N
  end.

(** An array index: the canonical decimal text of an integer below 2^32 - 1.
    Such keys enumerate first, in ascending order. *)
Definition array_index (k : string) : option N :=
  match k with
  | EmptyString => None
  | String c r =>
      if all_digits k && (negb (Ascii.eqb c "0"%char) || negb (nonempty r))
         && (String.length k <=? 10)%nat
      then
        let n := decimal_value k 0%N in
        if (n <? 4294967295)%N then Some n else None
      else None
  end.

Fixpoint replace_own (k : string) (v : Value) (ms : Members) : Members :=
  match ms with
  | [] => []
  | (k', v') :: ms' =>
      if String.eqb k k' then (k', v) :: ms' else (k', v') :: replace_own k v ms'
  end.

Fixpoint insert_index (n : N) (k : string) (v : Value) (ms : Members) : Members :=
  match ms with
  | [] => [(k, v)]
  | (k', v') :: ms' =>
      match array_index k' with
      | Some n' =>
          if (n <? n')%N then (k, v) :: ms else (k', v') :: insert_index n k v ms'
      | None => (k, v) :: ms
      end
  end.

(** CreateDataProperty on a plain object: an existing member keeps its place,
    a new array index goes among the indices, any other new key goes last. *)
Definition define_own (k : string) (v : Value) (ms : Members) : Members :=
  if has_own k ms then replace_own k v ms
  else
    match array_index k with
    | Some n => insert_index n k v ms
    | None => (ms ++ [(k, v)])%list
    end.

(** *** JSON.parse *)

Definition json_ws (c : ascii) : bool :=
  let n := nat_of_ascii c in
  Nat.eqb n 32 || Nat.eqb n 9 || Nat.eqb n 10 || Nat.eqb n 13.

Fixpoint skip_ws (s : string) : string :=
  match s with
  | EmptyString => EmptyString
  | String c r => if json_ws c then skip_ws r else s
  end.

Definition hex_value (c : ascii) : option N :=
  let n := N_of_ascii c in
  if (48 <=? n)%N && (n <=? 57)%N then Some (n - 48)%N
  else if (97 <=? n)%N && (n <=? 102)%N then Some (n - 87)%N
  else if (65 <=? n)%N && (n <=? 70)%N then Some (n - 55)%N
  else None.

Definition hex4 (a b c d : ascii) : option N :=
  match hex_value a, hex_value b, hex_value c, hex_value d with
  | Some x, Some y, Some z, Some w => Some (4096 * x + 256 * y + 16 * z + w)%N
  | _, _, _, _ => None
  end.

(** The characters of a string literal: a byte of the text, or the UTF-16
    code unit of a u-escape. *)
Inductive StringItem : Type :=
| Raw (c : ascii)
| Unit16 (u : N).

(** The body of a string literal, after its opening quote: the items up to
    the closing quote, and the text after it. *)
Fixpoint string_items (s : string) : option (list StringItem * string) :=
  match s with
  | EmptyString => None
  | String c r =>
      if Ascii.eqb c (ascii_of_nat 34) then Some ([], r)
      else if Ascii.eqb c "\"%char then
        match r with
        | String e r1 =>
            let simple (x : nat) :=
              match string_items r1 with
              | Some (items, rest) => Some (Raw (ascii_of_nat x) :: items, rest)
              | None => None
              end in
            if Ascii.eqb e (ascii_of_nat 34) then simple 34
            else if Ascii.eqb e "\"%char then simple 92
            else if Ascii.eqb e "/"%char then simple 47
            else if Ascii.eqb e "b"%char then simple 8
            else if Ascii.eqb e "f"%char then simple 12
            else if Ascii.eqb e "n"%char then simple 10
            else if Ascii.eqb e "r"%char then simple 13
            else if Ascii.eqb e "t"%char then simple 9
            else if Ascii.eqb e "u"%char then
              match r1 with
              | String h1 (String h2 (String h3 (String h4 r2))) =>
                  match hex4 h1 h2 h3 h4, string_items r2 with
                  | Some u, Some (items, rest) => Some (Unit16 u :: items, rest)
                  | _, _ => None
                  end
              | _ => None
              end
            else None
        | EmptyString => None
        end
      else if (nat_of_ascii c <? 32)%nat then None
      else
        match string_items r with
        | Some (items, rest) => Some (Raw c :: items, rest)
        | None => None
        end
  end.

Definition byte_of (n : N) : ascii := ascii_of_N n.

(** UTF-8 of a code point (a lone surrogate is written as its three bytes). *)
Definition utf8 (cp : N) : list ascii :=
  if (cp <? 128)%N then [byte_of cp]
  else if (cp <? 2048)%N then
    [byte_of (192 + cp / 64); byte_of (128 + cp mod 64)]
  else if (cp <? 65536)%N then
    [byte_of (224 + cp / 4096); byte_of (128 + (cp / 64) mod 64);
     byte_of (128 + cp mod 64)]
  else
    [byte_of (240 + cp / 262144); byte_of (128 + (cp / 4096) mod 64);
     byte_of (128 + (cp / 64) mod 64); byte_of (128 + cp mod 64)].

Definition is_high_surrogate (u : N) : bool := (55296 <=? u)%N && (u <=? 56319)%N.
Definition is_low_surrogate (u : N) : bool := (56320 <=? u)%N && (u <=? 57343)%N.

Fixpoint items_to_bytes (items : list StringItem) : list ascii :=
  match items with
  | [] => []
  | Raw c :: rest => c :: items_to_bytes rest
  | Unit16 hi :: rest =>
      match rest with
      | Unit16 lo :: rest' =>
          if is_high_surrogate hi && is_low_surrogate lo
          then (utf8 (65536 + (hi - 55296) * 1024 + (lo - 56320)) ++ items_to_bytes rest')%list
          else (utf8 hi ++ items_to_bytes rest)%list
      | _ => (utf8 hi ++ items_to_bytes rest)%list
      end
  end.

Definition parse_string (s : string) : option (string * string) :=
  match string_items s with
  | Some (items, rest) => Some (string_of_list_ascii (items_to_bytes items), rest)
  | None => None
  end.

Fixpoint take_digits (s : string) : string * string :=
  match s with
  | EmptyString => (EmptyString, EmptyString)
  | String c r =>
      if is_digit c then let (ds, rest) := take_digits r in (String c ds, rest)
      else (EmptyString, s)
  end.

(** A number token, returned as written: an optional minus sign; 0, or a
    digit 1-9 and further digits; an optional fraction (a point and one or
    more digits); an optional exponent (e or E, an optional sign, one or
    more digits). *)
Definition parse_number (s : string) : option (string * string) :=
  let (sign, s1) :=
    match s with
    | String c r => if Ascii.eqb c "-"%char then ("-", r) else (EmptyString, s)
    | EmptyString => (EmptyString, s)
    end in
  let int_part :=
    match s1 with
    | String c r =>
        if Ascii.eqb c "0"%char then Some ("0", r)
        else if is_digit c then let (ds, rest) := take_digits r in Some (String c ds, rest)
        else None
    | EmptyString => None
    end in
  match int_part with
  | None => None
  | Some (int, s2) =>
      let frac_part :=
        match s2 with
        | String c r =>
            if Ascii.eqb c "."%char then
              let (ds, rest) := take_digits r in
              if nonempty ds then Some ("." ++ ds, rest) else None
            else Some (EmptyString, s2)
        | EmptyString => Some (EmptyString, s2)
        end in
      match frac_part with
      | None => None
      | Some (frac, s3) =>
          let exp_part :=
            match s3 with
            | String c r =>
                if Ascii.eqb c "e"%char || Ascii.eqb c "E"%char then
                  let (esign, r1) :=
                    match r with
                    | String d r' =>
                        if Ascii.eqb d "+"%char || Ascii.eqb d "-"%char
                        then (String d EmptyString, r') else (EmptyString, r)
                    | EmptyString => (EmptyString, r)
                    end in
                  let (ds, rest) := take_digits r1 in
                  if nonempty ds then Some (String c esign ++ ds, rest) else None
                else Some (EmptyString, s3)
            | EmptyString => Some (EmptyString, s3)
            end in
          match exp_part with
          | None => None
          | Some (ex, s4) => Some (sign ++ int ++ frac ++ ex, s4)
          end
      end
  end.

(** A JSON value at the head of the text (after white space), and the text
    that follows it. Every call spends one unit of fuel; [JSON_parse] gives
    enough for the whole text. *)
Fixpoint parse_value (fuel : nat) (s : string) : option (Value * string) :=
  match fuel with
  | O => None
  | S fuel' =>
      match skip_ws s with
      | EmptyString => None
      | String c r =>
          if Ascii.eqb c "{"%char then
            match skip_ws r with
            | String c' r' =>
                if Ascii.eqb c' "}"%char then Some (JObject [], r')
                else parse_members fuel' r []
            | EmptyString => None
            end
          else if Ascii.eqb c "["%char then
            match skip_ws r with
            | String c' r' =>
                if Ascii.eqb c' "]"%char then Some (JArray [], r')
                else parse_elements fuel' r []
            | EmptyString => None
            end
          else if Ascii.eqb c (ascii_of_nat 34) then
            match parse_string r with
            | Some (str, rest) => Some (JString str, rest)
            | None => None
            end
          else if Ascii.eqb c "t"%char then
            match strip_prefix "rue" r with
            | Some rest => Some (JBool true, rest)
            | None => None
            end
          else if Ascii.eqb c "f"%char then
            match strip_prefix "alse" r with
            | Some rest => Some (JBool false, rest)
            | None => None
            end
          else if Ascii.eqb c "n"%char then
            match strip_prefix "ull" r with
            | Some rest => Some (JNull, rest)
            | None => None
            end
          else
            match parse_number (String c r) with
            | Some (lexeme, rest) => Some (JNumber lexeme, rest)
            | None => None
            end
      end
  end

with parse_elements (fuel : nat) (s : string) (acc : list Value)
  : option (Value * string) :=
  match fuel with
  | O => None
  | S fuel' =>
      match parse_value fuel' s with
      | Some (v, r) =>
          match skip_ws r with
          | String c r' =>
              if Ascii.eqb c ","%char then parse_elements fuel' r' (v :: acc)
              else if Ascii.eqb c "]"%char then Some (JArray (rev (v :: acc)), r')
              else None
          | EmptyString => None
          end
      | None => None
      end
  end

with parse_members (fuel : nat) (s : string) (acc : Members)
  : option (Value * string) :=
  match fuel with
  | O => None
  | S fuel' =>
      match skip_ws s with
      | String q r =>
          if Ascii.eqb q (ascii_of_nat 34) then
            match parse_string r with
            | Some (k, r1) =>
                match skip_ws r1 with
                | String c r2 =>
                    if Ascii.eqb c ":"%char then
                      match parse_value fuel' r2 with
                      | Some (v, r3) =>
                          match skip_ws r3 with
                          | String d r4 =>
                              if Ascii.eqb d ","%char
                              then parse_members fuel' r4 (define_own k v acc)
                              else if Ascii.eqb d "}"%char
                              then Some (JObject (define_own k v acc), r4)
                              else None
                          | EmptyString => None
                          end
                      | None => None
                      end
                    else None
                | EmptyString => None
                end
            | None => None
            end
          else None
      | EmptyString => None
      end
  end.

(** [JSON.parse(text)]: [None] is the SyntaxError. *)
Definition JSON_parse (text : string) : option Value :=
  match parse_value (2 * String.length text + 2) text with
  | Some (v, rest) =>
      match skip_ws rest with
      | EmptyString => Some v
      | String _ _ => None
      end
  | None => None
  end.

(** *** Reading values *)

Definition nullish (v : Value) : bool :=
  match v with
  | JUndefined | JNull => true
  | _ => false
  end.

(** A number written with no non-zero digit in its mantissa is zero. (The
    converse holds short of underflow: see [plain_number].) *)
Fixpoint number_is_zero (lexeme : string) : bool :=
  match lexeme with
  | EmptyString => true
  | String c r =>
      if Ascii.eqb c "e"%char || Ascii.eqb c "E"%char then true
      else if is_digit c && negb (Ascii.eqb c "0"%char) then false
      else number_is_zero r
  end.

Definition number_is_positive (lexeme : string) : bool :=
  negb (number_is_zero lexeme)
  && match lexeme with
     | String c _ => negb (Ascii.eqb c "-"%char)
     | EmptyString => true
     end.

(** ToBoolean. *)
Definition truthy (v : Value) : bool :=
  match v with
  | JUndefined | JNull => false
  | JBool b => b
  | JNumber lexeme => negb (number_is_zero lexeme)
  | JString s => nonempty s
  | JArray _ | JObject _ => true
  end.

(** [a || b]. *)
Definition or_else (a b : Value) : Value := if truthy a then a else b.

(** [s || fallback] for an optional string. *)
Definition or_text (s : option string) (fallback : string) : string :=
  match s with
  | Some t => if nonempty t then t else fallback
  | None => fallback
  end.

(** ToString, as a template literal applies it to an interpolated value:
    JavaScript's on the values of [printable] below. *)
Fixpoint ToString (v : Value) : string :=
  match v with
  | JUndefined => "undefined"
  | JNull => "null"
  | JBool true => "true"
  | JBool false => "false"
  | JNumber lexeme => lexeme
  | JString s => s
  | JArray items =>
      (fix join (xs : list Value) : string :=
         match xs with
         | [] => EmptyString
         | x :: rest =>
             (if nullish x then EmptyString else ToString x)
             ++ match rest with
                | [] => EmptyString
                | _ :: _ => "," ++ join rest
                end
         end) items
  | JObject _ => "[object Object]"
  end.

Definition cannot_read (v : Value) (k : string) : Thrown :=
  ErrorObject
    ("Cannot read properties of " ++ ToString v ++ " (reading '" ++ k ++ "')").

(** The member [k] of a value that is not null or undefined, for a key that
    no prototype defines. Every key the source writes as a literal is one
    (title, summary, optionName, conceptSummary, hookLine, cta, hooks, ctas)
    and so are [length] and the indices. *)
Definition own (v : Value) (k : string) : Value :=
  match v with
  | JObject ms =>
      match lookup k ms with
      | Some x => x
      | None => JUndefined
      end
  | JArray items =>
      if String.eqb k "length" then JNumber (of_nat (List.length items))
      else
        match array_index k with
        | Some n => nth (N.to_nat n) items JUndefined
        | None => JUndefined
        end
  | JString s =>
      if String.eqb k "length" then JNumber (of_nat (String.length s))
      else
        match array_index k with
        | Some n =>
            match String.get (N.to_nat n) s with
            | Some c => JString (String c EmptyString)
            | None => JUndefined
            end
        | None => JUndefined
        end
  | _ => JUndefined
  end.

(** [v.k] and [v[i]]: a TypeError on null and undefined. *)
Definition prop (v : Value) (k : string) : Result Value :=
  if nullish v then Throw (cannot_read v k) else Ok (own v k).

(** The item at a numeric index. *)
Definition item (v : Value) (i : nat) : Value :=
  match v with
  | JArray items => nth i items JUndefined
  | JString s =>
      match String.get i s with
      | Some c => JString (String c EmptyString)
      | None => JUndefined
      end
  | JObject ms =>
      match lookup (of_nat i) ms with
      | Some x => x
      | None => JUndefined
      end
  | _ => JUndefined
  end.

Definition at_index (v : Value) (i : nat) : Result Value :=
  if nullish v then Throw (cannot_read v (of_nat i)) else Ok (item v i).

(** [x > 0] and [x === 0] for the value of a [length]. A number decides by
    its text; ToNumber of anything else is not modelled: undefined, objects
    and non-numeric text give NaN, and the rest is read as not positive.
    So [x > 0] is JavaScript's for undefined, null, a boolean and a plain
    number, and not for a text or an array that ToNumber reads as a
    positive number. *)
Definition greater_than_zero (v : Value) : bool :=
  match v with
  | JNumber lexeme => number_is_positive lexeme
  | JBool b => b
  | _ => false
  end.

Definition strictly_zero (v : Value) : bool :=
  match v with
  | JNumber lexeme => number_is_zero lexeme
  | _ => false
  end.

(** *** JSON.stringify and the deep copy *)

Definition hex_digit (n : N) : ascii :=
  if (n <? 10)%N then ascii_of_N (48 + n) else ascii_of_N (87 + n).

Definition u_escape (u : N) : string :=
  "\u" ++ string_of_list_ascii
            [hex_digit (u / 4096); hex_digit ((u / 256) mod 16);
             hex_digit ((u / 16) mod 16); hex_digit (u mod 16)].

(** QuoteJSONString, without the surrounding quotes. *)
Fixpoint quote_body (s : string) : string :=
  match s with
  | EmptyString => EmptyString
  | String c r =>
      let n := N_of_ascii c in
      let lone_surrogate :=
        match r with
        | String c1 (String c2 r2) =>
            let n1 := N_of_ascii c1 in
            let n2 := N_of_ascii c2 in
            if (n =? 237)%N && (160 <=? n1)%N && (n1 <=? 191)%N
               && (128 <=? n2)%N && (n2 <=? 191)%N
            then Some (u_escape (53248 + (n1 - 128) * 64 + (n2 - 128)) ++ quote_body r2)
            else None
        | _ => None
        end in
      match lone_surrogate with
      | Some out => out
      | None =>
          (if (n =? 34)%N then "\" ++ dq
           else if (n =? 92)%N then "\\"
           else if (n =? 8)%N then "\b"
           else if (n =? 9)%N then "\t"
           else if (n =? 10)%N then "\n"
           else if (n =? 12)%N then "\f"
           else if (n =? 13)%N then "\r"
           else if (n <? 32)%N then u_escape n
           else String c EmptyString)
          ++ quote_body r
      end
  end.

Definition quote (s : string) : string := dq ++ quote_body s ++ dq.

Fixpoint join_lines (sep : string) (parts : list string) : string :=
  match parts with
  | [] => EmptyString
  | [x] => x
  | x :: rest => x ++ sep ++ join_lines sep rest
  end.

(** SerializeJSONProperty with a gap of two spaces; [None] is undefined. *)
Fixpoint serialize (indent : string) (v : Value) : option string :=
  let inner := indent ++ "  " in
  let sep := "," ++ nl ++ inner in
  match v with
  | JUndefined => None
  | JNull => Some "null"
  | JBool true => Some "true"
  | JBool false => Some "false"
  | JNumber lexeme => Some lexeme
  | JString s => Some (quote s)
  | JArray items =>
      match items with
      | [] => Some "[]"
      | _ :: _ =>
          let parts :=
            map (fun x =>
                   match serialize inner x with
                   | Some t => t
                   | None => "null"
                   end) items in
          Some ("[" ++ nl ++ inner ++ join_lines sep parts ++ nl ++ indent ++ "]")
      end
  | JObject ms =>
      let parts :=
        (fix go (ms : Members) : list string :=
           match ms with
           | [] => []
           | (k, x) :: rest =>
               match serialize inner x with
               | Some t => (quote k ++ ": " ++ t) :: go rest
               | None => go rest
               end
           end) ms in
      match parts with
      | [] => Some "{}"
      | _ :: _ =>
          Some ("{" ++ nl ++ inner ++ join_lines sep parts ++ nl ++ indent ++ "}")
      end
  end.

(** [JSON.stringify(v, null, 2)] as a template literal interpolates it. *)
Definition JSON_stringify_2 (v : Value) : string :=
  match serialize EmptyString v with
  | Some t => t
  | None => "undefined"
  end.

(** What [JSON.parse(JSON.stringify(v))] returns for a defined [v]: the same
    tree, where an undefined member is gone and an undefined item is null.
    (Members are taken to have distinct keys in enumeration order, as every
    object built here has; numbers are taken to be [plain_number]s, which
    print and parse back as they are.) *)
Fixpoint copy (v : Value) : Value :=
  match v with
  | JArray items =>
      JArray (map (fun x => match x with
                            | JUndefined => JNull
                            | _ => copy x
                            end) items)
  | JObject ms =>
      JObject
        ((fix go (ms : Members) : Members :=
            match ms with
            | [] => []
            | (k, x) :: rest =>
                match x with
                | JUndefined => go rest
                | _ => (k, copy x) :: go rest
                end
            end) ms)
  | _ => v
  end.

(** [JSON.parse(JSON.stringify(v))]; stringify gives undefined for undefined,
    which JSON.parse then reads as the text undefined: a SyntaxError. *)
Definition deep_copy (v : Value) : Result Value :=
  match v with
  | JUndefined =>
      Throw (ErrorObject (dq ++ "undefined" ++ dq ++ " is not valid JSON"))
  | _ => Ok (copy v)
  end.

(** *** Spread, computed keys and assignment *)

Fixpoint indexed (i : nat) (items : list Value) : Members :=
  match items with
  | [] => []
  | x :: rest => (of_nat i, x) :: indexed (S i) rest
  end.

Fixpoint characters (s : string) : list Value :=
  match s with
  | EmptyString => []
  | String c r => JString (String c EmptyString) :: characters r
  end.

(** The own enumerable members that an object spread copies. *)
Definition spread (v : Value) : Members :=
  match v with
  | JObject ms => ms
  | JArray items => indexed 0 items
  | JString s => indexed 0 (characters s)
  | _ => []
  end.

(** ToPropertyKey of a computed key: ToString, there being no symbols. *)
Definition ToPropertyKey (v : Value) : string := ToString v.

(** The members every plain object inherits from Object.prototype. *)
Definition Object_prototype_names : list string :=
  [ "constructor"; "__defineGetter__"; "__defineSetter__"; "hasOwnProperty";
    "__lookupGetter__"; "__lookupSetter__"; "isPrototypeOf";
    "propertyIsEnumerable"; "toString"; "valueOf"; "__proto__";
    "toLocaleString" ].

Definition inherited (k : string) : bool :=
  existsb (String.eqb k) Object_prototype_names.

(** [obj[k]] on a plain object, for a computed [k]: the own member, else
    undefined; an inherited member is a function or the prototype itself. *)
Definition read_member (ms : Members) (k : string) : Outcome Value :=
  match lookup k ms with
  | Some v => Done v
  | None => if inherited k then OutOfModel else Done JUndefined
  end.

(** [obj[k] = v] on a plain object. An own member is overwritten in place;
    a new key is defined, except [__proto__], which reaches the inherited
    setter: it ignores a value that is neither an object nor null, and
    would change the prototype otherwise. *)
Definition assign_member (ms : Members) (k : string) (v : Value) : Outcome Members :=
  if has_own k ms then Done (replace_own k v ms)
  else if String.eqb k "__proto__" then
    match v with
    | JObject _ | JArray _ | JNull => OutOfModel
    | _ => Done ms
    end
  else Done (define_own k v ms).

Definition cannot_set (v : Value) (k : string) : Thrown :=
  ErrorObject
    ("Cannot set properties of " ++ ToString v ++ " (setting '" ++ k ++ "')").

(** [v[k]] and [v[k] = x] for a computed key: on a plain object as above, a
    TypeError on null and undefined; arrays and primitives are not
    modelled as receivers. *)
Definition read_computed (v : Value) (k : string) : Outcome Value :=
  match v with
  | JObject ms => read_member ms k
  | JUndefined | JNull => Raised (cannot_read v k)
  | _ => OutOfModel
  end.

Definition assign_computed (v : Value) (k : string) (x : Value) : Outcome Value :=
  match v with
  | JObject ms => obind (assign_member ms k x) (fun ms' => Done (JObject ms'))
  | JUndefined | JNull => Raised (cannot_set v k)
  | _ => OutOfModel
  end.

Fixpoint replace_nth (i : nat) (x : Value) (items : list Value) : list Value :=
  match items, i with
  | [], _ => []
  | _ :: rest, O => x :: rest
  | y :: rest, S i' => y :: replace_nth i' x rest
  end.

(** The container after the item read from it at [i] was changed in place. *)
Definition with_item (v : Value) (i : nat) (x : Value) : Value :=
  match v with
  | JArray items => JArray (replace_nth i x items)
  | JObject ms => JObject (replace_own (of_nat i) x ms)
  | _ => v
  end.

(** No undefined anywhere: the trees JSON text can denote. *)
Fixpoint is_json (v : Value) : bool :=
  match v with
  | JUndefined => false
  | JArray items => forallb is_json items
  | JObject ms =>
      (fix all (ms : Members) : bool :=
         match ms with
         | [] => true
         | (_, x) :: rest => is_json x && all rest
         end) ms
  | _ => true
  end.

Definition members_json (ms : Members) : bool :=
  forallb (fun kv => is_json (snd kv)) ms.

(** *** Where the text of a number is its value *)

(** A number written as JavaScript prints it and held exactly by a binary64:
    an integer in canonical decimal (a minus sign only before a number that
    is not zero, no leading zero, no fraction, no exponent) of at most
    fifteen digits. On these, going by the text is going by the value. *)
Definition plain_number (lexeme : string) : bool :=
  let digits :=
    match lexeme with
    | String c r => if Ascii.eqb c "-"%char then r else lexeme
    | EmptyString => lexeme
    end in
  match digits with
  | EmptyString => false
  | String d r =>
      all_digits digits
      && (String.length digits <=? 15)%nat
      && (if Ascii.eqb d "0"%char
          then negb (nonempty r) && String.eqb digits lexeme
          else true)
  end.

(** No number anywhere but plain ones. *)
Fixpoint plain (v : Value) : bool :=
  match v with
  | JNumber lexeme => plain_number lexeme
  | JArray items => forallb plain items
  | JObject ms =>
      (fix all (ms : Members) : bool :=
         match ms with
         | [] => true
         | (_, x) :: rest => plain x && all rest
         end) ms
  | _ => true
  end.

(** The values that a template literal and a computed key turn into text
    without a throw, and whose text is the one [ToString] gives. ToString
    of an object calls its toString: the inherited one, unless the object
    owns a member of that name, which is no function in parsed data and
    makes the conversion throw a TypeError. Of an array it joins the text
    of the items. *)
Fixpoint printable (v : Value) : bool :=
  match v with
  | JNumber lexeme => plain_number lexeme
  | JArray items => forallb printable items
  | JObject ms => negb (has_own "toString" ms)
  | _ => true
  end.

End JS.

(** ** The browser and the provider SDK: what an async function awaits *)
Module Host.
Import JS.

(** An uploaded file, as the browser hands it over. *)
Record File : Type := {
  file_name : string;
  file_type : string;
  file_content : string
}.

(** The inline image part every stage passes on unchanged. *)
Record GenerativePart : Type := {
  mimeType : string;
  data : string
}.

(** The response schema of a request, as the stage writes it: a string with
    an optional description, an array with its item schema, an object with
    its properties (a property may be written with the value undefined) and
    its required keys. *)
#[local] Unset Elimination Schemes.
Inductive Schema : Type :=
| STRING (description : option string)
| ARRAY (items : Schema)
| OBJECT (properties : list (string * option Schema)) (required : list string).
#[local] Set Elimination Schemes.

(** The argument of [ai.models.generateContent]. *)
Record Request : Type := {
  model : string;
  prompt : string;
  image : option GenerativePart;
  responseMimeType : option string;
  responseSchema : option Schema
}.

(** What the provider answers; the SDK's [text] may be undefined. *)
Record Response : Type := {
  text : option string
}.

(** An async function up to its completion: it returns, throws, or awaits
    the file reader or the provider and goes on with what it is given. *)
Inductive Async (A : Type) : Type :=
| Return (a : A)
| Fail (e : Thrown)
| AwaitFile (file : File) (k : Result GenerativePart -> Async A)
| AwaitContent (request : Request) (k : Result Response -> Async A).
Arguments Return {A} a.
Arguments Fail {A} e.
Arguments AwaitFile {A} file k.
Arguments AwaitContent {A} request k.

Fixpoint abind {A B : Type} (t : Async A) (f : A -> Async B) : Async B :=
  match t with
  | Return a => f a
  | Fail e => Fail e
  | AwaitFile file k => AwaitFile file (fun r => abind (k r) f)
  | AwaitContent request k => AwaitContent request (fun r => abind (k r) f)
  end.

(** [try { t } catch (err) { handler err }]. *)
Fixpoint try_catch {A : Type} (t : Async A) (handler : Thrown -> Async A) : Async A :=
  match t with
  | Return a => Return a
  | Fail e => handler e
  | AwaitFile file k => AwaitFile file (fun r => try_catch (k r) handler)
  | AwaitContent request k => AwaitContent request (fun r => try_catch (k r) handler)
  end.

(** A synchronous step inside an async function. *)
Definition sync {A : Type} (r : Result A) : Async A :=
  match r with
  | Ok a => Return a
  | Throw e => Fail e
  end.

(** [await fileToGenerativePart(file)] (utils/fileUtils, awaited as is). *)
Definition fileToGenerativePart (file : File) : Async GenerativePart :=
  AwaitFile file sync.

(** [await ai.models.generateContent(request)]. *)
Definition generateContent (request : Request) : Async Response :=
  AwaitContent request sync.

(** What a schema asks of a value: a string; an array whose items all fit the
    item schema; an object that has every required key and whose members
    fit the schema of the property they are declared under. *)
Fixpoint conforms (schema : Schema) (v : Value) : bool :=
  match schema with
  | STRING _ =>
      match v with
      | JString _ => true
      | _ => false
      end
  | ARRAY items =>
      match v with
      | JArray xs => forallb (conforms items) xs
      | _ => false
      end
  | OBJECT properties required =>
      match v with
      | JObject ms =>
          forallb (fun k => has_own k ms) required
          && (fix declared (ps : list (string * option Schema)) : bool :=
                match ps with
                | [] => true
                | (k, Some sub) :: rest =>
                    match lookup k ms with
                    | Some x => conforms sub x
                    | None => true
                    end
                    && declared rest
                | (_, None) :: rest => declared rest
                end) properties
      | _ => false
      end
  end.

(** One way the world can answer: what reading each file gives and what the
    provider returns for each request. *)
Record World : Type := {
  read_file : File -> Result GenerativePart;
  respond : Request -> Result Response
}.

(** The completion of an async function in a given world. *)
Fixpoint run {A : Type} (w : World) (t : Async A) : Result A :=
  match t with
  | Return a => Ok a
  | Fail e => Throw e
  | AwaitFile file k => run w (k (read_file w file))
  | AwaitContent request k => run w (k (respond w request))
  end.

(** The provider calls it makes on the way, in order. *)
Fixpoint requests {A : Type} (w : World) (t : Async A) : list Request :=
  match t with
  | Return _ | Fail _ => []
  | AwaitFile file k => requests w (k (read_file w file))
  | AwaitContent request k => request :: requests w (k (respond w request))
  end.

End Host.

(** ** services/geminiService: the six provider stages *)
Module GeminiService.
Import JS Host.

Notation "x <- t ;; k" := (abind t (fun x => k))
  (at level 61, t at next level, right associativity).

Inductive AdvertType : Type := still | video.

Record CtaDetails : Type := {
  url : option string;
  whatsapp : option string
}.

(** [s || fallback] for a string. *)
Definition or_string (s fallback : string) : string :=
  if nonempty s then s else fallback.

(** The Error each stage throws from its catch around JSON.parse. *)
Definition invalid_response (what : string) : Thrown :=
  ErrorObject ("The AI returned an invalid response for " ++ what ++ ".").

(** [try { return JSON.parse(response.text.trim()); } catch (e) { throw new
    Error(...) }]: reading [trim] off an undefined text throws inside the
    try as well. *)
Definition parse_response (what : string) (response : Response) : Async Value :=
  match text response with
  | Some t =>
      match JSON_parse (trim t) with
      | Some v => Return v
      | None => Fail (invalid_response what)
      end
  | None => Fail (invalid_response what)
  end.

Definition format_of (advertType : AdvertType) : string :=
  match advertType with
  | still => "still image"
  | video => "short 8-10 second video"
  end.

Definition title_summary_schema (title_description summary_description : option string)
  : Schema :=
  ARRAY (OBJECT [ ("title", Some (STRING title_description));
                  ("summary", Some (STRING summary_description)) ]
                [ "title"; "summary" ]).

(** *** Step 1: five trending ad styles *)

Definition advertStylesPrompt (format : string) : string :=
  "Analyze the provided product image. " ++
  "Based on its category and appearance, generate 5 distinct, highly trending, and successful ad STYLES for a " ++
  format ++ " campaign. " ++
  "For each style, provide a catchy title and a brief summary explaining the style and why it's currently effective for getting high CTR. " ++
  "Examples for video could be " ++ dq ++ "Unboxing ASMR" ++ dq ++ " or " ++ dq ++
  "Dynamic User-Generated Content Style" ++ dq ++
  ". Examples for still image could be " ++ dq ++ "Cinematic Product Shot" ++ dq ++
  " or " ++ dq ++ "Bold Minimalism" ++ dq ++ ".".

Definition generateAdvertStyles (imagePart : GenerativePart) (advertType : AdvertType)
  : Async Value :=
  let format := format_of advertType in
  response <- generateContent
    {| model := "gemini-2.5-flash";
       prompt := advertStylesPrompt format;
       image := Some imagePart;
       responseMimeType := Some "application/json";
       responseSchema := Some (title_summary_schema None None) |} ;;
  parse_response "advert styles" response.

(** *** Step 2: five concept ideas *)

Definition coreInstruction (format title summary : string) : string :=
  "Your task is to generate 5 distinct, highly trending, and attention-grabbing ad concept IDEAS for a " ++
  format ++ ", all aligned with the chosen ad style: " ++ dq ++ title ++ ": " ++
  summary ++ dq ++ ". These should be high-level summaries, not full plans. " ++
  "Focus on what's current, viral, and proven to have a high CTR for this product category within the specified ad style.".

Definition enhancePrompt (format coreInstruction title userConcept brandGuidelines : string)
  : string :=
  "You are a world-class AI creative director specializing in enhancing raw ideas into high-performing campaigns. " ++
  "A user has provided an image, their initial ad concept, a chosen format (" ++
  format ++ "), and a guiding ad style." ++ nl ++
  "        Your task is to act as a creative partner. " ++
  "Take the user's core idea and elevate it by blending it with 5 distinct, highly trending, and proven high-CTR (Click-Through Rate) strategies relevant to the product type, chosen format, and ad style. " ++
  "The goal is not to replace their idea, but to show them five professional, enhanced variations of it." ++
  nl ++ nl ++ "        " ++ coreInstruction ++ nl ++ nl ++ "        USER INPUTS:" ++
  nl ++ "        - Chosen Ad Style: " ++ dq ++ title ++ dq ++ nl ++
  "        - User's Raw Ad Concept to Enhance: " ++ dq ++ userConcept ++ dq ++ nl ++
  "        - Brand Guidelines to consider: " ++ dq ++ or_string brandGuidelines "N/A" ++
  dq.

Definition inventPrompt (format coreInstruction title brandGuidelines : string) : string :=
  "You are a world-class AI creative director. " ++
  "A user has provided an image, brand guidelines, a chosen format (" ++ format ++
  "), and has chosen a guiding ad style." ++ nl ++ "        " ++ coreInstruction ++ nl ++
  nl ++ "        USER INPUTS:" ++ nl ++ "        - Chosen Ad Style: " ++ dq ++ title ++
  dq ++ nl ++ "        - Brand Guidelines: " ++ dq ++ or_string brandGuidelines "N/A" ++
  dq.

Definition conceptIdeasPrompt
  (format title summary userConcept brandGuidelines : string) : string :=
  let core := coreInstruction format title summary in
  if nonempty userConcept
  then enhancePrompt format core title userConcept brandGuidelines
  else inventPrompt format core title brandGuidelines.

Definition ideaSummaryDescription (format : string) : string :=
  "A one or two-sentence summary explaining the core of the highly trending, attention-grabbing ad concept for a " ++
  format ++ ".".

Definition generateConceptIdeas (imagePart : GenerativePart) (ctaDetails : CtaDetails)
  (brandGuidelines userConcept : string) (selectedStyle : Value)
  (advertType : AdvertType) : Async Value :=
  let format := format_of advertType in
  title <- sync (prop selectedStyle "title") ;;
  summary <- sync (prop selectedStyle "summary") ;;
  response <- generateContent
    {| model := "gemini-2.5-flash";
       prompt := conceptIdeasPrompt format (ToString title) (ToString summary)
                   userConcept brandGuidelines;
       image := Some imagePart;
       responseMimeType := Some "application/json";
       responseSchema :=
         Some (title_summary_schema
                 (Some "A short, catchy, and descriptive title for the concept idea.")
                 (Some (ideaSummaryDescription format))) |} ;;
  parse_response "concept ideas" response.

(** *** Step 3: the two full concepts *)

Definition fullConceptsPrompt (format budget styleTitle styleSummary : string)
  (ctaDetails : CtaDetails) (brandGuidelines title0 summary0 title1 summary1 : string)
  : string :=
  "You are a world-class AI producer for a high-end creative agency. " ++
  "Your task is to take two user-selected ad concept ideas and flesh them out into complete, professional, agency-grade plans for a " ++
  format ++ ", reflecting a " ++ budget ++
  ". The final output must be extremely detailed, actionable, and optimized for high CTR, all while adhering to the user's chosen ad style." ++
  nl ++ nl ++ "    INITIAL USER INPUTS:" ++ nl ++ "    - Target Format: " ++ format ++
  nl ++ "    - Chosen Ad Style: " ++ dq ++ styleTitle ++ ": " ++ styleSummary ++ dq ++
  nl ++ "    - Website for CTA: " ++ dq ++ or_text (url ctaDetails) "Not provided" ++
  dq ++ nl ++ "    - WhatsApp for CTA: " ++ dq ++
  or_text (whatsapp ctaDetails) "Not provided" ++ dq ++ nl ++
  "    - Brand Guidelines: " ++ dq ++ or_string brandGuidelines "N/A" ++ dq ++ nl ++
  nl ++ "    USER'S CHOSEN CONCEPTS:" ++ nl ++ "    1. " ++ "Title: " ++ dq ++ title0 ++
  dq ++ ", Summary: " ++ dq ++ summary0 ++ dq ++ nl ++ "    2. " ++ "Title: " ++ dq ++
  title1 ++ dq ++ ", Summary: " ++ dq ++ summary1 ++ dq ++ nl ++ "    " ++ nl ++
  "    For EACH of the two chosen concepts, generate a complete plan." ++ nl ++
  "    1.  " ++
  "**Craft Ad Copy:** Write a compelling hook, ad copy, and a strong CTA. " ++
  "The CTA must be context-aware: if a URL is given, use it. " ++
  "If a WhatsApp number is given, use it. " ++
  "If both, suggest a CTA that incorporates both. " ++
  "If neither, use a generic CTA like " ++ dq ++ "Learn More" ++ dq ++ "." ++ nl ++
  "    2.  " ++ "**Provide High-End Details:** For a still, detail the 'shootSetup'. " ++
  "For a video, detail the 'sceneDescription'. " ++
  "Recommend high-end cameras (e.g., ARRI Alexa, RED Komodo, Hasselblad, Phase One), lenses, and settings appropriate for a major commercial production. " ++
  "Include video-specific details like camera movement and sound design if it's a video." ++
  nl ++ "    3.  " ++
  "**Justify Trend:** Explain why this high-budget execution will be attention-grabbing and lead to high CTR." ++
  nl ++ nl ++
  "    Output a JSON array containing exactly TWO ad concept objects, one for each selected idea.".

(** [technicalSpecsProps]: five properties, and three more for a video. *)
Definition technicalSpecsProps (isVideo : bool) : list (string * option Schema) :=
  ([ ("camera", Some (STRING (Some
        "Recommended professional camera types (e.g., ARRI Alexa for video, Hasselblad X2D for still).")));
     ("lenses", Some (STRING (Some
        (if isVideo then "Recommended lens style (e.g., Cinematic Anamorphic)."
         else "Specific professional lenses (e.g., 85mm f/1.4)."))));
     ("angles", Some (STRING (Some
        (if isVideo
         then "Key shots and camera angles (e.g., Dynamic close-ups, wide establishing shots)."
         else "Key angles for the photoshoot."))));
     ("specs", Some (STRING (Some
        (if isVideo then "Video resolution and framerate (e.g., 4K, 24fps)."
         else "Image specifications (e.g., High-resolution, 3:2 aspect ratio)."))));
     ("mood", Some (STRING (Some
        "The overall mood, feeling, or aesthetic (e.g., Energetic and vibrant, dark and moody)."))) ]
   ++
   (if isVideo then
      [ ("cameraMovement", Some (STRING (Some
           "Specific camera movements (e.g., Fast-paced dolly shots, slow pans).")));
        ("editingStyle", Some (STRING (Some
           "Editing style for the video (e.g., Quick cuts, seamless transitions).")));
        ("soundDesign", Some (STRING (Some
           "Key elements of the sound design and music."))) ]
    else []))%list.

Definition formatDescription (isVideo : bool) : string :=
  "Set to " ++ dq ++ (if isVideo then "Short Video" else "Still Image") ++ dq.

Definition fullConceptsSchema (isVideo : bool) : Schema :=
  ARRAY (OBJECT
    [ ("optionName", Some (STRING None));
      ("conceptSummary", Some (STRING None));
      ("shootSetup", Some (STRING (Some
         (if isVideo then "Detailed scene description."
          else "Detailed shoot setup description."))));
      ("technicalSpecs", Some (OBJECT (technicalSpecsProps isVideo)
                                      (map fst (technicalSpecsProps isVideo))));
      ("stylingNotes", Some (STRING None));
      ("postProduction", Some (STRING None));
      ("hookLine", Some (STRING None));
      ("adCopy", Some (STRING None));
      ("cta", Some (STRING None));
      ("trendReasoning", Some (STRING None));
      ("format", Some (STRING (Some (formatDescription isVideo))));
      ("videoDuration",
        if isVideo
        then Some (STRING (Some
               ("The total duration of the video, e.g., " ++ dq ++ "8 seconds" ++ dq ++ ".")))
        else None) ]
    [ "optionName"; "conceptSummary"; "shootSetup"; "technicalSpecs"; "stylingNotes";
      "postProduction"; "hookLine"; "adCopy"; "cta"; "trendReasoning"; "format" ]).

Definition generateFullConcepts (imagePart : GenerativePart) (ctaDetails : CtaDetails)
  (brandGuidelines userConcept : string) (selectedIdeas : list Value)
  (advertType : AdvertType) (selectedStyle : Value) : Async Value :=
  let isVideo := match advertType with video => true | still => false end in
  let format := if isVideo then "short 8-10 second video" else "still image" in
  let budget :=
    if isVideo then "$300,000 video commercial" else "high-end commercial photoshoot" in
  styleTitle <- sync (prop selectedStyle "title") ;;
  styleSummary <- sync (prop selectedStyle "summary") ;;
  title0 <- sync (prop (nth 0 selectedIdeas JUndefined) "title") ;;
  summary0 <- sync (prop (nth 0 selectedIdeas JUndefined) "summary") ;;
  title1 <- sync (prop (nth 1 selectedIdeas JUndefined) "title") ;;
  summary1 <- sync (prop (nth 1 selectedIdeas JUndefined) "summary") ;;
  response <- generateContent
    {| model := "gemini-2.5-flash";
       prompt := fullConceptsPrompt format budget (ToString styleTitle)
                   (ToString styleSummary) ctaDetails brandGuidelines
                   (ToString title0) (ToString summary0)
                   (ToString title1) (ToString summary1);
       image := Some imagePart;
       responseMimeType := Some "application/json";
       responseSchema := Some (fullConceptsSchema isVideo) |} ;;
  parse_response "full concepts" response.

(** *** Step 4: enhanced styling notes (plain text, no schema) *)

Definition enhanceStylingPrompt (concept : Value) : string :=
  "You are a professional photoshoot stylist. " ++
  "The user is refining an ad concept and wants to enhance the styling notes. " ++
  "Analyze the provided ad concept and expand upon the existing " ++ dq ++
  "Styling Notes" ++ dq ++
  " by suggesting 2-3 more specific, creative, and actionable prop or wardrobe items that would elevate the final shot and enhance the overall mood. " ++
  "Return ONLY the updated, complete text for the " ++ dq ++ "Styling Notes" ++ dq ++
  " field as a single string." ++ nl ++ nl ++ "    CURRENT AD CONCEPT:" ++ nl ++
  "    " ++ JSON_stringify_2 concept ++ nl ++ "    ".

Definition enhanceStylingNotes (concept : Value) : Async string :=
  response <- generateContent
    {| model := "gemini-2.5-flash";
       prompt := enhanceStylingPrompt concept;
       image := None;
       responseMimeType := None;
       responseSchema := None |} ;;
  match text response with
  | Some t => Return (trim t)
  | None => Fail (cannot_read JUndefined "trim")
  end.

(** *** Step 5: hooks and CTAs to choose from *)

Definition hooksAndCtasPrompt (language name0 summary0 name1 summary1 : string)
  (ctaDetails : CtaDetails) : string :=
  "You are a direct-response copywriting expert specializing in high-CTR ad copy. " ++
  "The user has two finalized ad concepts and needs a selection of punchy hooks and high-impact CTAs written in " ++
  language ++ "." ++ nl ++ nl ++ "    USER'S AD CONCEPTS:" ++ nl ++ "    1. " ++ name0 ++
  ": " ++ summary0 ++ nl ++ "    2. " ++ name1 ++ ": " ++ summary1 ++ nl ++ nl ++
  "    USER'S CTA DETAILS:" ++ nl ++ "    - Website URL: " ++
  or_text (url ctaDetails) "Not provided" ++ nl ++ "    - WhatsApp Number: " ++
  or_text (whatsapp ctaDetails) "Not provided" ++ nl ++ nl ++ "    TASK:" ++ nl ++
  "    1. " ++
  "Generate a list of 5 unique, punchy, and attention-grabbing HOOK lines in " ++
  language ++ ". These should be versatile enough to work for either concept." ++ nl ++
  "    2. " ++
  "Generate a list of 5 unique, high-impact, and persuasive CALL TO ACTION (CTA) one-liners in " ++
  language ++
  ". These CTAs MUST intelligently incorporate the provided Website URL and/or WhatsApp number. " ++
  "If both are provided, create CTAs that leverage them together (e.g., " ++ dq ++
  "Shop now at our website or message us on WhatsApp!" ++ dq ++ "). " ++
  "If only one is provided, use it directly." ++ nl ++ nl ++
  "    Output the result in a JSON object.".

Definition hooksAndCtasSchema : Schema :=
  OBJECT [ ("hooks", Some (ARRAY (STRING None)));
           ("ctas", Some (ARRAY (STRING None))) ]
         [ "hooks"; "ctas" ].

Definition generateHooksAndCtas (imagePart : GenerativePart) (concepts : Value)
  (ctaDetails : CtaDetails) (language : string) : Async Value :=
  concept0 <- sync (at_index concepts 0) ;;
  name0 <- sync (prop concept0 "optionName") ;;
  summary0 <- sync (prop concept0 "conceptSummary") ;;
  concept1 <- sync (at_index concepts 1) ;;
  name1 <- sync (prop concept1 "optionName") ;;
  summary1 <- sync (prop concept1 "conceptSummary") ;;
  response <- generateContent
    {| model := "gemini-2.5-flash";
       prompt := hooksAndCtasPrompt language (ToString name0) (ToString summary0)
                   (ToString name1) (ToString summary1) ctaDetails;
       image := Some imagePart;
       responseMimeType := Some "application/json";
       responseSchema := Some hooksAndCtasSchema |} ;;
  parse_response "hooks and CTAs" response.

(** *** Step 6: the terminal stage, image prompts or video scripts *)

(** [priceTag || 'Not provided'] and [${priceTag}] for the optional tag. *)
Definition priceTagText (priceTag : option string) : string :=
  match priceTag with
  | Some t => t
  | None => "undefined"
  end.

Definition imagePromptsPrompt (concept0 concept1 : Value) (priceTag : option string)
  (hook0 hook1 cta0 cta1 : string) : string :=
  "You are an expert prompt engineer for photorealistic image generation models like 'gemini-2.5-flash-image'. " ++
  "Your task is to convert two detailed ad concepts into two final, high-quality image generation prompts." ++
  nl ++ nl ++ "    AD CONCEPTS:" ++ nl ++ "    1. " ++ "Concept: " ++
  JSON_stringify_2 concept0 ++ nl ++ "    2. " ++ "Concept: " ++
  JSON_stringify_2 concept1 ++ nl ++ "    " ++ nl ++ "    OPTIONAL PRICE TAG: " ++ dq ++
  or_text priceTag "Not provided" ++ dq ++ nl ++ nl ++
  "    For EACH of the two concepts, create a JSON object with:" ++ nl ++ "    1.  " ++
  "**conceptName**: The original name of the concept." ++ nl ++ "    2.  " ++
  "**prompt**: A single, detailed paragraph. " ++
  "Synthesize ALL details from the concept (shoot setup, styling, mood, technical specs like camera/lens type) into a rich, descriptive prompt. " ++
  "The prompt MUST generate a high-end, cinematic, professional commercial photograph." ++
  nl ++ "    3.  " ++
  "**Crucially, the prompt MUST include instructions to render the following text elements stylishly onto the image:**" ++
  nl ++ "        - The hook line: " ++ dq ++ hook0 ++ dq ++
  " (for the first prompt) and " ++ dq ++ hook1 ++ dq ++ " (for the second)." ++ nl ++
  "        - The CTA: " ++ dq ++ cta0 ++ dq ++ " (for the first prompt) and " ++ dq ++
  cta1 ++ dq ++ " (for the second)." ++ nl ++
  "        - **Placement**: The text should be placed elegantly at the top or bottom." ++
  nl ++ "    4.  " ++
  "**If a price tag is provided**, the prompt MUST also include instructions to add a visually appealing price tag sticker with the text " ++
  dq ++ priceTagText priceTag ++ dq ++
  " in the top-right corner of the image, matching the overall ad aesthetic." ++ nl ++
  "    5. " ++ "**cta**: The original CTA string for the concept." ++ nl ++ nl ++
  "    Output a JSON array containing exactly TWO of these objects.".

Definition imagePromptsSchema : Schema :=
  ARRAY (OBJECT [ ("conceptName", Some (STRING None));
                  ("prompt", Some (STRING None));
                  ("cta", Some (STRING None)) ]
                [ "conceptName"; "prompt"; "cta" ]).

Definition generateImagePrompts (imagePart : GenerativePart) (concepts : Value)
  (priceTag : option string) : Async Value :=
  concept0 <- sync (at_index concepts 0) ;;
  concept1 <- sync (at_index concepts 1) ;;
  hook0 <- sync (prop concept0 "hookLine") ;;
  hook1 <- sync (prop concept1 "hookLine") ;;
  cta0 <- sync (prop concept0 "cta") ;;
  cta1 <- sync (prop concept1 "cta") ;;
  response <- generateContent
    {| model := "gemini-2.5-pro";
       prompt := imagePromptsPrompt concept0 concept1 priceTag
                   (ToString hook0) (ToString hook1) (ToString cta0) (ToString cta1);
       image := Some imagePart;
       responseMimeType := Some "application/json";
       responseSchema := Some imagePromptsSchema |} ;;
  parse_response "image prompts" response.

Definition videoScriptsPrompt (concept0 concept1 : Value) : string :=
  "You are a world-class director and scriptwriter for a creative agency specializing in high-budget ($300,000) commercials. " ++
  "Your task is to convert two detailed video ad concepts into two professional, timestamped shooting scripts." ++
  nl ++ nl ++ "    AD CONCEPTS:" ++ nl ++ "    1. " ++ "Concept: " ++
  JSON_stringify_2 concept0 ++ nl ++ "    2. " ++ "Concept: " ++
  JSON_stringify_2 concept1 ++ nl ++ nl ++
  "    For EACH of the two concepts, create a JSON object containing:" ++ nl ++
  "    1.  " ++ "**conceptName**: The original name of the concept." ++ nl ++
  "    2.  " ++ "**shots**: An array of shot objects. " ++
  "Each shot must have a timestamp (e.g., " ++ dq ++ "0:00-0:02" ++ dq ++
  ") and detailed descriptions for 'camera', 'audio', 'narration', and 'graphics'." ++
  nl ++ "    3.  " ++
  "**The script must be cinematic, professional, and reflect the high budget.** Use professional terminology (e.g., " ++
  dq ++ "ARRI Alexa Mini with anamorphic lenses" ++ dq ++ ", " ++ dq ++
  "dynamic dolly push-in" ++ dq ++ ", " ++ dq ++ "foley sound design" ++ dq ++ ")." ++
  nl ++ "    4.  " ++
  "**Crucially, the final 2-3 seconds of the script MUST be an 'end card' shot.** The 'graphics' description for this final shot must explicitly include the hook line and the CTA from the concept." ++
  nl ++ "    5. " ++ "**cta**: The original CTA string for the concept." ++ nl ++ nl ++
  "    Output a JSON array containing exactly TWO of these video script objects.".

Definition shotSchema : Schema :=
  OBJECT [ ("timestamp", Some (STRING None));
           ("camera", Some (STRING None));
           ("audio", Some (STRING None));
           ("narration", Some (STRING None));
           ("graphics", Some (STRING None)) ]
         [ "timestamp"; "camera"; "audio"; "narration"; "graphics" ].

Definition videoScriptsSchema : Schema :=
  ARRAY (OBJECT [ ("conceptName", Some (STRING None));
                  ("shots", Some (ARRAY shotSchema));
                  ("cta", Some (STRING None)) ]
                [ "conceptName"; "shots"; "cta" ]).

Definition generateVideoScripts (imagePart : GenerativePart) (concepts : Value)
  : Async Value :=
  concept0 <- sync (at_index concepts 0) ;;
  concept1 <- sync (at_index concepts 1) ;;
  response <- generateContent
    {| model := "gemini-2.5-pro";
       prompt := videoScriptsPrompt concept0 concept1;
       image := Some imagePart;
       responseMimeType := Some "application/json";
       responseSchema := Some videoScriptsSchema |} ;;
  parse_response "video scripts" response.

(** *** The stages as one interface *)

(** A call of one of the stages that answer in JSON, with its arguments. *)
Inductive StageCall : Type :=
| AdvertStyles (imagePart : GenerativePart) (advertType : AdvertType)
| ConceptIdeas (imagePart : GenerativePart) (ctaDetails : CtaDetails)
    (brandGuidelines userConcept : string) (selectedStyle : Value)
    (advertType : AdvertType)
| FullConcepts (imagePart : GenerativePart) (ctaDetails : CtaDetails)
    (brandGuidelines userConcept : string) (selectedIdeas : list Value)
    (advertType : AdvertType) (selectedStyle : Value)
| HooksAndCtas (imagePart : GenerativePart) (concepts : Value)
    (ctaDetails : CtaDetails) (language : string)
| ImagePrompts (imagePart : GenerativePart) (concepts : Value)
    (priceTag : option string)
| VideoScripts (imagePart : GenerativePart) (concepts : Value).

Definition invoke (c : StageCall) : Async Value :=
  match c with
  | AdvertStyles imagePart advertType => generateAdvertStyles imagePart advertType
  | ConceptIdeas imagePart ctaDetails brandGuidelines userConcept selectedStyle advertType =>
      generateConceptIdeas imagePart ctaDetails brandGuidelines userConcept
        selectedStyle advertType
  | FullConcepts imagePart ctaDetails brandGuidelines userConcept selectedIdeas
      advertType selectedStyle =>
      generateFullConcepts imagePart ctaDetails brandGuidelines userConcept
        selectedIdeas advertType selectedStyle
  | HooksAndCtas imagePart concepts ctaDetails language =>
      generateHooksAndCtas imagePart concepts ctaDetails language
  | ImagePrompts imagePart concepts priceTag =>
      generateImagePrompts imagePart concepts priceTag
  | VideoScripts imagePart concepts => generateVideoScripts imagePart concepts
  end.

(** How each stage names itself in its invalid-response error. *)
Definition subject (c : StageCall) : string :=
  match c with
  | AdvertStyles _ _ => "advert styles"
  | ConceptIdeas _ _ _ _ _ _ => "concept ideas"
  | FullConcepts _ _ _ _ _ _ _ => "full concepts"
  | HooksAndCtas _ _ _ _ => "hooks and CTAs"
  | ImagePrompts _ _ _ => "image prompts"
  | VideoScripts _ _ => "video scripts"
  end.

(** The schema each stage sends along as [responseSchema]. *)
Definition schemaOf (c : StageCall) : Schema :=
  match c with
  | AdvertStyles _ _ => title_summary_schema None None
  | ConceptIdeas _ _ _ _ _ advertType =>
      title_summary_schema
        (Some "A short, catchy, and descriptive title for the concept idea.")
        (Some (ideaSummaryDescription (format_of advertType)))
  | FullConcepts _ _ _ _ _ advertType _ =>
      fullConceptsSchema (match advertType with video => true | still => false end)
  | HooksAndCtas _ _ _ _ => hooksAndCtasSchema
  | ImagePrompts _ _ _ => imagePromptsSchema
  | VideoScripts _ _ => videoScriptsSchema
  end.

(** The image part each stage is called with, and the model it asks. *)
Definition imagePartOf (c : StageCall) : GenerativePart :=
  match c with
  | AdvertStyles imagePart _
  | ConceptIdeas imagePart _ _ _ _ _
  | FullConcepts imagePart _ _ _ _ _ _
  | HooksAndCtas imagePart _ _ _
  | ImagePrompts imagePart _ _
  | VideoScripts imagePart _ => imagePart
  end.

Definition modelOf (c : StageCall) : string :=
  match c with
  | ImagePrompts _ _ _ | VideoScripts _ _ => "gemini-2.5-pro"
  | _ => "gemini-2.5-flash"
  end.

(** What the text of a response parses to, if it does. *)
Definition parsed (response : Response) : option Value :=
  match text response with
  | Some t => JSON_parse (trim t)
  | None => None
  end.

End GeminiService.

(** ** components/ConceptEditor: the fields it lets the user edit *)
Module ConceptEditor.
Import JS.

(** The [fieldName] of every [EditableField] the editor renders; the last
    three only for a concept whose format is Short Video. *)
Definition fieldNames (isVideo : bool) : list string :=
  ([ "conceptSummary"; "adCopy"; "shootSetup"; "stylingNotes"; "postProduction";
     "trendReasoning"; "technicalSpecs.mood"; "technicalSpecs.camera";
     "technicalSpecs.lenses"; "technicalSpecs.angles"; "technicalSpecs.specs" ]
   ++ (if isVideo
       then [ "technicalSpecs.cameraMovement"; "technicalSpecs.editingStyle";
              "technicalSpecs.soundDesign" ]
       else []))%list.

Definition isVideo (concept : Value) : bool :=
  match own concept "format" with
  | JString f => String.eqb f "Short Video"
  | _ => false
  end.

(** An [EditableField] as the editor renders it: the props it is given,
    and for the one field that has a child (the Enhance button) whether
    that button is disabled. *)
Record EditableField : Type := {
  label : string;
  fieldName : string;
  value : Value;
  rows : nat;
  enhanceDisabled : option bool
}.

Definition plainField (label fieldName : string) (value : Value) : EditableField :=
  {| label := label; fieldName := fieldName; value := value; rows := 3;
     enhanceDisabled := None |}.

(** The fields of the editor in the order of the markup (styling left out).
    Reading [concept.format] throws on a concept that is null or undefined,
    and [concept.technicalSpecs.mood] on technical specs that are. *)
Definition render (concept : Value) (isEnhancingStyling : bool)
  : Result (list EditableField) :=
  bind (prop concept "format") (fun _ =>
  let isVideo := isVideo concept in
  let technicalSpecs := own concept "technicalSpecs" in
  bind (prop technicalSpecs "mood") (fun mood =>
  Ok ([ plainField "Concept Summary" "conceptSummary" (own concept "conceptSummary");
        {| label := "Ad Copy"; fieldName := "adCopy"; value := own concept "adCopy";
           rows := 4; enhanceDisabled := None |};
        plainField (if isVideo then "Scene Description" else "Shoot Setup Details")
          "shootSetup" (own concept "shootSetup");
        {| label := "Styling Notes"; fieldName := "stylingNotes";
           value := own concept "stylingNotes"; rows := 3;
           enhanceDisabled := Some isEnhancingStyling |};
        plainField "Post-Production Notes" "postProduction" (own concept "postProduction");
        plainField "Trend Reasoning" "trendReasoning" (own concept "trendReasoning");
        plainField "Mood / Effect" "technicalSpecs.mood" mood;
        plainField "Camera" "technicalSpecs.camera" (own technicalSpecs "camera");
        plainField (if isVideo then "Lens Style" else "Lenses")
          "technicalSpecs.lenses" (own technicalSpecs "lenses");
        plainField (if isVideo then "Key Shots / Angles" else "Angles")
          "technicalSpecs.angles" (own technicalSpecs "angles");
        plainField (if isVideo then "Resolution / Framerate" else "Image Specs")
          "technicalSpecs.specs" (own technicalSpecs "specs") ]
      ++ (if isVideo
          then [ plainField "Camera Movement" "technicalSpecs.cameraMovement"
                   (or_else (own technicalSpecs "cameraMovement") (JString EmptyString));
                 plainField "Editing Style" "technicalSpecs.editingStyle"
                   (or_else (own technicalSpecs "editingStyle") (JString EmptyString));
                 plainField "Sound Design" "technicalSpecs.soundDesign"
                   (or_else (own technicalSpecs "soundDesign") (JString EmptyString)) ]
          else []))%list)).

End ConceptEditor.

(** ** components/HookAndCtaSelector: the copy the user picks *)
Module HookAndCtaSelector.
Import JS.

(** The component's two records, keyed by option name. *)
Record Selection : Type := {
  selectedHooks : Members;
  selectedCtas : Members
}.

(** The two [useState] initialisers, evaluated when the selector mounts:
    the first two offered hooks and CTAs, or the concept's own copy. *)
Definition initialSelection (concepts hooksAndCtas : Value) : Result Selection :=
  bind (at_index concepts 0) (fun c0 =>
  bind (prop c0 "optionName") (fun name0 =>
  bind (prop hooksAndCtas "hooks") (fun hooks =>
  bind (at_index hooks 0) (fun offered0 =>
  bind (prop c0 "hookLine") (fun own0 =>
  bind (at_index concepts 1) (fun c1 =>
  bind (prop c1 "optionName") (fun name1 =>
  bind (at_index hooks 1) (fun offered1 =>
  bind (prop c1 "hookLine") (fun own1 =>
  bind (prop hooksAndCtas "ctas") (fun ctas =>
  bind (at_index ctas 0) (fun offeredCta0 =>
  bind (prop c0 "cta") (fun ownCta0 =>
  bind (at_index ctas 1) (fun offeredCta1 =>
  bind (prop c1 "cta") (fun ownCta1 =>
  Ok {| selectedHooks :=
          define_own (ToPropertyKey name1) (or_else offered1 own1)
            (define_own (ToPropertyKey name0) (or_else offered0 own0) []);
        selectedCtas :=
          define_own (ToPropertyKey name1) (or_else offeredCta1 ownCta1)
            (define_own (ToPropertyKey name0) (or_else offeredCta0 ownCta0) []) |}
  )))))))))))))).

(** A change of one of the select boxes: the index of the concept it is
    rendered for, and the chosen option's text. *)
Inductive Choice : Type :=
| ChooseHook (index : nat) (value : string)
| ChooseCta (index : nat) (value : string).

(** [setSelectedHooks(prev => ({...prev, [concept.optionName]: value}))], and
    the same for the CTAs; there is a select box for each concept rendered. *)
Definition choose (concepts : Value) (sel : Selection) (c : Choice) : Selection :=
  match c with
  | ChooseHook index value =>
      let concept := item concepts index in
      if nullish concept then sel
      else
        {| selectedHooks :=
             define_own (ToPropertyKey (own concept "optionName")) (JString value)
               (selectedHooks sel);
           selectedCtas := selectedCtas sel |}
  | ChooseCta index value =>
      let concept := item concepts index in
      if nullish concept then sel
      else
        {| selectedHooks := selectedHooks sel;
           selectedCtas :=
             define_own (ToPropertyKey (own concept "optionName")) (JString value)
               (selectedCtas sel) |}
  end.

(** The key a concept's copy is filed under: [concept.optionName] as a
    property key. *)
Definition key_of (concept : Value) : string :=
  ToPropertyKey (own concept "optionName").

(** The callback of [concepts.map] in [handleConfirm]: the concept's own
    members, with [hookLine] and [cta] set to the selected copy. *)
Definition withSelectedCopy (sel : Selection) (concept : Value) : Outcome Value :=
  obind (lift (prop concept "optionName")) (fun name =>
  obind (read_member (selectedHooks sel) (ToPropertyKey name)) (fun hook =>
  obind (read_member (selectedCtas sel) (ToPropertyKey name)) (fun cta =>
  Done (JObject (define_own "cta" cta (define_own "hookLine" hook (spread concept))))))).

Fixpoint map_outcome {A B : Type} (f : A -> Outcome B) (xs : list A) : Outcome (list B) :=
  match xs with
  | [] => Done []
  | x :: rest =>
      obind (f x) (fun y => obind (map_outcome f rest) (fun ys => Done (y :: ys)))
  end.

(** [handleConfirm]: nothing while loading; else the concepts handed to
    [onConfirm]. *)
Definition handleConfirm (isLoading : bool) (concepts : Value) (sel : Selection)
  : Outcome (option Value) :=
  if isLoading then Done None
  else
    match concepts with
    | JArray items =>
        obind (map_outcome (withSelectedCopy sel) items) (fun final =>
        Done (Some (JArray final)))
    | JUndefined | JNull => Raised (cannot_read concepts "map")
    | _ => Raised (ErrorObject "concepts.map is not a function")
    end.

End HookAndCtaSelector.

(** ** App: the workflow state and its handlers *)
Module App.
Import JS Host GeminiService.

Inductive Stage : Type :=
| initial
| imageUploaded
| advertTypeSelected
| generatingStyles
| stylesGenerated
| generatingIdeas
| ideasGenerated
| generatingFullConcepts
| reviewingConcepts
| generatingHooksAndCtasForSelection
| selectingHooksAndCtas
| generatingFinalOutputs
| finalOutputsGenerated.

(** The component's state: one field per [useState]. What the provider
    returned is kept as parsed. *)
Record State : Type := {
  stage : Stage;
  imageFile : option File;
  imageUrl : option string;
  advertType : option AdvertType;
  ctaUrl : string;
  ctaWhatsApp : string;
  priceTag : string;
  brandGuidelines : string;
  userConcept : string;
  copyLanguage : string;
  advertStyles : Value;
  selectedStyle : Value;
  conceptIdeas : Value;
  adConcepts : Value;
  editableConcepts : Value;
  reviewIndex : nat;
  hooksAndCtasForSelection : Value;
  imageGenPrompts : Value;
  videoScripts : Value;
  error : option string;
  isEnhancingStyling : bool
}.

(** The state the component mounts with. *)
Definition initialState : State :=
  {| stage := initial;
     imageFile := None;
     imageUrl := None;
     advertType := None;
     ctaUrl := EmptyString;
     ctaWhatsApp := EmptyString;
     priceTag := EmptyString;
     brandGuidelines := EmptyString;
     userConcept := EmptyString;
     copyLanguage := "English";
     advertStyles := JArray [];
     selectedStyle := JNull;
     conceptIdeas := JArray [];
     adConcepts := JArray [];
     editableConcepts := JArray [];
     reviewIndex := 0;
     hooksAndCtasForSelection := JNull;
     imageGenPrompts := JNull;
     videoScripts := JNull;
     error := None;
     isEnhancingStyling := false |}.

(** The state setters. *)
Definition setStage (x : Stage) (s : State) : State :=
  {| stage := x;
     imageFile := imageFile s;
     imageUrl := imageUrl s;
     advertType := advertType s;
     ctaUrl := ctaUrl s;
     ctaWhatsApp := ctaWhatsApp s;
     priceTag := priceTag s;
     brandGuidelines := brandGuidelines s;
     userConcept := userConcept s;
     copyLanguage := copyLanguage s;
     advertStyles := advertStyles s;
     selectedStyle := selectedStyle s;
     conceptIdeas := conceptIdeas s;
     adConcepts := adConcepts s;
     editableConcepts := editableConcepts s;
     reviewIndex := reviewIndex s;
     hooksAndCtasForSelection := hooksAndCtasForSelection s;
     imageGenPrompts := imageGenPrompts s;
     videoScripts := videoScripts s;
     error := error s;
     isEnhancingStyling := isEnhancingStyling s |}.

Definition setImageFile (x : option File) (s : State) : State :=
  {| stage := stage s;
     imageFile := x;
     imageUrl := imageUrl s;
     advertType := advertType s;
     ctaUrl := ctaUrl s;
     ctaWhatsApp := ctaWhatsApp s;
     priceTag := priceTag s;
     brandGuidelines := brandGuidelines s;
     userConcept := userConcept s;
     copyLanguage := copyLanguage s;
     advertStyles := advertStyles s;
     selectedStyle := selectedStyle s;
     conceptIdeas := conceptIdeas s;
     adConcepts := adConcepts s;
     editableConcepts := editableConcepts s;
     reviewIndex := reviewIndex s;
     hooksAndCtasForSelection := hooksAndCtasForSelection s;
     imageGenPrompts := imageGenPrompts s;
     videoScripts := videoScripts s;
     error := error s;
     isEnhancingStyling := isEnhancingStyling s |}.

Definition setImageUrl (x : option string) (s : State) : State :=
  {| stage := stage s;
     imageFile := imageFile s;
     imageUrl := x;
     advertType := advertType s;
     ctaUrl := ctaUrl s;
     ctaWhatsApp := ctaWhatsApp s;
     priceTag := priceTag s;
     brandGuidelines := brandGuidelines s;
     userConcept := userConcept s;
     copyLanguage := copyLanguage s;
     advertStyles := advertStyles s;
     selectedStyle := selectedStyle s;
     conceptIdeas := conceptIdeas s;
     adConcepts := adConcepts s;
     editableConcepts := editableConcepts s;
     reviewIndex := reviewIndex s;
     hooksAndCtasForSelection := hooksAndCtasForSelection s;
     imageGenPrompts := imageGenPrompts s;
     videoScripts := videoScripts s;
     error := error s;
     isEnhancingStyling := isEnhancingStyling s |}.

Definition setAdvertType (x : option AdvertType) (s : State) : State :=
  {| stage := stage s;
     imageFile := imageFile s;
     imageUrl := imageUrl s;
     advertType := x;
     ctaUrl := ctaUrl s;
     ctaWhatsApp := ctaWhatsApp s;
     priceTag := priceTag s;
     brandGuidelines := brandGuidelines s;
     userConcept := userConcept s;
     copyLanguage := copyLanguage s;
     advertStyles := advertStyles s;
     selectedStyle := selectedStyle s;
     conceptIdeas := conceptIdeas s;
     adConcepts := adConcepts s;
     editableConcepts := editableConcepts s;
     reviewIndex := reviewIndex s;
     hooksAndCtasForSelection := hooksAndCtasForSelection s;
     imageGenPrompts := imageGenPrompts s;
     videoScripts := videoScripts s;
     error := error s;
     isEnhancingStyling := isEnhancingStyling s |}.

Definition setCtaUrl (x : string) (s : State) : State :=
  {| stage := stage s;
     imageFile := imageFile s;
     imageUrl := imageUrl s;
     advertType := advertType s;
     ctaUrl := x;
     ctaWhatsApp := ctaWhatsApp s;
     priceTag := priceTag s;
     brandGuidelines := brandGuidelines s;
     userConcept := userConcept s;
     copyLanguage := copyLanguage s;
     advertStyles := advertStyles s;
     selectedStyle := selectedStyle s;
     conceptIdeas := conceptIdeas s;
     adConcepts := adConcepts s;
     editableConcepts := editableConcepts s;
     reviewIndex := reviewIndex s;
     hooksAndCtasForSelection := hooksAndCtasForSelection s;
     imageGenPrompts := imageGenPrompts s;
     videoScripts := videoScripts s;
     error := error s;
     isEnhancingStyling := isEnhancingStyling s |}.

Definition setCtaWhatsApp (x : string) (s : State) : State :=
  {| stage := stage s;
     imageFile := imageFile s;
     imageUrl := imageUrl s;
     advertType := advertType s;
     ctaUrl := ctaUrl s;
     ctaWhatsApp := x;
     priceTag := priceTag s;
     brandGuidelines := brandGuidelines s;
     userConcept := userConcept s;
     copyLanguage := copyLanguage s;
     advertStyles := advertStyles s;
     selectedStyle := selectedStyle s;
     conceptIdeas := conceptIdeas s;
     adConcepts := adConcepts s;
     editableConcepts := editableConcepts s;
     reviewIndex := reviewIndex s;
     hooksAndCtasForSelection := hooksAndCtasForSelection s;
     imageGenPrompts := imageGenPrompts s;
     videoScripts := videoScripts s;
     error := error s;
     isEnhancingStyling := isEnhancingStyling s |}.

Definition setPriceTag (x : string) (s : State) : State :=
  {| stage := stage s;
     imageFile := imageFile s;
     imageUrl := imageUrl s;
     advertType := advertType s;
     ctaUrl := ctaUrl s;
     ctaWhatsApp := ctaWhatsApp s;
     priceTag := x;
     brandGuidelines := brandGuidelines s;
     userConcept := userConcept s;
     copyLanguage := copyLanguage s;
     advertStyles := advertStyles s;
     selectedStyle := selectedStyle s;
     conceptIdeas := conceptIdeas s;
     adConcepts := adConcepts s;
     editableConcepts := editableConcepts s;
     reviewIndex := reviewIndex s;
     hooksAndCtasForSelection := hooksAndCtasForSelection s;
     imageGenPrompts := imageGenPrompts s;
     videoScripts := videoScripts s;
     error := error s;
     isEnhancingStyling := isEnhancingStyling s |}.

Definition setBrandGuidelines (x : string) (s : State) : State :=
  {| stage := stage s;
     imageFile := imageFile s;
     imageUrl := imageUrl s;
     advertType := advertType s;
     ctaUrl := ctaUrl s;
     ctaWhatsApp := ctaWhatsApp s;
     priceTag := priceTag s;
     brandGuidelines := x;
     userConcept := userConcept s;
     copyLanguage := copyLanguage s;
     advertStyles := advertStyles s;
     selectedStyle := selectedStyle s;
     conceptIdeas := conceptIdeas s;
     adConcepts := adConcepts s;
     editableConcepts := editableConcepts s;
     reviewIndex := reviewIndex s;
     hooksAndCtasForSelection := hooksAndCtasForSelection s;
     imageGenPrompts := imageGenPrompts s;
     videoScripts := videoScripts s;
     error := error s;
     isEnhancingStyling := isEnhancingStyling s |}.

Definition setUserConcept (x : string) (s : State) : State :=
  {| stage := stage s;
     imageFile := imageFile s;
     imageUrl := imageUrl s;
     advertType := advertType s;
     ctaUrl := ctaUrl s;
     ctaWhatsApp := ctaWhatsApp s;
     priceTag := priceTag s;
     brandGuidelines := brandGuidelines s;
     userConcept := x;
     copyLanguage := copyLanguage s;
     advertStyles := advertStyles s;
     selectedStyle := selectedStyle s;
     conceptIdeas := conceptIdeas s;
     adConcepts := adConcepts s;
     editableConcepts := editableConcepts s;
     reviewIndex := reviewIndex s;
     hooksAndCtasForSelection := hooksAndCtasForSelection s;
     imageGenPrompts := imageGenPrompts s;
     videoScripts := videoScripts s;
     error := error s;
     isEnhancingStyling := isEnhancingStyling s |}.

Definition setCopyLanguage (x : string) (s : State) : State :=
  {| stage := stage s;
     imageFile := imageFile s;
     imageUrl := imageUrl s;
     advertType := advertType s;
     ctaUrl := ctaUrl s;
     ctaWhatsApp := ctaWhatsApp s;
     priceTag := priceTag s;
     brandGuidelines := brandGuidelines s;
     userConcept := userConcept s;
     copyLanguage := x;
     advertStyles := advertStyles s;
     selectedStyle := selectedStyle s;
     conceptIdeas := conceptIdeas s;
     adConcepts := adConcepts s;
     editableConcepts := editableConcepts s;
     reviewIndex := reviewIndex s;
     hooksAndCtasForSelection := hooksAndCtasForSelection s;
     imageGenPrompts := imageGenPrompts s;
     videoScripts := videoScripts s;
     error := error s;
     isEnhancingStyling := isEnhancingStyling s |}.

Definition setAdvertStyles (x : Value) (s : State) : State :=
  {| stage := stage s;
     imageFile := imageFile s;
     imageUrl := imageUrl s;
     advertType := advertType s;
     ctaUrl := ctaUrl s;
     ctaWhatsApp := ctaWhatsApp s;
     priceTag := priceTag s;
     brandGuidelines := brandGuidelines s;
     userConcept := userConcept s;
     copyLanguage := copyLanguage s;
     advertStyles := x;
     selectedStyle := selectedStyle s;
     conceptIdeas := conceptIdeas s;
     adConcepts := adConcepts s;
     editableConcepts := editableConcepts s;
     reviewIndex := reviewIndex s;
     hooksAndCtasForSelection := hooksAndCtasForSelection s;
     imageGenPrompts := imageGenPrompts s;
     videoScripts := videoScripts s;
     error := error s;
     isEnhancingStyling := isEnhancingStyling s |}.

Definition setSelectedStyle (x : Value) (s : State) : State :=
  {| stage := stage s;
     imageFile := imageFile s;
     imageUrl := imageUrl s;
     advertType := advertType s;
     ctaUrl := ctaUrl s;
     ctaWhatsApp := ctaWhatsApp s;
     priceTag := priceTag s;
     brandGuidelines := brandGuidelines s;
     userConcept := userConcept s;
     copyLanguage := copyLanguage s;
     advertStyles := advertStyles s;
     selectedStyle := x;
     conceptIdeas := conceptIdeas s;
     adConcepts := adConcepts s;
     editableConcepts := editableConcepts s;
     reviewIndex := reviewIndex s;
     hooksAndCtasForSelection := hooksAndCtasForSelection s;
     imageGenPrompts := imageGenPrompts s;
     videoScripts := videoScripts s;
     error := error s;
     isEnhancingStyling := isEnhancingStyling s |}.

Definition setConceptIdeas (x : Value) (s : State) : State :=
  {| stage := stage s;
     imageFile := imageFile s;
     imageUrl := imageUrl s;
     advertType := advertType s;
     ctaUrl := ctaUrl s;
     ctaWhatsApp := ctaWhatsApp s;
     priceTag := priceTag s;
     brandGuidelines := brandGuidelines s;
     userConcept := userConcept s;
     copyLanguage := copyLanguage s;
     advertStyles := advertStyles s;
     selectedStyle := selectedStyle s;
     conceptIdeas := x;
     adConcepts := adConcepts s;
     editableConcepts := editableConcepts s;
     reviewIndex := reviewIndex s;
     hooksAndCtasForSelection := hooksAndCtasForSelection s;
     imageGenPrompts := imageGenPrompts s;
     videoScripts := videoScripts s;
     error := error s;
     isEnhancingStyling := isEnhancingStyling s |}.

Definition setAdConcepts (x : Value) (s : State) : State :=
  {| stage := stage s;
     imageFile := imageFile s;
     imageUrl := imageUrl s;
     advertType := advertType s;
     ctaUrl := ctaUrl s;
     ctaWhatsApp := ctaWhatsApp s;
     priceTag := priceTag s;
     brandGuidelines := brandGuidelines s;
     userConcept := userConcept s;
     copyLanguage := copyLanguage s;
     advertStyles := advertStyles s;
     selectedStyle := selectedStyle s;
     conceptIdeas := conceptIdeas s;
     adConcepts := x;
     editableConcepts := editableConcepts s;
     reviewIndex := reviewIndex s;
     hooksAndCtasForSelection := hooksAndCtasForSelection s;
     imageGenPrompts := imageGenPrompts s;
     videoScripts := videoScripts s;
     error := error s;
     isEnhancingStyling := isEnhancingStyling s |}.

Definition setEditableConcepts (x : Value) (s : State) : State :=
  {| stage := stage s;
     imageFile := imageFile s;
     imageUrl := imageUrl s;
     advertType := advertType s;
     ctaUrl := ctaUrl s;
     ctaWhatsApp := ctaWhatsApp s;
     priceTag := priceTag s;
     brandGuidelines := brandGuidelines s;
     userConcept := userConcept s;
     copyLanguage := copyLanguage s;
     advertStyles := advertStyles s;
     selectedStyle := selectedStyle s;
     conceptIdeas := conceptIdeas s;
     adConcepts := adConcepts s;
     editableConcepts := x;
     reviewIndex := reviewIndex s;
     hooksAndCtasForSelection := hooksAndCtasForSelection s;
     imageGenPrompts := imageGenPrompts s;
     videoScripts := videoScripts s;
     error := error s;
     isEnhancingStyling := isEnhancingStyling s |}.

Definition setReviewIndex (x : nat) (s : State) : State :=
  {| stage := stage s;
     imageFile := imageFile s;
     imageUrl := imageUrl s;
     advertType := advertType s;
     ctaUrl := ctaUrl s;
     ctaWhatsApp := ctaWhatsApp s;
     priceTag := priceTag s;
     brandGuidelines := brandGuidelines s;
     userConcept := userConcept s;
     copyLanguage := copyLanguage s;
     advertStyles := advertStyles s;
     selectedStyle := selectedStyle s;
     conceptIdeas := conceptIdeas s;
     adConcepts := adConcepts s;
     editableConcepts := editableConcepts s;
     reviewIndex := x;
     hooksAndCtasForSelection := hooksAndCtasForSelection s;
     imageGenPrompts := imageGenPrompts s;
     videoScripts := videoScripts s;
     error := error s;
     isEnhancingStyling := isEnhancingStyling s |}.

Definition setHooksAndCtasForSelection (x : Value) (s : State) : State :=
  {| stage := stage s;
     imageFile := imageFile s;
     imageUrl := imageUrl s;
     advertType := advertType s;
     ctaUrl := ctaUrl s;
     ctaWhatsApp := ctaWhatsApp s;
     priceTag := priceTag s;
     brandGuidelines := brandGuidelines s;
     userConcept := userConcept s;
     copyLanguage := copyLanguage s;
     advertStyles := advertStyles s;
     selectedStyle := selectedStyle s;
     conceptIdeas := conceptIdeas s;
     adConcepts := adConcepts s;
     editableConcepts := editableConcepts s;
     reviewIndex := reviewIndex s;
     hooksAndCtasForSelection := x;
     imageGenPrompts := imageGenPrompts s;
     videoScripts := videoScripts s;
     error := error s;
     isEnhancingStyling := isEnhancingStyling s |}.

Definition setImageGenPrompts (x : Value) (s : State) : State :=
  {| stage := stage s;
     imageFile := imageFile s;
     imageUrl := imageUrl s;
     advertType := advertType s;
     ctaUrl := ctaUrl s;
     ctaWhatsApp := ctaWhatsApp s;
     priceTag := priceTag s;
     brandGuidelines := brandGuidelines s;
     userConcept := userConcept s;
     copyLanguage := copyLanguage s;
     advertStyles := advertStyles s;
     selectedStyle := selectedStyle s;
     conceptIdeas := conceptIdeas s;
     adConcepts := adConcepts s;
     editableConcepts := editableConcepts s;
     reviewIndex := reviewIndex s;
     hooksAndCtasForSelection := hooksAndCtasForSelection s;
     imageGenPrompts := x;
     videoScripts := videoScripts s;
     error := error s;
     isEnhancingStyling := isEnhancingStyling s |}.

Definition setVideoScripts (x : Value) (s : State) : State :=
  {| stage := stage s;
     imageFile := imageFile s;
     imageUrl := imageUrl s;
     advertType := advertType s;
     ctaUrl := ctaUrl s;
     ctaWhatsApp := ctaWhatsApp s;
     priceTag := priceTag s;
     brandGuidelines := brandGuidelines s;
     userConcept := userConcept s;
     copyLanguage := copyLanguage s;
     advertStyles := advertStyles s;
     selectedStyle := selectedStyle s;
     conceptIdeas := conceptIdeas s;
     adConcepts := adConcepts s;
     editableConcepts := editableConcepts s;
     reviewIndex := reviewIndex s;
     hooksAndCtasForSelection := hooksAndCtasForSelection s;
     imageGenPrompts := imageGenPrompts s;
     videoScripts := x;
     error := error s;
     isEnhancingStyling := isEnhancingStyling s |}.

Definition setError (x : option string) (s : State) : State :=
  {| stage := stage s;
     imageFile := imageFile s;
     imageUrl := imageUrl s;
     advertType := advertType s;
     ctaUrl := ctaUrl s;
     ctaWhatsApp := ctaWhatsApp s;
     priceTag := priceTag s;
     brandGuidelines := brandGuidelines s;
     userConcept := userConcept s;
     copyLanguage := copyLanguage s;
     advertStyles := advertStyles s;
     selectedStyle := selectedStyle s;
     conceptIdeas := conceptIdeas s;
     adConcepts := adConcepts s;
     editableConcepts := editableConcepts s;
     reviewIndex := reviewIndex s;
     hooksAndCtasForSelection := hooksAndCtasForSelection s;
     imageGenPrompts := imageGenPrompts s;
     videoScripts := videoScripts s;
     error := x;
     isEnhancingStyling := isEnhancingStyling s |}.

Definition setIsEnhancingStyling (x : bool) (s : State) : State :=
  {| stage := stage s;
     imageFile := imageFile s;
     imageUrl := imageUrl s;
     advertType := advertType s;
     ctaUrl := ctaUrl s;
     ctaWhatsApp := ctaWhatsApp s;
     priceTag := priceTag s;
     brandGuidelines := brandGuidelines s;
     userConcept := userConcept s;
     copyLanguage := copyLanguage s;
     advertStyles := advertStyles s;
     selectedStyle := selectedStyle s;
     conceptIdeas := conceptIdeas s;
     adConcepts := adConcepts s;
     editableConcepts := editableConcepts s;
     reviewIndex := reviewIndex s;
     hooksAndCtasForSelection := hooksAndCtasForSelection s;
     imageGenPrompts := imageGenPrompts s;
     videoScripts := videoScripts s;
     error := error s;
     isEnhancingStyling := x |}.

(** What the user typed into the form. *)
Definition formInputs (s : State) : string * string * string * string * string * string :=
  (ctaUrl s, ctaWhatsApp s, priceTag s, brandGuidelines s, userConcept s, copyLanguage s).

(** [err instanceof Error ? `An error occurred: ${err.message}` : 'An unknown
    error occurred.'] *)
Definition describe (err : Thrown) : string :=
  match err with
  | ErrorObject message => "An error occurred: " ++ message
  | NotAnError => "An unknown error occurred."
  end.

Definition ctaDetailsOf (s : State) : CtaDetails :=
  {| url := Some (ctaUrl s); whatsapp := Some (ctaWhatsApp s) |}.

Definition resetWorkflow (keepImage : bool) (s : State) : State :=
  let s := setStage (if keepImage then imageUploaded else initial) s in
  let s := if keepImage then s else setImageUrl None (setImageFile None s) in
  let s := setError None s in
  let s := setAdvertType None s in
  let s := setAdvertStyles (JArray []) s in
  let s := setSelectedStyle JNull s in
  let s := setConceptIdeas (JArray []) s in
  let s := setAdConcepts (JArray []) s in
  let s := setEditableConcepts (JArray []) s in
  let s := setReviewIndex 0 s in
  let s := setHooksAndCtasForSelection JNull s in
  let s := setImageGenPrompts JNull s in
  setVideoScripts JNull s.

(** [URL.createObjectURL] is the browser's. *)
Definition handleImageUpload (createObjectURL : File -> string) (file : File) (s : State)
  : State :=
  let s := setImageFile (Some file) s in
  let s := setImageUrl (Some (createObjectURL file)) s in
  let s := resetWorkflow true s in
  setStage imageUploaded s.

Definition handleAdvertTypeSelect (type : AdvertType) (s : State) : State :=
  setStage advertTypeSelected (setAdvertType (Some type) s).

Definition handleGenerateStyles (s : State) : Async State :=
  match imageFile s, advertType s with
  | Some file, Some type =>
      let s := setError None (setStage generatingStyles s) in
      try_catch
        (imagePart <- fileToGenerativePart file ;;
         styles <- generateAdvertStyles imagePart type ;;
         Return (setStage stylesGenerated (setAdvertStyles styles s)))
        (fun err =>
           Return (setStage advertTypeSelected (setError (Some (describe err)) s)))
  | _, _ => Return s
  end.

Definition handleGenerateIdeas (s : State) : Async State :=
  match imageFile s, truthy (selectedStyle s), advertType s with
  | Some file, true, Some type =>
      let s1 := setConceptIdeas (JArray []) (setError None (setStage generatingIdeas s)) in
      try_catch
        (imagePart <- fileToGenerativePart file ;;
         ideas <- generateConceptIdeas imagePart (ctaDetailsOf s) (brandGuidelines s)
                    (userConcept s) (selectedStyle s) type ;;
         if truthy ideas && greater_than_zero (own ideas "length")
         then Return (setStage ideasGenerated (setConceptIdeas ideas s1))
         else
           Return
             (setStage stylesGenerated
                (setError
                   (Some "The AI couldn't generate any ideas for this combination. Please try adjusting your inputs.")
                   s1)))
        (fun err =>
           Return (setStage stylesGenerated (setError (Some (describe err)) s1)))
  | _, _, _ =>
      Return
        (setError
           (Some "Please ensure an image, advert type, and a trending style are selected.")
           s)
  end.

Definition handleGenerateFullConcepts (selectedIdeas : list Value) (s : State)
  : Async State :=
  match imageFile s, advertType s, Nat.eqb (List.length selectedIdeas) 2 with
  | Some file, Some type, true =>
      let s1 := setAdConcepts (JArray []) (setError None (setStage generatingFullConcepts s)) in
      let failed (st : State) (err : Thrown) :=
        Return (setStage ideasGenerated (setError (Some (describe err)) st)) in
      try_catch
        (imagePart <- fileToGenerativePart file ;;
         concepts <- generateFullConcepts imagePart (ctaDetailsOf s) (brandGuidelines s)
                       (userConcept s) selectedIdeas type (selectedStyle s) ;;
         let s2 := setAdConcepts concepts s1 in
         match deep_copy concepts with
         | Ok copied =>
             Return
               (setStage reviewingConcepts
                  (setReviewIndex 0 (setEditableConcepts copied s2)))
         | Throw err => failed s2 err
         end)
        (failed s1)
  | _, _, _ => Return (setError (Some "Something went wrong. Please start over.") s)
  end.

(** The loop of [handleConceptEdit] from segment [i] on, and the assignment
    after it: [currentLevel] as the walk leaves it. A member that reads
    undefined is first set to an empty object; the walk then goes on inside
    the member, whose changes show in [currentLevel]. *)
Fixpoint assign_path (fields : list string) (value : Value) (currentLevel : Value)
  : Outcome Value :=
  match fields with
  | [] => Done currentLevel
  | field :: rest =>
      match rest with
      | [] => assign_computed currentLevel field value
      | _ :: _ =>
          obind (read_computed currentLevel field) (fun member =>
          match member with
          | JUndefined =>
              obind (assign_computed currentLevel field (JObject [])) (fun level =>
              obind (assign_path rest value (JObject [])) (fun member' =>
              assign_computed level field member'))
          | _ =>
              obind (assign_path rest value member) (fun member' =>
              assign_computed currentLevel field member')
          end)
      end
  end.

(** The updater [handleConceptEdit] passes to [setEditableConcepts]. *)
Definition editConcepts (reviewIndex : nat) (field value : string) (prev : Value)
  : Outcome Value :=
  obind (lift (deep_copy prev)) (fun newConcepts =>
  obind (lift (at_index newConcepts reviewIndex)) (fun conceptToEdit =>
  obind (assign_path (split_dot field) (JString value) conceptToEdit) (fun edited =>
  Done (with_item newConcepts reviewIndex edited)))).

Definition handleConceptEdit (field value : string) (s : State) : Outcome State :=
  obind (editConcepts (reviewIndex s) field value (editableConcepts s)) (fun newConcepts =>
  Done (setEditableConcepts newConcepts s)).

Definition handleGenerateHooksAndCtasForSelection (s : State) : Async State :=
  match imageFile s with
  | None => Return s
  | Some file =>
      length <- sync (prop (editableConcepts s) "length") ;;
      if strictly_zero length then Return s
      else
        let s1 :=
          setError None
            (setStage generatingHooksAndCtasForSelection
               (setAdConcepts (editableConcepts s) s)) in
        try_catch
          (imagePart <- fileToGenerativePart file ;;
           hooksResult <- generateHooksAndCtas imagePart (editableConcepts s)
                            (ctaDetailsOf s) (copyLanguage s) ;;
           Return (setStage selectingHooksAndCtas (setHooksAndCtasForSelection hooksResult s1)))
          (fun err =>
             Return (setStage reviewingConcepts (setError (Some (describe err)) s1)))
  end.

Definition handleFinalizeAndGenerateOutputs (conceptsWithSelectedCopy : Value) (s : State)
  : Async State :=
  match imageFile s, advertType s with
  | Some file, Some type =>
      length <- sync (prop conceptsWithSelectedCopy "length") ;;
      if strictly_zero length then Return s
      else
        let s1 :=
          setError None
            (setStage generatingFinalOutputs (setAdConcepts conceptsWithSelectedCopy s)) in
        try_catch
          (imagePart <- fileToGenerativePart file ;;
           match type with
           | still =>
               prompts <- generateImagePrompts imagePart conceptsWithSelectedCopy
                            (Some (priceTag s)) ;;
               Return (setStage finalOutputsGenerated (setImageGenPrompts prompts s1))
           | video =>
               scripts <- generateVideoScripts imagePart conceptsWithSelectedCopy ;;
               Return (setStage finalOutputsGenerated (setVideoScripts scripts s1))
           end)
          (fun err =>
             Return (setStage selectingHooksAndCtas (setError (Some (describe err)) s1)))
  | _, _ => Return s
  end.

(** The five provider stages the workflow runs, and for each the handler
    that runs it. *)
Inductive StageRun : Type :=
| RunStyles
| RunIdeas
| RunFullConcepts (selectedIdeas : list Value)
| RunHooksAndCtas
| RunFinalOutputs (conceptsWithSelectedCopy : Value).

Definition handler (r : StageRun) : State -> Async State :=
  match r with
  | RunStyles => handleGenerateStyles
  | RunIdeas => handleGenerateIdeas
  | RunFullConcepts selectedIdeas => handleGenerateFullConcepts selectedIdeas
  | RunHooksAndCtas => handleGenerateHooksAndCtasForSelection
  | RunFinalOutputs concepts => handleFinalizeAndGenerateOutputs concepts
  end.

(** Where the render offers each run: the stage at which its button (or the
    selector that calls it) is shown and not disabled. *)
Definition offered (r : StageRun) (s : State) : bool :=
  match r, stage s with
  | RunStyles, advertTypeSelected => true
  | RunIdeas, stylesGenerated | RunIdeas, ideasGenerated => truthy (selectedStyle s)
  | RunFullConcepts _, ideasGenerated => true
  | RunHooksAndCtas, reviewingConcepts =>
      greater_than_zero (own (editableConcepts s) "length")
  | RunFinalOutputs _, selectingHooksAndCtas => truthy (hooksAndCtasForSelection s)
  | _, _ => false
  end.

(** The stage each run goes back to in its catch. *)
Definition retryStage (r : StageRun) : Stage :=
  match r with
  | RunStyles => advertTypeSelected
  | RunIdeas => stylesGenerated
  | RunFullConcepts _ => ideasGenerated
  | RunHooksAndCtas => reviewingConcepts
  | RunFinalOutputs _ => selectingHooksAndCtas
  end.

(** What the provider stages have produced so far. *)
Definition artifacts (s : State)
  : Value * Value * Value * Value * Value * Value * Value :=
  (advertStyles s, conceptIdeas s, adConcepts s, editableConcepts s,
   hooksAndCtasForSelection s, imageGenPrompts s, videoScripts s).

(** What the user has chosen on the way: image, format and style. *)
Definition choices (s : State)
  : option File * option string * option AdvertType * Value * nat :=
  (imageFile s, imageUrl s, advertType s, selectedStyle s, reviewIndex s).

(** A run starts when the guard at the top of its handler lets it through:
    [starts r s file call] gives the file the handler then reads and the
    stage it calls with the image part read. *)
Inductive starts : StageRun -> State -> File -> (GenerativePart -> StageCall) -> Prop :=
| starts_styles s file type :
    imageFile s = Some file ->
    advertType s = Some type ->
    starts RunStyles s file (fun imagePart => AdvertStyles imagePart type)
| starts_ideas s file type :
    imageFile s = Some file ->
    truthy (selectedStyle s) = true ->
    advertType s = Some type ->
    starts RunIdeas s file
      (fun imagePart =>
         ConceptIdeas imagePart (ctaDetailsOf s) (brandGuidelines s) (userConcept s)
           (selectedStyle s) type)
| starts_full selectedIdeas s file type :
    imageFile s = Some file ->
    advertType s = Some type ->
    List.length selectedIdeas = 2 ->
    starts (RunFullConcepts selectedIdeas) s file
      (fun imagePart =>
         FullConcepts imagePart (ctaDetailsOf s) (brandGuidelines s) (userConcept s)
           selectedIdeas type (selectedStyle s))
| starts_hooks s file length :
    imageFile s = Some file ->
    prop (editableConcepts s) "length" = Ok length ->
    strictly_zero length = false ->
    starts RunHooksAndCtas s file
      (fun imagePart =>
         HooksAndCtas imagePart (editableConcepts s) (ctaDetailsOf s) (copyLanguage s))
| starts_final concepts s file type length :
    imageFile s = Some file ->
    advertType s = Some type ->
    prop concepts "length" = Ok length ->
    strictly_zero length = false ->
    starts (RunFinalOutputs concepts) s file
      (fun imagePart =>
         match type with
         | still => ImagePrompts imagePart concepts (Some (priceTag s))
         | video => VideoScripts imagePart concepts
         end).

(** What the try block of a run awaits: the image part, then the stage. *)
Definition awaited (file : File) (call : GenerativePart -> StageCall) : Async Value :=
  imagePart <- fileToGenerativePart file ;;
  invoke (call imagePart).

(** The value found by following [path] down from [v], member by member. *)
Fixpoint leaf (v : Value) (path : list string) : Value :=
  match path with
  | [] => v
  | k :: rest => leaf (own v k) rest
  end.

(** Two paths part ways: at some segment they name different members. *)
Fixpoint diverge (p q : list string) : bool :=
  match p, q with
  | x :: p', y :: q' => if String.eqb x y then diverge p' q' else true
  | _, _ => false
  end.

(** A path addresses a leaf of an object: every segment but the last names
    a member that holds an object, or names nothing at all (no own member,
    nothing inherited), in which case the rest is addressed in a new empty
    object; the last segment is any key that assignment can write (every
    key but an [__proto__] the object does not own). *)
Fixpoint addressable (ms : Members) (path : list string) : bool :=
  match path with
  | [] => false
  | k :: rest =>
      match rest with
      | [] => has_own k ms || negb (String.eqb k "__proto__")
      | _ :: _ =>
          match lookup k ms with
          | Some (JObject inner) => addressable inner rest
          | Some _ => false
          | None => negb (inherited k) && addressable [] rest
          end
      end
  end.

(** The stage each run goes on to from its try block. *)
Definition nextStage (r : StageRun) : Stage :=
  match r with
  | RunStyles => stylesGenerated
  | RunIdeas => ideasGenerated
  | RunFullConcepts _ => reviewingConcepts
  | RunHooksAndCtas => selectingHooksAndCtas
  | RunFinalOutputs _ => finalOutputsGenerated
  end.

(** [err instanceof Error ? `Failed to enhance styling: ${err.message}` : 'An
    unknown error occurred during enhancement.'] *)
Definition describeEnhancement (err : Thrown) : string :=
  match err with
  | ErrorObject message => "Failed to enhance styling: " ++ message
  | NotAnError => "An unknown error occurred during enhancement."
  end.

(** [handleEnhanceStyling]. The stage stays as it is while the handler
    waits, so the editor stays enabled: [during] is what the user's events
    do to the state between the click and the answer. The handler holds the
    concept and the [handleConceptEdit] of the render that was clicked
    (with its [reviewIndex]); the updater and the setters it calls after
    the await act on the state as it then is. A throw of the updater is not
    caught by the try block: it surfaces when the state is next rendered. *)
Definition handleEnhanceStyling (during : State -> State) (s : State)
  : Async (Outcome State) :=
  conceptToEnhance <- sync (at_index (editableConcepts s) (reviewIndex s)) ;;
  if truthy conceptToEnhance then
    let s1 := setError None (setIsEnhancingStyling true s) in
    try_catch
      (newStylingNotes <- enhanceStylingNotes conceptToEnhance ;;
       Return
         (obind (editConcepts (reviewIndex s) "stylingNotes" newStylingNotes
                   (editableConcepts (during s1))) (fun newConcepts =>
          Done (setIsEnhancingStyling false
                  (setEditableConcepts newConcepts (during s1))))))
      (fun err =>
         Return
           (Done (setIsEnhancingStyling false
                    (setError (Some (describeEnhancement err)) (during s1)))))
  else Return (Done s).

(** The review panel of the render: shown while reviewing (and while the
    hooks and CTAs are generated) if there is anything to review; the
    fields of the [ConceptEditor] it mounts on the concept under review.
    (The [AdConceptCard] mounted beside it is not among the sources.) *)
Definition reviewPanel (s : State) : Result (option (list ConceptEditor.EditableField)) :=
  match stage s with
  | reviewingConcepts | generatingHooksAndCtasForSelection =>
      bind (prop (editableConcepts s) "length") (fun length =>
      if greater_than_zero length then
        bind (ConceptEditor.render (item (editableConcepts s) (reviewIndex s))
                (isEnhancingStyling s)) (fun fields =>
        Ok (Some fields))
      else Ok None)
  | _ => Ok None
  end.

End App.

(** ** The validator of the specification *)
Module Spec.
Import JS Host GeminiService.

(** The number of items the specification fixes for each stage: five styles,
    five ideas, two concepts, five hooks and five CTAs, two terminal
    artifacts. *)
Definition has_length (n : nat) (v : Value) : bool :=
  match v with
  | JArray xs => Nat.eqb (List.length xs) n
  | _ => false
  end.



(** The variant shape the specification asks of a full concept. *)
Definition videoOnlyKeys : list string :=
  [ "cameraMovement"; "editingStyle"; "soundDesign" ].

Definition has_key (v : Value) (k : string) : bool :=
  match v with
  | JObject ms => has_own k ms
  | _ => false
  end.

Definition stillShape (concept : Value) : bool :=
  match own concept "format" with
  | JString f => String.eqb f "Still Image"
  | _ => false
  end
  && forallb (fun k => negb (has_key (own concept "technicalSpecs") k)) videoOnlyKeys.

Definition videoShape (concept : Value) : bool :=
  forallb (has_key (own concept "technicalSpecs")) videoOnlyKeys.

End Spec.


(** ** A run of the workflow on concrete data *)
Module Scenario.
Import JS Host GeminiService HookAndCtaSelector App.

Definition photo : File :=
  {| file_name := "lamp.png"; file_type := "image/png"; file_content := "PNG" |}.

Definition photoPart : GenerativePart :=
  {| mimeType := "image/png"; data := "UE5H" |}.

Definition createObjectURL (file : File) : string := "blob:" ++ file_name file.

(** A world where the file reads and the provider answers [t] to anything. *)
Definition answering (t : string) : World :=
  {| read_file := fun _ => Ok photoPart;
     respond := fun _ => Ok {| text := Some t |} |}.

(** A world where the provider call itself fails. *)
Definition offline : World :=
  {| read_file := fun _ => Ok photoPart;
     respond := fun _ => Throw (ErrorObject "Failed to fetch") |}.

Definition entry (title summary : string) : Value :=
  JObject [ ("title", JString title); ("summary", JString summary) ].

Definition styles : Value :=
  JArray [ entry "Bold Minimalism" "One object, one colour.";
           entry "Cinematic Product Shot" "Film lighting." ].

Definition ideas : Value :=
  JArray [ entry "Night light" "The lamp in a dark room.";
           entry "Desk hero" "The lamp on a tidy desk.";
           entry "Unboxing" "Hands open the box." ].

Definition chosenIdeas : list Value :=
  [ entry "Night light" "The lamp in a dark room.";
    entry "Desk hero" "The lamp on a tidy desk." ].

Definition stillSpecs : Value :=
  JObject [ ("camera", JString "Hasselblad X2D");
            ("lenses", JString "85mm f/1.4");
            ("angles", JString "Three-quarter");
            ("specs", JString "High-resolution, 3:2");
            ("mood", JString "dark and moody") ].

Definition conceptMembers (name hook cta : string) : Members :=
  [ ("optionName", JString name);
    ("conceptSummary", JString "A lamp that owns the room.");
    ("shootSetup", JString "Black backdrop, single key light.");
    ("technicalSpecs", stillSpecs);
    ("stylingNotes", JString "Matte props only.");
    ("postProduction", JString "Deep blacks.");
    ("hookLine", JString hook);
    ("adCopy", JString "Light, reinvented.");
    ("cta", JString cta);
    ("trendReasoning", JString "Moody product shots convert.");
    ("format", JString "Still Image") ].

Definition concept (name hook cta : string) : Value :=
  JObject (conceptMembers name hook cta).

Definition concepts : Value :=
  JArray [ concept "Night light" "Own the night" "Visit https://x.com";
           concept "Desk hero" "Work brighter" "Visit https://x.com" ].

Definition hooksAndCtas : Value :=
  JObject [ ("hooks", JArray [ JString "Glow up"; JString "Light it"; JString "See more";
                               JString "Shine on"; JString "Be bright" ]);
            ("ctas", JArray [ JString "Shop at https://x.com"; JString "Buy at https://x.com";
                              JString "See https://x.com"; JString "Go to https://x.com";
                              JString "Try https://x.com" ]) ].

(** The state after each step, the provider answering well-formed JSON. *)
Definition finished (r : Result State) (otherwise : State) : State :=
  match r with
  | Ok s => s
  | Throw _ => otherwise
  end.

Definition typeChosen : State :=
  Eval vm_compute in
  handleAdvertTypeSelect still (handleImageUpload createObjectURL photo initialState).

Definition stylesReady : State :=
  Eval vm_compute in
  finished (run (answering (JSON_stringify_2 styles)) (handleGenerateStyles typeChosen))
    typeChosen.

Definition styleChosen : State :=
  Eval vm_compute in
  setCtaUrl "https://x.com" (setSelectedStyle (item styles 0) stylesReady).

Definition ideasReady : State :=
  Eval vm_compute in
  finished (run (answering (JSON_stringify_2 ideas)) (handleGenerateIdeas styleChosen))
    styleChosen.

Definition conceptsReady : State :=
  Eval vm_compute in
  finished
    (run (answering (JSON_stringify_2 concepts))
       (handleGenerateFullConcepts chosenIdeas ideasReady))
    ideasReady.

Definition edited : State :=
  Eval vm_compute in
  match handleConceptEdit "technicalSpecs.mood" "calm" conceptsReady with
  | Done s => s
  | _ => conceptsReady
  end.

Definition copyReady : State :=
  Eval vm_compute in
  finished
    (run (answering (JSON_stringify_2 hooksAndCtas))
       (handleGenerateHooksAndCtasForSelection edited))
    edited.

(** Inputs and answers off the beaten track. *)

Definition urlOnly : CtaDetails :=
  {| url := Some "https://x.com"; whatsapp := Some EmptyString |}.

Definition fullConceptsCall : StageCall :=
  FullConcepts photoPart urlOnly EmptyString EmptyString chosenIdeas still (item styles 0).

(** Two concepts whose CTA speaks of WhatsApp only. *)
Definition offRule : Value :=
  JArray [ concept "Night light" "Own the night" "Message us on WhatsApp";
           concept "Desk hero" "Work brighter" "Message us on WhatsApp" ].

(** One concept, in the video shape. *)
Definition offShape : Value :=
  JArray [ JObject [ ("optionName", JString "Night light");
                     ("technicalSpecs",
                       JObject [ ("cameraMovement", JString "slow pan") ]);
                     ("format", JString "Short Video") ] ].


Definition notJson : string := "{not valid json".

(** An answer that follows the video schema: one concept. *)
Definition videoAnswer : Value :=
  JArray
    [ JObject
        [ ("optionName", JString "Night light");
          ("conceptSummary", JString "A lamp that owns the room.");
          ("shootSetup", JString "A dark room, the lamp turns on.");
          ("technicalSpecs",
            JObject [ ("camera", JString "ARRI Alexa");
                      ("lenses", JString "Cinematic Anamorphic");
                      ("angles", JString "Dynamic close-ups");
                      ("specs", JString "4K, 24fps");
                      ("mood", JString "dark and moody");
                      ("cameraMovement", JString "slow pan");
                      ("editingStyle", JString "Quick cuts");
                      ("soundDesign", JString "A switch, then strings.") ]);
          ("stylingNotes", JString "Matte props only.");
          ("postProduction", JString "Deep blacks.");
          ("hookLine", JString "Own the night");
          ("adCopy", JString "Light, reinvented.");
          ("cta", JString "Visit https://x.com");
          ("trendReasoning", JString "Moody product films convert.");
          ("format", JString "Short Video");
          ("videoDuration", JString "8 seconds") ] ].

(** The selector as it mounts on the concepts locked in by the hook/CTA
    stage, and two picks of the user. *)
Definition lockedIn0 : Value := Eval vm_compute in item (adConcepts copyReady) 0.
Definition lockedIn1 : Value := Eval vm_compute in item (adConcepts copyReady) 1.

Definition mounted : Selection :=
  Eval vm_compute in
  match initialSelection (JArray [lockedIn0; lockedIn1]) hooksAndCtas with
  | Ok sel => sel
  | Throw _ => {| selectedHooks := []; selectedCtas := [] |}
  end.

Definition picks : list Choice :=
  [ ChooseHook 1 "Be bright"; ChooseCta 0 "Try https://x.com" ].

(** The review of an answer that held a single concept. *)
Definition oneConcept : State :=
  Eval vm_compute in
  finished
    (run (answering (JSON_stringify_2 videoAnswer))
       (handleGenerateFullConcepts chosenIdeas ideasReady))
    ideasReady.

(** What the user does while an enhancement is under way: the ad copy of
    the concept under review is retyped. *)
Definition meanwhile (s : State) : State :=
  match handleConceptEdit "adCopy" "Softer light." s with
  | Done s' => s'
  | _ => s
  end.

(** The state an enhancement started on [conceptsReady] finds at the
    arrival of its answer, and in it the members of the first concept. *)
Definition arrival : State :=
  Eval vm_compute in meanwhile (setError None (setIsEnhancingStyling true conceptsReady)).

Definition retyped : Members :=
  Eval vm_compute in
  match item (editableConcepts arrival) 0 with
  | JObject ms => ms
  | _ => []
  end.



(** An answer wrapped in a byte-order mark, blanks and no-break spaces. *)
Definition wrapped : string :=
  bytes [239; 187; 191] ++ " " ++ nl ++ "[]" ++ bytes [194; 160] ++ nl.

(** The styling notes of the first concept retyped in the review, the copy
    options generated on that store, and the selector mounted on them. *)
Definition restyled : State :=
  Eval vm_compute in
  match handleConceptEdit "stylingNotes" "Brass props." conceptsReady with
  | Done s => s
  | _ => conceptsReady
  end.

Definition restyledCopyReady : State :=
  Eval vm_compute in
  finished
    (run (answering (JSON_stringify_2 hooksAndCtas))
       (handleGenerateHooksAndCtasForSelection restyled))
    restyled.

Definition mountedOnRestyled : Selection :=
  Eval vm_compute in
  match initialSelection (adConcepts restyledCopyReady)
          (hooksAndCtasForSelection restyledCopyReady) with
  | Ok sel => sel
  | Throw _ => {| selectedHooks := []; selectedCtas := [] |}
  end.

End Scenario.

(** * Properties *)

Import JS Host GeminiService HookAndCtaSelector ConceptEditor App.

(** ** Members of an object *)

Lemma lookup_replace_own_same (k : string) (v : Value) (ms : Members) :
  has_own k ms = true -> lookup k (replace_own k v ms) = Some v.
Proof.
  unfold has_own. induction ms as [|[k' v'] ms IH]; simpl; [discriminate|].
  destruct (String.eqb k k') eqn:E; simpl; rewrite E; auto.
Qed.

Lemma lookup_replace_own_other (k k' : string) (v : Value) (ms : Members) :
  k' <> k -> lookup k' (replace_own k v ms) = lookup k' ms.
Proof.
  intros Hne. induction ms as [|[k0 v0] ms IH]; simpl; [reflexivity|].
  destruct (String.eqb k k0) eqn:E; simpl.
  - apply String.eqb_eq in E. subst k0.
    destruct (String.eqb k' k) eqn:E'; [apply String.eqb_eq in E'; contradiction | reflexivity].
  - destruct (String.eqb k' k0); [reflexivity | exact IH].
Qed.

Lemma replace_own_same (k : string) (v : Value) (ms : Members) :
  lookup k ms = Some v -> replace_own k v ms = ms.
Proof.
  induction ms as [|[k' v'] ms IH]; simpl; [reflexivity|].
  destruct (String.eqb k k') eqn:E; intros H.
  - injection H as ->. reflexivity.
  - rewrite (IH H). reflexivity.
Qed.

Lemma lookup_insert_index_same (n : N) (k : string) (v : Value) (ms : Members) :
  lookup k ms = None -> lookup k (insert_index n k v ms) = Some v.
Proof.
  induction ms as [|[k' v'] ms IH]; simpl; intros H.
  - rewrite String.eqb_refl. reflexivity.
  - destruct (String.eqb k k') eqn:E; [discriminate|].
    destruct (array_index k') as [n'|]; [destruct (n <? n')%N|]; simpl;
      rewrite ?String.eqb_refl, ?E; auto.
Qed.

Lemma lookup_insert_index_other (n : N) (k k' : string) (v : Value) (ms : Members) :
  k' <> k -> lookup k' (insert_index n k v ms) = lookup k' ms.
Proof.
  intros Hne. apply String.eqb_neq in Hne.
  induction ms as [|[k0 v0] ms IH]; simpl.
  - rewrite Hne. reflexivity.
  - destruct (array_index k0) as [n'|]; [destruct (n <? n')%N|]; simpl;
      rewrite ?Hne; try reflexivity.
    destruct (String.eqb k' k0); [reflexivity | exact IH].
Qed.

Lemma lookup_snoc_same (k : string) (v : Value) (ms : Members) :
  lookup k ms = None -> lookup k (ms ++ [(k, v)])%list = Some v.
Proof.
  induction ms as [|[k' v'] ms IH]; simpl; intros H.
  - rewrite String.eqb_refl. reflexivity.
  - destruct (String.eqb k k'); [discriminate | auto].
Qed.

Lemma lookup_snoc_other (k k' : string) (v : Value) (ms : Members) :
  k' <> k -> lookup k' (ms ++ [(k, v)])%list = lookup k' ms.
Proof.
  intros Hne. apply String.eqb_neq in Hne.
  induction ms as [|[k0 v0] ms IH]; simpl.
  - rewrite Hne. reflexivity.
  - destruct (String.eqb k' k0); [reflexivity | exact IH].
Qed.

Lemma lookup_define_own_same (k : string) (v : Value) (ms : Members) :
  lookup k (define_own k v ms) = Some v.
Proof.
  unfold define_own. destruct (has_own k ms) eqn:E.
  - apply lookup_replace_own_same, E.
  - assert (lookup k ms = None) as Hn
      by (unfold has_own in E; destruct (lookup k ms); [discriminate | reflexivity]).
    destruct (array_index k).
    + apply lookup_insert_index_same, Hn.
    + apply lookup_snoc_same, Hn.
Qed.

Lemma lookup_define_own_other (k k' : string) (v : Value) (ms : Members) :
  k' <> k -> lookup k' (define_own k v ms) = lookup k' ms.
Proof.
  intros Hne. unfold define_own. destruct (has_own k ms).
  - apply lookup_replace_own_other, Hne.
  - destruct (array_index k).
    + apply lookup_insert_index_other, Hne.
    + apply lookup_snoc_other, Hne.
Qed.

Lemma has_own_define_own_same (k : string) (v : Value) (ms : Members) :
  has_own k (define_own k v ms) = true.
Proof. unfold has_own. rewrite lookup_define_own_same. reflexivity. Qed.

Lemma has_own_define_own_kept (k k' : string) (v : Value) (ms : Members) :
  has_own k' ms = true -> has_own k' (define_own k v ms) = true.
Proof.
  intros H. destruct (String.eqb k' k) eqn:E.
  - apply String.eqb_eq in E. subst. apply has_own_define_own_same.
  - apply String.eqb_neq in E. unfold has_own.
    rewrite (lookup_define_own_other k k' v ms E). exact H.
Qed.

Lemma define_own_idempotent (k : string) (v : Value) (ms : Members) :
  define_own k v (define_own k v ms) = define_own k v ms.
Proof.
  unfold define_own at 1. rewrite has_own_define_own_same.
  apply replace_own_same, lookup_define_own_same.
Qed.

(** ** Resetting the workflow *)

(** C10. Both resets, the full one that starts a new project and the one
    done when a new image is uploaded, clear every generated artifact, the
    chosen style, the chosen advert type and the error, and leave the six
    form inputs as they were. *)
Theorem C10_reset_clears_artifacts_keeps_form_inputs :
  forall (keepImage : bool) (createObjectURL : File -> string) (file : File)
         (s : State),
    let cleared (s' : State) :=
      artifacts s' = (JArray [], JArray [], JArray [], JArray [], JNull, JNull, JNull)
      /\ selectedStyle s' = JNull
      /\ advertType s' = None
      /\ error s' = None in
    let kept (s' : State) :=
      ctaUrl s' = ctaUrl s
      /\ ctaWhatsApp s' = ctaWhatsApp s
      /\ priceTag s' = priceTag s
      /\ brandGuidelines s' = brandGuidelines s
      /\ userConcept s' = userConcept s
      /\ copyLanguage s' = copyLanguage s in
    (cleared (resetWorkflow keepImage s) /\ kept (resetWorkflow keepImage s))
    /\ (cleared (handleImageUpload createObjectURL file s)
        /\ kept (handleImageUpload createObjectURL file s)).
Proof.
  intros keepImage createObjectURL file s cleared kept.
  unfold cleared, kept, artifacts, handleImageUpload, resetWorkflow.
  destruct keepImage; simpl; repeat split; reflexivity.
Qed.

(** ** The guard of the full-concept stage *)

(** C8. When the number of chosen ideas is not two, the full-concept handler
    returns at once: it awaits nothing, so no provider call is made in any
    world; it sets the error message and leaves the stage, the artifacts,
    the choices and the form inputs as they were. *)
Theorem C8_wrong_number_of_ideas_is_rejected_before_any_call :
  forall (selectedIdeas : list Value) (s : State),
    List.length selectedIdeas <> 2 ->
    exists s' : State,
      handleGenerateFullConcepts selectedIdeas s = Return s'
      /\ (forall w : World, requests w (handleGenerateFullConcepts selectedIdeas s) = [])
      /\ error s' = Some "Something went wrong. Please start over."
      /\ stage s' = stage s
      /\ artifacts s' = artifacts s
      /\ choices s' = choices s
      /\ formInputs s' = formInputs s.
Proof.
  intros selectedIdeas s Hlen.
  exists (setError (Some "Something went wrong. Please start over.") s).
  assert (handleGenerateFullConcepts selectedIdeas s
          = Return (setError (Some "Something went wrong. Please start over.") s)) as Heq.
  { unfold handleGenerateFullConcepts.
    destruct (imageFile s); [|reflexivity].
    destruct (advertType s); [|reflexivity].
    destruct (Nat.eqb (List.length selectedIdeas) 2) eqn:E; [|reflexivity].
    apply Nat.eqb_eq in E. contradiction. }
  rewrite Heq. repeat split.
Qed.

(** ** Text of the prompts *)

Lemma append_assoc (a b c : string) : (a ++ b) ++ c = a ++ b ++ c.
Proof. induction a as [|x a IH]; simpl; [reflexivity | rewrite IH; reflexivity]. Qed.

Lemma strip_prefix_append (n s : string) : strip_prefix n (n ++ s) = Some s.
Proof.
  induction n as [|c n IH]; simpl; [reflexivity|].
  rewrite Ascii.eqb_refl. exact IH.
Qed.

Lemma includes_at (n s t : string) : s = n ++ t -> includes n s = true.
Proof.
  intros ->. destruct (n ++ t) eqn:E; simpl; rewrite <- E, strip_prefix_append; reflexivity.
Qed.

Lemma includes_skip (n a s : string) : includes n s = true -> includes n (a ++ s) = true.
Proof.
  intros H. induction a as [|c a IH]; simpl; [exact H|].
  destruct (strip_prefix n (String c (a ++ s))); [reflexivity | exact IH].
Qed.

(** Finds a needle in a text written as a chain of appended pieces. *)
Ltac in_text :=
  repeat first
    [ solve [eapply includes_at; rewrite ?append_assoc; reflexivity]
    | apply includes_skip ].

Lemma or_text_present (s fallback : string) :
  s <> EmptyString -> or_text (Some s) fallback = s.
Proof. destruct s; [contradiction | reflexivity]. Qed.

Lemma nonempty_iff (s : string) : nonempty s = true <-> s <> EmptyString.
Proof. destruct s; simpl; split; congruence. Qed.

(** ** The instruction of the idea stage *)

(** C9. The idea stage sends one of two instructions, for a style whose
    title and summary the template prints. Both carry the task sentence:
    generate 5 ad concept ideas for the format, aligned with the chosen
    style. With a non-empty user concept draft the instruction is the text
    that asks to take the user's core idea and show five enhanced
    variations of it, with the draft quoted in it; with an empty draft it
    is the other text, made of the task sentence, the style and the brand
    guidelines alone. The first text differs from the instruction of every
    call with an empty draft, whatever the other inputs. *)
Theorem C9_idea_instruction_follows_the_user_concept :
  forall (imagePart : GenerativePart) (ctaDetails : CtaDetails)
         (brandGuidelines userConcept : string) (selectedStyle : Value)
         (advertType : AdvertType),
    nullish selectedStyle = false ->
    printable (own selectedStyle "title") = true ->
    printable (own selectedStyle "summary") = true ->
    let format :=
      match advertType with
      | still => "still image"
      | video => "short 8-10 second video"
      end in
    let title := ToString (own selectedStyle "title") in
    let summary := ToString (own selectedStyle "summary") in
    let brand :=
      match brandGuidelines with
      | EmptyString => "N/A"
      | String _ _ => brandGuidelines
      end in
    let task :=
      "Your task is to generate 5 distinct, highly trending, and attention-grabbing ad concept IDEAS for a "
      ++ format ++ ", all aligned with the chosen ad style: " ++ dq ++ title ++ ": "
      ++ summary ++ dq
      ++ ". These should be high-level summaries, not full plans. Focus on what's current, viral, and proven to have a high CTR for this product category within the specified ad style." in
    exists (request : Request) (k : Result Response -> Async Value),
      generateConceptIdeas imagePart ctaDetails brandGuidelines userConcept
        selectedStyle advertType = AwaitContent request k
      /\ (userConcept <> EmptyString ->
          prompt request
          = "You are a world-class AI creative director specializing in enhancing raw ideas into high-performing campaigns. A user has provided an image, their initial ad concept, a chosen format ("
            ++ format ++ "), and a guiding ad style." ++ nl
            ++ "        Your task is to act as a creative partner. Take the user's core idea and elevate it by blending it with 5 distinct, highly trending, and proven high-CTR (Click-Through Rate) strategies relevant to the product type, chosen format, and ad style. The goal is not to replace their idea, but to show them five professional, enhanced variations of it."
            ++ nl ++ nl ++ "        " ++ task ++ nl ++ nl ++ "        USER INPUTS:" ++ nl
            ++ "        - Chosen Ad Style: " ++ dq ++ title ++ dq ++ nl
            ++ "        - User's Raw Ad Concept to Enhance: " ++ dq ++ userConcept ++ dq ++ nl
            ++ "        - Brand Guidelines to consider: " ++ dq ++ brand ++ dq
          /\ includes "Take the user's core idea and elevate it by blending it with 5 distinct, highly trending, and proven high-CTR (Click-Through Rate) strategies relevant to the product type, chosen format, and ad style. "
               (prompt request) = true
          /\ includes "The goal is not to replace their idea, but to show them five professional, enhanced variations of it."
               (prompt request) = true
          /\ includes ("        - User's Raw Ad Concept to Enhance: " ++ dq ++ userConcept ++ dq)
               (prompt request) = true
          /\ includes task (prompt request) = true
          /\ (forall (imagePart' : GenerativePart) (ctaDetails' : CtaDetails)
                     (brandGuidelines' : string) (selectedStyle' : Value)
                     (advertType' : AdvertType) (request' : Request)
                     (k' : Result Response -> Async Value),
                generateConceptIdeas imagePart' ctaDetails' brandGuidelines' EmptyString
                  selectedStyle' advertType' = AwaitContent request' k' ->
                prompt request <> prompt request')
          /\ forall format' core' title' brand' : string,
               prompt request <> inventPrompt format' core' title' brand')
      /\ (userConcept = EmptyString ->
          prompt request
          = "You are a world-class AI creative director. A user has provided an image, brand guidelines, a chosen format ("
            ++ format ++ "), and has chosen a guiding ad style." ++ nl
            ++ "        " ++ task ++ nl ++ nl ++ "        USER INPUTS:" ++ nl
            ++ "        - Chosen Ad Style: " ++ dq ++ title ++ dq ++ nl
            ++ "        - Brand Guidelines: " ++ dq ++ brand ++ dq
          /\ includes "A user has provided an image, brand guidelines, a chosen format ("
               (prompt request) = true
          /\ includes task (prompt request) = true
          /\ prompt request
             = inventPrompt (format_of advertType)
                 (coreInstruction (format_of advertType) title summary) title
                 brandGuidelines).
Proof.
  intros imagePart ctaDetails brandGuidelines userConcept selectedStyle advertType Hstyle
         _ _ format title summary brand task.
  assert (format = format_of advertType) as Hformat by (destruct advertType; reflexivity).
  assert (brand = or_string brandGuidelines "N/A") as Hbrand
    by (destruct brandGuidelines; reflexivity).
  assert (task = coreInstruction format title summary) as Htask.
  { unfold task, coreInstruction. rewrite ?append_assoc. reflexivity. }
  unfold generateConceptIdeas, prop. rewrite Hstyle. simpl abind.
  eexists. eexists. split; [reflexivity|]. cbv [prompt].
  fold title. fold summary. rewrite <- Hformat. unfold conceptIdeasPrompt.
  rewrite <- Htask. split.
  - intros Hdraft. apply nonempty_iff in Hdraft. rewrite Hdraft.
    unfold enhancePrompt. rewrite <- Hbrand.
    split; [rewrite ?append_assoc; reflexivity|].
    split; [in_text|]. split; [in_text|]. split; [in_text|]. split; [in_text|].
    split.
    + intros imagePart' ctaDetails' brandGuidelines' selectedStyle' advertType' request' k'
             Hcall'.
      unfold generateConceptIdeas, prop in Hcall'.
      destruct (nullish selectedStyle'); simpl abind in Hcall'; [discriminate Hcall'|].
      injection Hcall' as <- _. cbv [prompt]. unfold conceptIdeasPrompt.
      simpl nonempty. cbv iota. unfold inventPrompt. cbn [append]. discriminate.
    + intros format' core' title' brand' H. unfold inventPrompt in H.
      cbn [append] in H. discriminate H.
  - intros ->. simpl nonempty. cbv iota. unfold inventPrompt. rewrite <- Hbrand.
    split; [rewrite ?append_assoc; reflexivity|].
    split; [in_text|]. split; [in_text|]. reflexivity.
Qed.

(** ** What every stage does with the response *)

(** A stage either throws before it reaches the provider (a TypeError on a
    missing argument) or makes one request, carrying its schema, and then
    returns what the response text parses to. *)
Lemma invoke_shape (c : StageCall) :
  (exists e : Thrown, invoke c = Fail e)
  \/ (exists (request : Request) (k : Result Response -> Async Value),
        invoke c = AwaitContent request k
        /\ responseSchema request = Some (schemaOf c)
        /\ (forall response : Response,
              k (Ok response) = parse_response (subject c) response)
        /\ (forall e : Thrown, k (Throw e) = Fail e)).
Proof.
  destruct c; simpl invoke;
    unfold generateAdvertStyles, generateConceptIdeas, generateFullConcepts,
      generateHooksAndCtas, generateImagePrompts, generateVideoScripts, at_index, prop;
    repeat match goal with
           | |- context [nullish ?v] =>
               destruct (nullish v) eqn:?; simpl abind;
               [left; eexists; reflexivity|]
           end;
    right; eexists; eexists; simpl;
    (split; [reflexivity | split; [reflexivity | split; intros; reflexivity]]).
Qed.

Lemma parse_response_result (what : string) (response : Response) :
  parse_response what response
  = match parsed response with
    | Some v => Return v
    | None => Fail (invalid_response what)
    end.
Proof.
  unfold parse_response, parsed. destruct (text response) as [t|]; [|reflexivity].
  destruct (JSON_parse (trim t)); reflexivity.
Qed.

(** The completion of a stage in a world that answers its request. *)
Lemma run_invoke (w : World) (c : StageCall) (request : Request)
      (k : Result Response -> Async Value) :
  invoke c = AwaitContent request k ->
  run w (invoke c)
  = match respond w request with
    | Ok response =>
        match parsed response with
        | Some v => Ok v
        | None => Throw (invalid_response (subject c))
        end
    | Throw e => Throw e
    end.
Proof.
  intros Hcall. destruct (invoke_shape c) as [[e He] | (request' & k' & Hc & _ & Hok & Herr)];
    [congruence|].
  rewrite Hcall in Hc. injection Hc as <- <-. rewrite Hcall. simpl.
  destruct (respond w request) as [response|e].
  - rewrite Hok, parse_response_result. destruct (parsed response); reflexivity.
  - rewrite Herr. reflexivity.
Qed.

Lemma conforms_object_inv (properties : list (string * option Schema))
      (required : list string) (v : Value) :
  conforms (OBJECT properties required) v = true -> exists ms, v = JObject ms.
Proof. destruct v; simpl; try discriminate. intros _. eexists. reflexivity. Qed.

Lemma conforms_object_required (properties : list (string * option Schema))
      (required : list string) (ms : Members) (k : string) :
  conforms (OBJECT properties required) (JObject ms) = true ->
  In k required -> has_own k ms = true.
Proof.
  simpl. intros H Hin. apply andb_true_iff in H. destruct H as [H _].
  rewrite forallb_forall in H. apply H, Hin.
Qed.

Lemma conforms_object_declared (properties : list (string * option Schema))
      (required : list string) (ms : Members) (k : string) (sub : Schema) (x : Value) :
  conforms (OBJECT properties required) (JObject ms) = true ->
  In (k, Some sub) properties -> lookup k ms = Some x -> conforms sub x = true.
Proof.
  simpl. intros H Hin Hx. apply andb_true_iff in H. destruct H as [_ H].
  induction properties as [|[k' [sub'|]] ps IH]; [destruct Hin | |].
  - apply andb_true_iff in H. destruct H as [H1 H2].
    destruct Hin as [Heq | Hin]; [|exact (IH H2 Hin)].
    injection Heq as -> ->. rewrite Hx in H1. exact H1.
  - destruct Hin as [Heq | Hin]; [discriminate | exact (IH H Hin)].
Qed.

(** ** Validation of the response *)



(** ** The variant shape of a full concept *)

Lemma video_schema_gives_video_shape (c : Value) :
  conforms (match fullConceptsSchema true with
            | ARRAY items => items
            | other => other
            end) c = true ->
  Spec.videoShape c = true.
Proof.
  cbv [fullConceptsSchema]. intros H.
  destruct (conforms_object_inv _ _ _ H) as [ms ->].
  assert (has_own "technicalSpecs" ms = true) as Hts.
  { apply (conforms_object_required _ _ ms "technicalSpecs" H). simpl. tauto. }
  unfold has_own in Hts. destruct (lookup "technicalSpecs" ms) as [specs|] eqn:Hspecs;
    [|discriminate].
  assert (conforms (OBJECT (technicalSpecsProps true) (map fst (technicalSpecsProps true)))
            specs = true) as Hconf.
  { apply (conforms_object_declared _ _ ms "technicalSpecs" _ specs H); [|exact Hspecs].
    simpl. tauto. }
  destruct (conforms_object_inv _ _ _ Hconf) as [ts ->].
  unfold Spec.videoShape, Spec.videoOnlyKeys. cbn [own]. rewrite Hspecs.
  cbn [forallb Spec.has_key].
  rewrite (conforms_object_required _ _ ts "cameraMovement" Hconf) by (simpl; tauto).
  rewrite (conforms_object_required _ _ ts "editingStyle" Hconf) by (simpl; tauto).
  rewrite (conforms_object_required _ _ ts "soundDesign" Hconf) by (simpl; tauto).
  reflexivity.
Qed.

(** C4, as the code has it. The full-concept stage asks for the variant
    shape and does not check it. The schema its request carries is an array
    of objects whose technicalSpecs property is an object. For a video that
    object declares and requires camera, lenses, angles, specs, mood,
    cameraMovement, editingStyle and soundDesign, so every concept of an
    answer that follows the schema has the three video-only keys, and the
    format field is described by the words Set to and the quoted name Short
    Video. For a still image it declares and requires the first five only,
    none of the three keys, describes the format field by the words Set to
    and the quoted name Still Image, and writes videoDuration as undefined.
    Whatever the answer parses to is returned as it is (the titles and
    summaries of the style and the two ideas being values the template
    prints): the number of concepts, their format and their keys are the
    provider's. *)
Theorem C4_variant_shape_is_requested_of_the_provider :
  forall (imagePart : GenerativePart) (ctaDetails : CtaDetails)
         (brandGuidelines userConcept : string) (selectedIdeas : list Value)
         (advertType : AdvertType) (selectedStyle : Value)
         (request : Request) (k : Result Response -> Async Value),
    generateFullConcepts imagePart ctaDetails brandGuidelines userConcept selectedIdeas
      advertType selectedStyle = AwaitContent request k ->
    forallb printable
      [ own selectedStyle "title"; own selectedStyle "summary";
        own (nth 0 selectedIdeas JUndefined) "title";
        own (nth 0 selectedIdeas JUndefined) "summary";
        own (nth 1 selectedIdeas JUndefined) "title";
        own (nth 1 selectedIdeas JUndefined) "summary" ] = true ->
    (exists (properties technicalSpecs : list (string * option Schema))
            (required technicalRequired : list string),
       responseSchema request = Some (ARRAY (OBJECT properties required))
       /\ In ("technicalSpecs", Some (OBJECT technicalSpecs technicalRequired)) properties
       /\ In "technicalSpecs" required
       /\ In "format" required
       /\ (advertType = video ->
           map fst technicalSpecs
           = [ "camera"; "lenses"; "angles"; "specs"; "mood";
               "cameraMovement"; "editingStyle"; "soundDesign" ]
           /\ technicalRequired = map fst technicalSpecs
           /\ (forall key : string,
                 In key Spec.videoOnlyKeys ->
                 In key (map fst technicalSpecs) /\ In key technicalRequired)
           /\ In ("format", Some (STRING (Some ("Set to " ++ dq ++ "Short Video" ++ dq))))
                properties)
       /\ (advertType = still ->
           map fst technicalSpecs = [ "camera"; "lenses"; "angles"; "specs"; "mood" ]
           /\ technicalRequired = map fst technicalSpecs
           /\ (forall key : string,
                 In key Spec.videoOnlyKeys ->
                 ~ In key (map fst technicalSpecs) /\ ~ In key technicalRequired)
           /\ In ("format", Some (STRING (Some ("Set to " ++ dq ++ "Still Image" ++ dq))))
                properties
           /\ In ("videoDuration", None) properties))
    /\ (advertType = video ->
        responseSchema request = Some (fullConceptsSchema true)
        /\ forall v : Value,
             conforms (fullConceptsSchema true) v = true ->
             exists concepts : list Value,
               v = JArray concepts
               /\ Forall (fun c => Spec.videoShape c = true) concepts)
    /\ (advertType = still ->
        responseSchema request = Some (fullConceptsSchema false)
        /\ (forall key : string,
              In key Spec.videoOnlyKeys ->
              ~ In key (map fst (technicalSpecsProps false)))
        /\ formatDescription false = "Set to " ++ dq ++ "Still Image" ++ dq)
    /\ (forall (w : World) (response : Response) (v : Value),
          respond w request = Ok response ->
          parsed response = Some v ->
          run w (generateFullConcepts imagePart ctaDetails brandGuidelines userConcept
                   selectedIdeas advertType selectedStyle) = Ok v).
Proof.
  intros imagePart ctaDetails brandGuidelines userConcept selectedIdeas advertType
         selectedStyle request k Hcall _.
  pose (c := FullConcepts imagePart ctaDetails brandGuidelines userConcept selectedIdeas
               advertType selectedStyle).
  change (invoke c = AwaitContent request k) in Hcall.
  assert (responseSchema request = Some (schemaOf c)) as Hschema.
  { destruct (invoke_shape c) as [[e He] | (request' & k' & Hc & Hs & _)]; [congruence|].
    rewrite Hcall in Hc. injection Hc as <- <-. exact Hs. }
  assert (forall key : string,
            In key Spec.videoOnlyKeys ->
            ~ In key [ "camera"; "lenses"; "angles"; "specs"; "mood" ]) as Hnone.
  { intros key Hkey Hin. simpl in Hkey, Hin.
    repeat match goal with
           | H : _ \/ _ |- _ => destruct H
           | H : False |- _ => destruct H
           end; subst; discriminate. }
  split; [|split; [|split]].
  - rewrite Hschema. destruct advertType; cbn [schemaOf c fullConceptsSchema];
      eexists _, _, _, _; (split; [reflexivity|]);
      (split; [cbn [In]; tauto|]); (split; [cbn [In]; tauto|]);
      (split; [cbn [In]; tauto|]); split; intros Htype; try discriminate Htype.
    + split; [reflexivity|]. split; [reflexivity|]. split; [|split].
      * intros key Hkey. split; apply Hnone, Hkey.
      * cbn [In]. tauto.
      * cbn [In]. tauto.
    + split; [reflexivity|]. split; [reflexivity|]. split.
      * intros key Hkey. simpl in Hkey. cbn [technicalSpecsProps map fst app In].
        split; intuition (subst; auto 12).
      * cbn [In]. tauto.
  - intros ->. split; [exact Hschema|].
    intros v Hv. destruct v; try discriminate Hv.
    exists items. split; [reflexivity|].
    rewrite Forall_forall. intros x Hx.
    apply video_schema_gives_video_shape.
    simpl in Hv. rewrite forallb_forall in Hv. exact (Hv x Hx).
  - intros ->. split; [exact Hschema|]. split; [exact Hnone | reflexivity].
  - intros w response v Hanswer Hparsed.
    change (run w (invoke c) = Ok v).
    rewrite (run_invoke w c request k Hcall), Hanswer, Hparsed. reflexivity.
Qed.

(** C4 fails as stated: asked for a still image, the stage returns an answer
    of one concept, in the video format and with a video-only key. *)
Lemma C4_counterexample :
  run (Scenario.answering (JSON_stringify_2 Scenario.offShape))
      (generateFullConcepts Scenario.photoPart Scenario.urlOnly EmptyString EmptyString
         Scenario.chosenIdeas still (item Scenario.styles 0)) = Ok Scenario.offShape
  /\ Spec.has_length 2 Scenario.offShape = false
  /\ own (item Scenario.offShape 0) "format" = JString "Short Video"
  /\ Spec.has_key (own (item Scenario.offShape 0) "technicalSpecs") "cameraMovement" = true
  /\ Spec.stillShape (item Scenario.offShape 0) = false.
Proof. repeat split; vm_compute; reflexivity. Qed.

(** ** The CTA details *)

(** C3, as the code has it. The code writes no CTA text of its own: it puts
    the details and the rule to the provider. Given a style, two ideas and
    two concepts with titles, names and summaries that the templates print,
    the full-concept stage and the hook/CTA stage each make their request,
    and for every combination of a present or absent website and WhatsApp
    number the instruction of that request quotes each detail that is
    present and reads Not provided for each that is absent (an empty text
    counts as absent). The full-concept instruction states the four-way
    rule; the hook/CTA instruction states the cases of both and of only
    one. What either stage returns is what the provider answered,
    unchecked. *)
Theorem C3_cta_details_and_rule_are_put_to_the_provider :
  forall (ctaDetails : CtaDetails) (imagePart : GenerativePart)
         (brandGuidelines userConcept language : string) (selectedIdeas : list Value)
         (advertType : AdvertType) (selectedStyle concepts : Value),
    let idea0 := nth 0 selectedIdeas JUndefined in
    let idea1 := nth 1 selectedIdeas JUndefined in
    nullish selectedStyle = false ->
    nullish idea0 = false ->
    nullish idea1 = false ->
    nullish concepts = false ->
    nullish (item concepts 0) = false ->
    nullish (item concepts 1) = false ->
    forallb printable
      [ own selectedStyle "title"; own selectedStyle "summary";
        own idea0 "title"; own idea0 "summary"; own idea1 "title"; own idea1 "summary";
        own (item concepts 0) "optionName"; own (item concepts 0) "conceptSummary";
        own (item concepts 1) "optionName"; own (item concepts 1) "conceptSummary" ]
    = true ->
    exists (full hooks : Request) (k k' : Result Response -> Async Value),
      generateFullConcepts imagePart ctaDetails brandGuidelines userConcept selectedIdeas
        advertType selectedStyle = AwaitContent full k
      /\ generateHooksAndCtas imagePart concepts ctaDetails language
         = AwaitContent hooks k'
      /\ (forall u : string,
            url ctaDetails = Some u -> u <> EmptyString ->
            includes ("    - Website for CTA: " ++ dq ++ u ++ dq ++ nl) (prompt full) = true
            /\ includes ("    - Website URL: " ++ u ++ nl) (prompt hooks) = true)
      /\ (url ctaDetails = None \/ url ctaDetails = Some EmptyString ->
          includes ("    - Website for CTA: " ++ dq ++ "Not provided" ++ dq ++ nl)
            (prompt full) = true
          /\ includes ("    - Website URL: " ++ "Not provided" ++ nl) (prompt hooks) = true)
      /\ (forall n : string,
            whatsapp ctaDetails = Some n -> n <> EmptyString ->
            includes ("    - WhatsApp for CTA: " ++ dq ++ n ++ dq ++ nl) (prompt full) = true
            /\ includes ("    - WhatsApp Number: " ++ n ++ nl) (prompt hooks) = true)
      /\ (whatsapp ctaDetails = None \/ whatsapp ctaDetails = Some EmptyString ->
          includes ("    - WhatsApp for CTA: " ++ dq ++ "Not provided" ++ dq ++ nl)
            (prompt full) = true
          /\ includes ("    - WhatsApp Number: " ++ "Not provided" ++ nl) (prompt hooks)
             = true)
      /\ includes "The CTA must be context-aware: if a URL is given, use it. "
           (prompt full) = true
      /\ includes "If a WhatsApp number is given, use it. " (prompt full) = true
      /\ includes "If both, suggest a CTA that incorporates both. " (prompt full) = true
      /\ includes ("If neither, use a generic CTA like " ++ dq ++ "Learn More" ++ dq ++ ".")
           (prompt full) = true
      /\ includes ". These CTAs MUST intelligently incorporate the provided Website URL and/or WhatsApp number. "
           (prompt hooks) = true
      /\ includes ("If both are provided, create CTAs that leverage them together (e.g., "
                   ++ dq ++ "Shop now at our website or message us on WhatsApp!" ++ dq
                   ++ "). ") (prompt hooks) = true
      /\ includes "If only one is provided, use it directly." (prompt hooks) = true
      /\ (forall (w : World) (response : Response) (v : Value),
            respond w full = Ok response ->
            parsed response = Some v ->
            run w (generateFullConcepts imagePart ctaDetails brandGuidelines userConcept
                     selectedIdeas advertType selectedStyle) = Ok v)
      /\ (forall (w : World) (response : Response) (v : Value),
            respond w hooks = Ok response ->
            parsed response = Some v ->
            run w (generateHooksAndCtas imagePart concepts ctaDetails language) = Ok v).
Proof.
  intros ctaDetails imagePart brandGuidelines userConcept language selectedIdeas advertType
         selectedStyle concepts idea0 idea1 Hstyle Hidea0 Hidea1 Hconcepts Hc0 Hc1 _.
  pose (cfull := FullConcepts imagePart ctaDetails brandGuidelines userConcept selectedIdeas
                   advertType selectedStyle).
  pose (chooks := HooksAndCtas imagePart concepts ctaDetails language).
  assert (exists (full : Request) (k : Result Response -> Async Value),
            invoke cfull = AwaitContent full k
            /\ prompt full
               = fullConceptsPrompt
                   (match advertType with
                    | video => "short 8-10 second video"
                    | still => "still image"
                    end)
                   (match advertType with
                    | video => "$300,000 video commercial"
                    | still => "high-end commercial photoshoot"
                    end)
                   (ToString (own selectedStyle "title"))
                   (ToString (own selectedStyle "summary")) ctaDetails brandGuidelines
                   (ToString (own idea0 "title")) (ToString (own idea0 "summary"))
                   (ToString (own idea1 "title")) (ToString (own idea1 "summary")))
    as (full & k & Hfull & Hpfull).
  { cbn [invoke cfull]. unfold generateFullConcepts, prop. fold idea0 idea1.
    rewrite Hstyle, Hidea0, Hidea1. cbn [sync abind generateContent].
    eexists. eexists. split; [reflexivity|]. cbn [prompt]. destruct advertType; reflexivity. }
  assert (exists (hooks : Request) (k' : Result Response -> Async Value),
            invoke chooks = AwaitContent hooks k'
            /\ prompt hooks
               = hooksAndCtasPrompt language
                   (ToString (own (item concepts 0) "optionName"))
                   (ToString (own (item concepts 0) "conceptSummary"))
                   (ToString (own (item concepts 1) "optionName"))
                   (ToString (own (item concepts 1) "conceptSummary")) ctaDetails)
    as (hooks & k' & Hhooks & Hphooks).
  { cbn [invoke chooks]. unfold generateHooksAndCtas, at_index, prop.
    rewrite Hconcepts. cbn [sync abind]. rewrite Hc0. cbn [sync abind].
    rewrite Hc1. cbn [sync abind generateContent].
    eexists. eexists. split; [reflexivity|]. reflexivity. }
  exists full, hooks, k, k'.
  split; [exact Hfull|]. split; [exact Hhooks|].
  rewrite Hpfull, Hphooks. unfold fullConceptsPrompt, hooksAndCtasPrompt.
  split; [|split; [|split; [|split]]].
  - intros u -> Hu. rewrite (or_text_present u _ Hu). split; in_text.
  - intros [-> | ->]; cbn [or_text nonempty]; split; in_text.
  - intros n -> Hn. rewrite (or_text_present n _ Hn). split; in_text.
  - intros [-> | ->]; cbn [or_text nonempty]; split; in_text.
  - split; [in_text|]. split; [in_text|]. split; [in_text|]. split; [in_text|].
    split; [in_text|]. split; [in_text|]. split; [in_text|]. split.
    + intros w response v Hanswer Hparsed.
      change (run w (invoke cfull) = Ok v).
      rewrite (run_invoke w cfull full k Hfull), Hanswer, Hparsed. reflexivity.
    + intros w response v Hanswer Hparsed.
      change (run w (invoke chooks) = Ok v).
      rewrite (run_invoke w chooks hooks k' Hhooks), Hanswer, Hparsed. reflexivity.
Qed.

(** C3 fails as stated: with a website and no WhatsApp number, the same call
    of the full-concept stage returns a CTA that uses the website in one
    world, and in another a CTA that speaks of WhatsApp and leaves the
    website out. *)
Lemma C3_counterexample :
  run (Scenario.answering (JSON_stringify_2 Scenario.concepts))
      (invoke Scenario.fullConceptsCall) = Ok Scenario.concepts
  /\ run (Scenario.answering (JSON_stringify_2 Scenario.offRule))
         (invoke Scenario.fullConceptsCall) = Ok Scenario.offRule
  /\ own (item Scenario.concepts 0) "cta" = JString "Visit https://x.com"
  /\ own (item Scenario.offRule 0) "cta" = JString "Message us on WhatsApp"
  /\ includes "https://x.com" "Message us on WhatsApp" = false.
Proof. repeat split; vm_compute; reflexivity. Qed.

(** ** Running an async function *)

Lemma run_abind {A B : Type} (w : World) (t : Async A) (f : A -> Async B) :
  run w (abind t f)
  = match run w t with
    | Ok a => run w (f a)
    | Throw e => Throw e
    end.
Proof. induction t as [a | e | file k IH | request k IH]; simpl; auto. Qed.

Lemma run_try_catch {A : Type} (w : World) (t : Async A) (handler : Thrown -> Async A) :
  run w (try_catch t handler)
  = match run w t with
    | Ok a => Ok a
    | Throw e => run w (handler e)
    end.
Proof. induction t as [a | e | file k IH | request k IH]; simpl; auto. Qed.

Lemma requests_abind {A B : Type} (w : World) (t : Async A) (f : A -> Async B) :
  requests w (abind t f)
  = (requests w t
     ++ match run w t with
        | Ok a => requests w (f a)
        | Throw _ => []
        end)%list.
Proof.
  induction t as [a | e | file k IH | request k IH]; simpl; auto.
  rewrite IH. reflexivity.
Qed.

Lemma abind_sync_ok {A B : Type} (a : A) (f : A -> Async B) :
  abind (sync (Ok a)) f = f a.
Proof. reflexivity. Qed.

(** A try block that awaits the image part and a stage, and then commits:
    when the awaited part throws, the catch runs with what was thrown. *)
Lemma run_try_awaited {A : Type} (w : World) (file : File)
      (stage : GenerativePart -> Async Value) (commit : Value -> Async A)
      (rollback : Thrown -> Async A) (e : Thrown) :
  run w (abind (fileToGenerativePart file) stage) = Throw e ->
  run w (try_catch
           (abind (fileToGenerativePart file) (fun imagePart => abind (stage imagePart) commit))
           rollback)
  = run w (rollback e).
Proof.
  intros H. rewrite run_try_catch, run_abind. rewrite run_abind in H.
  destruct (run w (fileToGenerativePart file)) as [imagePart|e'].
  - rewrite run_abind, H. reflexivity.
  - injection H as ->. reflexivity.
Qed.

(** ** Rollback *)

(** C1, as the code has it. A run that has started and whose awaited part
    throws (the file cannot be read, the provider call fails, or the
    response does not parse) ends in the retry stage of its handler, with
    the error message set from what was thrown; for a response that does
    not parse, that is the invalid-response message of the stage. From the
    stage where the interface offers the run this is the stage it began
    in, except for ideas asked again from ideasGenerated, which end in
    stylesGenerated. The form inputs, the choices and the other artifacts
    are as before; what the handler writes before the call stays written:
    the idea stage has emptied the ideas, the full-concept stage has
    emptied the locked-in concepts, the hook/CTA stage has locked in the
    edited concepts, and the terminal stage has locked in the concepts with
    the selected copy. *)
Theorem C1_failed_run_ends_in_its_retry_stage :
  forall (r : StageRun) (s : State) (file : File)
         (call : GenerativePart -> StageCall) (w : World) (e : Thrown),
    starts r s file call ->
    run w (awaited file call) = Throw e ->
    exists s' : State,
      run w (handler r s) = Ok s'
      /\ stage s' = retryStage r
      /\ (offered r s = true ->
          stage s' = stage s \/ (r = RunIdeas /\ stage s = ideasGenerated))
      /\ error s' = Some (describe e)
      /\ (forall (imagePart : GenerativePart) (request : Request)
                 (k : Result Response -> Async Value) (response : Response),
            read_file w file = Ok imagePart ->
            invoke (call imagePart) = AwaitContent request k ->
            respond w request = Ok response ->
            parsed response = None ->
            error s'
            = Some ("An error occurred: The AI returned an invalid response for "
                    ++ subject (call imagePart) ++ "."))
      /\ formInputs s' = formInputs s
      /\ choices s' = choices s
      /\ advertStyles s' = advertStyles s
      /\ editableConcepts s' = editableConcepts s
      /\ hooksAndCtasForSelection s' = hooksAndCtasForSelection s
      /\ imageGenPrompts s' = imageGenPrompts s
      /\ videoScripts s' = videoScripts s
      /\ conceptIdeas s'
         = match r with
           | RunIdeas => JArray []
           | _ => conceptIdeas s
           end
      /\ adConcepts s'
         = match r with
           | RunFullConcepts _ => JArray []
           | RunHooksAndCtas => editableConcepts s
           | RunFinalOutputs concepts => concepts
           | _ => adConcepts s
           end.
Proof.
  intros r s file call w e Hstart Hfail.
  assert (forall (imagePart : GenerativePart) (request : Request)
                 (k : Result Response -> Async Value) (response : Response),
            read_file w file = Ok imagePart ->
            invoke (call imagePart) = AwaitContent request k ->
            respond w request = Ok response ->
            parsed response = None ->
            describe e
            = "An error occurred: The AI returned an invalid response for "
              ++ subject (call imagePart) ++ ".") as Hparse.
  { intros imagePart request k response Hread Hcall Hanswer Hnone.
    unfold awaited in Hfail. rewrite run_abind in Hfail. simpl in Hfail.
    rewrite Hread in Hfail. simpl in Hfail.
    rewrite (run_invoke w _ request k Hcall), Hanswer, Hnone in Hfail.
    injection Hfail as <-. reflexivity. }
  unfold awaited in Hfail.
  destruct Hstart as [s file type Himage Htype
                     | s file type Himage Hstyle Htype
                     | selectedIdeas s file type Himage Htype Hlen
                     | s file length Himage Hlength Hnonzero
                     | concepts s file type length Himage Htype Hlength Hnonzero];
    simpl handler.
  - unfold handleGenerateStyles. rewrite Himage, Htype.
    eexists. split.
    { rewrite (run_try_awaited w file _ _ _ e Hfail). simpl. reflexivity. }
    simpl. repeat split; try (intros; erewrite Hparse by eassumption; reflexivity).
    unfold offered. destruct (stage s); intros; try discriminate; left; reflexivity.
  - unfold handleGenerateIdeas. rewrite Himage, Hstyle, Htype.
    eexists. split.
    { rewrite (run_try_awaited w file _ _ _ e Hfail). simpl. reflexivity. }
    simpl. repeat split; try (intros; erewrite Hparse by eassumption; reflexivity).
    unfold offered. destruct (stage s); intros; try discriminate;
      [left; reflexivity | right; split; reflexivity].
  - unfold handleGenerateFullConcepts. rewrite Himage, Htype, Hlen. simpl Nat.eqb. cbv iota.
    eexists. split.
    { rewrite (run_try_awaited w file _ _ _ e Hfail). simpl. reflexivity. }
    simpl. repeat split; try (intros; erewrite Hparse by eassumption; reflexivity).
    unfold offered. destruct (stage s); intros; try discriminate; left; reflexivity.
  - unfold handleGenerateHooksAndCtasForSelection. rewrite Himage, Hlength.
    rewrite abind_sync_ok, Hnonzero.
    eexists. split.
    { rewrite (run_try_awaited w file _ _ _ e Hfail). simpl. reflexivity. }
    simpl. repeat split; try (intros; erewrite Hparse by eassumption; reflexivity).
    unfold offered. destruct (stage s); intros; try discriminate; left; reflexivity.
  - unfold handleFinalizeAndGenerateOutputs. rewrite Himage, Htype, Hlength.
    rewrite abind_sync_ok, Hnonzero.
    eexists. split.
    { destruct type; rewrite (run_try_awaited w file _ _ _ e Hfail); simpl; reflexivity. }
    simpl. repeat split; try (intros; erewrite Hparse by eassumption; reflexivity).
    unfold offered. destruct (stage s); intros; try discriminate; left; reflexivity.
Qed.

(** C1 fails as stated. After one edit of the first concept the hook/CTA
    stage is run and the response does not parse: the stage is the one the
    run began in and the error is the invalid-response message, but the
    locked-in concepts are no longer what they were: the failed run has
    committed the edited concepts. *)
Lemma C1_counterexample :
  exists s' : State,
    run (Scenario.answering Scenario.notJson)
        (handleGenerateHooksAndCtasForSelection Scenario.edited) = Ok s'
    /\ offered RunHooksAndCtas Scenario.edited = true
    /\ stage s' = stage Scenario.edited
    /\ error s'
       = Some "An error occurred: The AI returned an invalid response for hooks and CTAs."
    /\ adConcepts s' = editableConcepts Scenario.edited
    /\ adConcepts s' <> adConcepts Scenario.edited.
Proof.
  eexists. split; [vm_compute; reflexivity|].
  repeat split; try (vm_compute; reflexivity).
  intros H. vm_compute in H. discriminate H.
Qed.

(** The scenario is a run of the handlers: no step falls back. *)
Lemma scenario_is_a_run_of_the_handlers :
  run (Scenario.answering (JSON_stringify_2 Scenario.styles))
      (handleGenerateStyles Scenario.typeChosen) = Ok Scenario.stylesReady
  /\ run (Scenario.answering (JSON_stringify_2 Scenario.ideas))
         (handleGenerateIdeas Scenario.styleChosen) = Ok Scenario.ideasReady
  /\ run (Scenario.answering (JSON_stringify_2 Scenario.concepts))
         (handleGenerateFullConcepts Scenario.chosenIdeas Scenario.ideasReady)
     = Ok Scenario.conceptsReady
  /\ handleConceptEdit "technicalSpecs.mood" "calm" Scenario.conceptsReady
     = Done Scenario.edited
  /\ run (Scenario.answering (JSON_stringify_2 Scenario.hooksAndCtas))
         (handleGenerateHooksAndCtasForSelection Scenario.edited) = Ok Scenario.copyReady
  /\ stage Scenario.copyReady = selectingHooksAndCtas.
Proof. repeat split; vm_compute; reflexivity. Qed.

(** ** Induction on values *)

Lemma Value_induction (P : Value -> Prop) :
  P JUndefined ->
  P JNull ->
  (forall b, P (JBool b)) ->
  (forall lexeme, P (JNumber lexeme)) ->
  (forall s, P (JString s)) ->
  (forall items, Forall P items -> P (JArray items)) ->
  (forall ms, Forall (fun kv => P (snd kv)) ms -> P (JObject ms)) ->
  forall v, P v.
Proof.
  intros Hu Hn Hb Hnum Hs Ha Ho.
  fix IH 1.
  intros [| | b | lexeme | s | items | ms];
    [exact Hu | exact Hn | exact (Hb b) | exact (Hnum lexeme) | exact (Hs s) | | ].
  - apply Ha.
    refine ((fix go (xs : list Value) : Forall P xs :=
               match xs with
               | [] => Forall_nil P
               | x :: rest => Forall_cons x (IH x) (go rest)
               end) items).
  - apply Ho.
    refine ((fix go (xs : Members) : Forall (fun kv => P (snd kv)) xs :=
               match xs with
               | [] => Forall_nil _
               | (k, x) :: rest => Forall_cons (k, x) (IH x) (go rest)
               end) ms).
Qed.

(** ** The deep copy *)

Lemma is_json_object (ms : Members) : is_json (JObject ms) = members_json ms.
Proof.
  unfold members_json. induction ms as [|[k x] ms IH]; [reflexivity|].
  simpl in *. rewrite IH. reflexivity.
Qed.

Lemma copy_of_json (v : Value) : is_json v = true -> copy v = v.
Proof.
  induction v as [| | b | lexeme | s | items IH | ms IH] using Value_induction;
    intros H; try reflexivity.
  - simpl in *. f_equal. induction IH as [|x xs Hx _ IHxs]; [reflexivity|].
    simpl in H. apply andb_true_iff in H. destruct H as [H1 H2].
    simpl. rewrite (IHxs H2). f_equal.
    destruct x; try reflexivity; [discriminate H1 | exact (Hx H1) | exact (Hx H1)].
  - rewrite is_json_object in H. simpl. f_equal.
    induction IH as [|[k x] xs Hx _ IHxs]; [reflexivity|].
    simpl in H. apply andb_true_iff in H. destruct H as [H1 H2].
    rewrite (IHxs H2). simpl in Hx.
    destruct x; try reflexivity; [discriminate H1 | rewrite (Hx H1) | rewrite (Hx H1)];
      reflexivity.
Qed.

Lemma copy_is_json (v : Value) : v <> JUndefined -> is_json (copy v) = true.
Proof.
  induction v as [| | b | lexeme | s | items IH | ms IH] using Value_induction;
    intros H; try reflexivity; [contradiction | |]; clear H.
  - simpl. induction IH as [|x xs Hx _ IHxs]; [reflexivity|].
    simpl. rewrite IHxs. rewrite andb_true_r.
    destruct x; try reflexivity; apply Hx; discriminate.
  - cbn [copy]. rewrite is_json_object.
    induction IH as [|[k x] xs Hx _ IHxs]; [reflexivity|].
    simpl in Hx. destruct x; simpl; rewrite ?IHxs; try reflexivity.
    + rewrite andb_true_r. apply Hx. discriminate.
    + rewrite andb_true_r. apply Hx. discriminate.
Qed.

(** ** Assignment along a path *)

Lemma members_json_replace_own (k : string) (x : Value) (ms : Members) :
  members_json ms = true -> is_json x = true -> members_json (replace_own k x ms) = true.
Proof.
  unfold members_json. intros H Hx. induction ms as [|[k' v'] ms IH]; [reflexivity|].
  simpl in *. apply andb_true_iff in H. destruct H as [H1 H2].
  destruct (String.eqb k k'); simpl; rewrite ?Hx, ?H1, ?H2, ?IH; auto.
Qed.

Lemma members_json_insert_index (n : N) (k : string) (x : Value) (ms : Members) :
  members_json ms = true -> is_json x = true -> members_json (insert_index n k x ms) = true.
Proof.
  unfold members_json. intros H Hx. induction ms as [|[k' v'] ms IH]; simpl.
  - rewrite Hx. reflexivity.
  - simpl in H. pose proof H as H'. apply andb_true_iff in H'. destruct H' as [H1 H2].
    destruct (array_index k') as [n'|]; [destruct (n <? n')%N|]; simpl;
      rewrite ?Hx, ?H1, ?H2, ?IH; auto.
Qed.

Lemma members_json_define_own (k : string) (x : Value) (ms : Members) :
  members_json ms = true -> is_json x = true -> members_json (define_own k x ms) = true.
Proof.
  intros H Hx. unfold define_own. destruct (has_own k ms).
  - apply members_json_replace_own; assumption.
  - destruct (array_index k).
    + apply members_json_insert_index; assumption.
    + unfold members_json in *. rewrite forallb_app, H. simpl. rewrite Hx. reflexivity.
Qed.

Lemma assign_computed_object (c : Value) (k : string) (x c' : Value) :
  assign_computed c k x = Done c' ->
  exists ms ms', c = JObject ms /\ c' = JObject ms' /\ assign_member ms k x = Done ms'.
Proof.
  destruct c; simpl; try discriminate.
  destruct (assign_member members k x) as [ms'| |] eqn:E; simpl; try discriminate.
  intros H. injection H as <-. eauto.
Qed.

Lemma assign_member_json (ms : Members) (k : string) (x : Value) (ms' : Members) :
  members_json ms = true -> is_json x = true ->
  assign_member ms k x = Done ms' -> members_json ms' = true.
Proof.
  intros H Hx. unfold assign_member. destruct (has_own k ms).
  - intros E. injection E as <-. apply members_json_replace_own; assumption.
  - destruct (String.eqb k "__proto__").
    + destruct x; try discriminate; intros E; injection E as <-; exact H.
    + intros E. injection E as <-. apply members_json_define_own; assumption.
Qed.

Lemma assign_member_again (ms : Members) (k : string) (x : Value) (ms' : Members) :
  assign_member ms k x = Done ms' -> assign_member ms' k x = Done ms'.
Proof.
  unfold assign_member. destruct (has_own k ms) eqn:Hown.
  - intros E. injection E as <-.
    assert (lookup k (replace_own k x ms) = Some x) as Hl
      by (apply lookup_replace_own_same, Hown).
    unfold has_own. rewrite Hl. rewrite (replace_own_same _ _ _ Hl). reflexivity.
  - destruct (String.eqb k "__proto__") eqn:Hproto.
    + destruct x; try discriminate; intros E; injection E as <-;
        rewrite Hown; reflexivity.
    + intros E. injection E as <-. rewrite has_own_define_own_same.
      rewrite (replace_own_same _ _ _ (lookup_define_own_same k x ms)). reflexivity.
Qed.

Lemma obind_done {A B : Type} (t : Outcome A) (f : A -> Outcome B) (b : B) :
  obind t f = Done b -> exists a, t = Done a /\ f a = Done b.
Proof. destruct t; simpl; try discriminate. eauto. Qed.

Ltac obind_inv H :=
  repeat match type of H with
         | obind _ _ = Done _ =>
             let a := fresh "a" in
             let E := fresh "E" in
             apply obind_done in H; destruct H as (a & E & H)
         end.

Lemma assign_path_object (path : list string) (x c c' : Value) :
  path <> [] -> assign_path path x c = Done c' ->
  exists ms ms', c = JObject ms /\ c' = JObject ms'.
Proof.
  destruct path as [|k rest]; [contradiction|]. intros _.
  destruct rest as [|k2 rest].
  - simpl. intros H. apply assign_computed_object in H.
    destruct H as (ms & ms' & -> & -> & _). eauto.
  - cbn [assign_path]. intros H. obind_inv H.
    destruct c; try discriminate E.
    exists members.
    destruct a; obind_inv H;
      apply assign_computed_object in H; destruct H as (? & ms' & _ & -> & _); eauto.
Qed.

Lemma lookup_json (k : string) (ms : Members) (v : Value) :
  members_json ms = true -> lookup k ms = Some v -> is_json v = true.
Proof.
  unfold members_json. induction ms as [|[k' v'] ms IH]; simpl; [discriminate|].
  intros H. apply andb_true_iff in H. destruct H as [H1 H2].
  destruct (String.eqb k k'); [intros E; injection E as <-; exact H1 | exact (IH H2)].
Qed.

Lemma read_member_json (ms : Members) (k : string) (member : Value) :
  members_json ms = true -> read_member ms k = Done member ->
  is_json member = true \/ (member = JUndefined /\ lookup k ms = None /\ inherited k = false).
Proof.
  intros Hms. unfold read_member. destruct (lookup k ms) eqn:El.
  - intros E. injection E as <-. left. exact (lookup_json k ms v Hms El).
  - destruct (inherited k); [discriminate|]. intros E. injection E as <-. auto.
Qed.

Lemma assign_path_json (path : list string) (x c c' : Value) :
  is_json x = true -> is_json c = true ->
  assign_path path x c = Done c' -> is_json c' = true.
Proof.
  intros Hx. revert c c'. induction path as [|k rest IH]; intros c c' Hc.
  - simpl. intros H. injection H as <-. exact Hc.
  - destruct rest as [|k2 rest].
    + simpl. intros H. apply assign_computed_object in H.
      destruct H as (ms & ms' & -> & -> & H). rewrite is_json_object in *.
      exact (assign_member_json ms k x ms' Hc Hx H).
    + cbn [assign_path]. intros H.
      apply obind_done in H. destruct H as (member & Hread & H).
      destruct c as [| | | | | |ms]; try discriminate Hread. simpl in Hread.
      rewrite is_json_object in Hc.
      assert (forall member level member',
                is_json member = true ->
                members_json level = true ->
                assign_path (k2 :: rest) x member = Done member' ->
                assign_computed (JObject level) k member' = Done c' ->
                is_json c' = true) as Hstep.
      { intros m level m' Hm Hl Hpath Hput.
        apply assign_computed_object in Hput.
        destruct Hput as (ms1 & ms2 & Heq & -> & Hput). injection Heq as <-.
        rewrite is_json_object.
        exact (assign_member_json level k m' ms2 Hl (IH m m' Hm Hpath) Hput). }
      destruct (read_member_json ms k member Hc Hread) as [Hm | (-> & _ & _)].
      * destruct member; try discriminate Hm;
          apply obind_done in H; destruct H as (m' & Hpath & H);
          exact (Hstep _ _ _ Hm Hc Hpath H).
      * apply obind_done in H. destruct H as (level & Hlevel & H).
        apply obind_done in H. destruct H as (m' & Hpath & H).
        apply assign_computed_object in Hlevel.
        destruct Hlevel as (ms1 & ms2 & Heq & -> & Hlevel). injection Heq as <-.
        refine (Hstep (JObject []) ms2 m' eq_refl _ Hpath H).
        exact (assign_member_json ms k (JObject []) ms2 Hc eq_refl Hlevel).
Qed.

Lemma assign_computed_again (c : Value) (k : string) (x c' : Value) :
  assign_computed c k x = Done c' -> assign_computed c' k x = Done c'.
Proof.
  intros H. apply assign_computed_object in H.
  destruct H as (ms & ms' & -> & -> & H). simpl.
  rewrite (assign_member_again ms k x ms' H). reflexivity.
Qed.

Lemma assign_member_reads_back (ms : Members) (k : string) (x : Value) (ms' : Members) :
  assign_member ms k x = Done ms' ->
  (has_own k ms = true \/ String.eqb k "__proto__" = false) ->
  lookup k ms' = Some x.
Proof.
  unfold assign_member. intros H Hk. destruct (has_own k ms) eqn:Hown.
  - injection H as <-. apply lookup_replace_own_same, Hown.
  - destruct Hk as [Hk | Hk]; [discriminate|]. rewrite Hk in H.
    injection H as <-. apply lookup_define_own_same.
Qed.

Lemma assign_member_keeps_others (ms : Members) (k k' : string) (x : Value) (ms' : Members) :
  assign_member ms k x = Done ms' -> k' <> k -> lookup k' ms' = lookup k' ms.
Proof.
  unfold assign_member. intros H Hne. destruct (has_own k ms).
  - injection H as <-. apply lookup_replace_own_other, Hne.
  - destruct (String.eqb k "__proto__").
    + destruct x; try discriminate H; injection H as <-; reflexivity.
    + injection H as <-. apply lookup_define_own_other, Hne.
Qed.

(** Editing twice along the same path with the same value is editing once. *)
Lemma assign_path_again (path : list string) (x c c' : Value) :
  assign_path path x c = Done c' -> assign_path path x c' = Done c'.
Proof.
  revert c c'. induction path as [|k rest IH]; intros c c'.
  - simpl. intros H. injection H as <-. reflexivity.
  - destruct rest as [|k2 rest].
    + simpl. apply assign_computed_again.
    + cbn [assign_path]. intros H.
      apply obind_done in H. destruct H as (member & Hread & H).
      destruct c as [| | | | | |ms]; try discriminate Hread. simpl in Hread.
      assert (forall level member member',
                assign_path (k2 :: rest) x member = Done member' ->
                has_own k level = true ->
                assign_computed (JObject level) k member' = Done c' ->
                obind (read_computed c' k)
                  (fun m =>
                     match m with
                     | JUndefined =>
                         obind (assign_computed c' k (JObject [])) (fun level =>
                         obind (assign_path (k2 :: rest) x (JObject [])) (fun m' =>
                         assign_computed level k m'))
                     | _ =>
                         obind (assign_path (k2 :: rest) x m) (fun m' =>
                         assign_computed c' k m')
                     end) = Done c') as Hstep.
      { intros level m m' Hpath Hown Hput.
        pose proof (IH m m' Hpath) as Hagain.
        destruct (assign_path_object (k2 :: rest) x m m' ltac:(discriminate) Hpath)
          as (inner & inner' & -> & ->).
        pose proof (assign_computed_again _ _ _ _ Hput) as Hput'.
        apply assign_computed_object in Hput.
        destruct Hput as (ms1 & ms2 & Heq & -> & Hput). injection Heq as <-.
        assert (lookup k ms2 = Some (JObject inner')) as Hl
          by (apply (assign_member_reads_back level k _ ms2 Hput); left; exact Hown).
        simpl. unfold read_member. rewrite Hl. simpl.
        simpl in Hagain. rewrite Hagain. simpl. simpl in Hput'. exact Hput'. }
      unfold read_member in Hread. destruct (lookup k ms) as [v|] eqn:El.
      * injection Hread as <-.
        assert (has_own k ms = true) as Hown by (unfold has_own; rewrite El; reflexivity).
        destruct v.
        -- apply obind_done in H. destruct H as (level & Hlevel & H).
           apply obind_done in H. destruct H as (m' & Hpath & H).
           apply assign_computed_object in Hlevel.
           destruct Hlevel as (ms1 & ms2 & Heq & -> & Hlevel). injection Heq as <-.
           refine (Hstep ms2 (JObject []) m' Hpath _ H).
           unfold has_own.
           rewrite (assign_member_reads_back ms k _ ms2 Hlevel (or_introl Hown)). reflexivity.
        -- apply obind_done in H. destruct H as (m' & Hpath & H).
           exact (Hstep ms _ m' Hpath Hown H).
        -- apply obind_done in H. destruct H as (m' & Hpath & H).
           exact (Hstep ms _ m' Hpath Hown H).
        -- apply obind_done in H. destruct H as (m' & Hpath & H).
           exact (Hstep ms _ m' Hpath Hown H).
        -- apply obind_done in H. destruct H as (m' & Hpath & H).
           exact (Hstep ms _ m' Hpath Hown H).
        -- apply obind_done in H. destruct H as (m' & Hpath & H).
           exact (Hstep ms _ m' Hpath Hown H).
        -- apply obind_done in H. destruct H as (m' & Hpath & H).
           exact (Hstep ms _ m' Hpath Hown H).
      * destruct (inherited k) eqn:Hinh; [discriminate|]. injection Hread as <-.
        apply obind_done in H. destruct H as (level & Hlevel & H).
        apply obind_done in H. destruct H as (m' & Hpath & H).
        apply assign_computed_object in Hlevel.
        destruct Hlevel as (ms1 & ms2 & Heq & -> & Hlevel). injection Heq as <-.
        refine (Hstep ms2 (JObject []) m' Hpath _ H).
        unfold has_own.
        assert (String.eqb k "__proto__" = false) as Hproto.
        { destruct (String.eqb k "__proto__") eqn:Ep; [|reflexivity].
          apply String.eqb_eq in Ep. subst k. discriminate Hinh. }
        rewrite (assign_member_reads_back ms k _ ms2 Hlevel (or_intror Hproto)). reflexivity.
Qed.

Lemma own_object (ms : Members) (k : string) :
  own (JObject ms) k = match lookup k ms with Some x => x | None => JUndefined end.
Proof. reflexivity. Qed.

Lemma leaf_of_nothing (k : string) (rest : list string) :
  leaf (JObject []) (k :: rest) = leaf JUndefined (k :: rest).
Proof. reflexivity. Qed.

Lemma assign_path_step (k k2 : string) (rest : list string) (x c : Value) :
  assign_path (k :: k2 :: rest) x c
  = obind (read_computed c k) (fun member =>
      match member with
      | JUndefined =>
          obind (assign_computed c k (JObject [])) (fun level =>
          obind (assign_path (k2 :: rest) x (JObject [])) (fun member' =>
          assign_computed level k member'))
      | _ =>
          obind (assign_path (k2 :: rest) x member) (fun member' =>
          assign_computed c k member')
      end).
Proof. reflexivity. Qed.

(** The edit along an addressable path: it returns, the value sits at the
    path, and every path that parts ways with it reads as before. *)
Lemma assign_path_addressed (path : list string) (x : Value) (ms : Members) :
  addressable ms path = true ->
  exists ms' : Members,
    assign_path path x (JObject ms) = Done (JObject ms')
    /\ leaf (JObject ms') path = x
    /\ (forall q : list string,
          diverge path q = true -> leaf (JObject ms') q = leaf (JObject ms) q).
Proof.
  revert ms. induction path as [|k rest IH]; intros ms Haddr; [discriminate|].
  destruct rest as [|k2 rest].
  - simpl in Haddr.
    assert (exists ms', assign_member ms k x = Done ms') as [ms' Hassign].
    { unfold assign_member. destruct (has_own k ms); [eauto|].
      simpl in Haddr. apply negb_true_iff in Haddr. rewrite Haddr. eauto. }
    assert (has_own k ms = true \/ String.eqb k "__proto__" = false) as Hk.
    { apply orb_true_iff in Haddr. destruct Haddr as [H | H]; [left; exact H|].
      right. apply negb_true_iff in H. exact H. }
    exists ms'. simpl. rewrite Hassign. simpl. split; [reflexivity|]. split.
    + rewrite (assign_member_reads_back ms k x ms' Hassign Hk). reflexivity.
    + intros [|y rq]; [discriminate|]. simpl.
      destruct (String.eqb k y) eqn:E; [discriminate|]. intros _.
      apply String.eqb_neq in E.
      rewrite (assign_member_keeps_others ms k y x ms' Hassign) by congruence.
      reflexivity.
  - cbn [addressable] in Haddr. rewrite assign_path_step. cbn [read_computed].
    unfold read_member.
    destruct (lookup k ms) as [member|] eqn:El.
    + destruct member as [| | | | | |inner]; try discriminate Haddr.
      destruct (IH inner Haddr) as (inner' & Hpath & Hleaf & Hframe).
      cbn [obind]. rewrite Hpath. cbn [obind assign_computed].
      assert (has_own k ms = true) as Hown by (unfold has_own; rewrite El; reflexivity).
      unfold assign_member. rewrite Hown. cbn [obind].
      exists (replace_own k (JObject inner') ms).
      split; [reflexivity|]. split.
      * cbn [leaf]. rewrite own_object, (lookup_replace_own_same k _ ms Hown). exact Hleaf.
      * intros [|y rq]; [discriminate|]. cbn [diverge leaf]. rewrite !own_object.
        destruct (String.eqb k y) eqn:E.
        -- apply String.eqb_eq in E. subst y. intros Hd.
           rewrite (lookup_replace_own_same k _ ms Hown), El. exact (Hframe rq Hd).
        -- intros _. apply String.eqb_neq in E.
           rewrite (lookup_replace_own_other k y _ ms) by congruence. reflexivity.
    + apply andb_true_iff in Haddr. destruct Haddr as [Hinh Haddr].
      apply negb_true_iff in Hinh. rewrite Hinh. cbn [obind].
      assert (has_own k ms = false) as Hown by (unfold has_own; rewrite El; reflexivity).
      assert (String.eqb k "__proto__" = false) as Hproto.
      { destruct (String.eqb k "__proto__") eqn:Ep; [|reflexivity].
        apply String.eqb_eq in Ep. subst k. discriminate Hinh. }
      cbn [assign_computed]. unfold assign_member at 1. rewrite Hown, Hproto.
      cbn [obind].
      destruct (IH [] Haddr) as (inner' & Hpath & Hleaf & Hframe).
      rewrite Hpath. cbn [obind assign_computed].
      unfold assign_member. rewrite has_own_define_own_same. cbn [obind].
      exists (replace_own k (JObject inner') (define_own k (JObject []) ms)).
      split; [reflexivity|]. split.
      * cbn [leaf]. rewrite own_object.
        rewrite (lookup_replace_own_same k _ _ (has_own_define_own_same k _ ms)).
        exact Hleaf.
      * intros [|y rq]; [discriminate|]. cbn [diverge leaf]. rewrite !own_object.
        destruct (String.eqb k y) eqn:E.
        -- apply String.eqb_eq in E. subst y. intros Hd.
           rewrite (lookup_replace_own_same k _ _ (has_own_define_own_same k _ ms)), El.
           rewrite (Hframe rq Hd).
           destruct rq as [|y' rq']; [destruct rest; discriminate Hd | reflexivity].
        -- intros _. apply String.eqb_neq in E.
           rewrite (lookup_replace_own_other k y _ _) by congruence.
           rewrite (lookup_define_own_other k y _ ms) by congruence. reflexivity.
Qed.

(** ** The concept editor's mutation *)

Lemma split_dot_nonempty (s : string) : split_dot s <> [].
Proof.
  induction s as [|c r IH]; simpl; [discriminate|].
  destruct (Ascii.eqb c "."%char); [discriminate|].
  destruct (split_dot r); discriminate.
Qed.

Lemma nth_replace_nth (i : nat) (x d : Value) (items : list Value) :
  i < List.length items -> nth i (replace_nth i x items) d = x.
Proof.
  revert i. induction items as [|y items IH]; intros [|i] H; simpl in *; try lia.
  - reflexivity.
  - apply IH. lia.
Qed.

Lemma replace_nth_again (i : nat) (x : Value) (items : list Value) :
  replace_nth i x (replace_nth i x items) = replace_nth i x items.
Proof.
  revert i. induction items as [|y items IH]; intros [|i]; simpl; try reflexivity.
  rewrite IH. reflexivity.
Qed.

Lemma forallb_replace_nth (f : Value -> bool) (i : nat) (x : Value) (items : list Value) :
  forallb f items = true -> f x = true -> forallb f (replace_nth i x items) = true.
Proof.
  intros H Hx. revert i. induction items as [|y items IH]; intros [|i]; simpl in *;
    try reflexivity; apply andb_true_iff in H; destruct H as [H1 H2].
  - rewrite Hx, H2. reflexivity.
  - rewrite H1, (IH H2). reflexivity.
Qed.

Lemma nth_in_range (i : nat) (items : list Value) (d x : Value) :
  nth i items d = x -> x <> d -> i < List.length items.
Proof.
  intros H Hne. destruct (Nat.lt_ge_cases i (List.length items)) as [Hlt | Hge]; [exact Hlt|].
  rewrite (nth_overflow items d Hge) in H. congruence.
Qed.

Lemma nth_json (i : nat) (items : list Value) :
  forallb is_json items = true -> i < List.length items ->
  is_json (nth i items JUndefined) = true.
Proof.
  intros H Hi. rewrite forallb_forall in H. apply H, nth_In, Hi.
Qed.

Lemma deep_copy_ok (v c : Value) :
  deep_copy v = Ok c -> c = copy v /\ is_json c = true /\ c <> JUndefined.
Proof.
  intros H.
  assert (v <> JUndefined) as Hv by (intros ->; discriminate H).
  assert (deep_copy v = Ok (copy v)) as Heq by (destruct v; [contradiction | reflexivity ..]).
  rewrite Heq in H. injection H as <-.
  split; [reflexivity | split; [exact (copy_is_json v Hv)|]].
  destruct v; [contradiction | discriminate ..].
Qed.

Lemma deep_copy_of_json (v : Value) :
  is_json v = true -> deep_copy v = Ok v.
Proof.
  intros H. destruct v; try discriminate H; unfold deep_copy; rewrite (copy_of_json _ H);
    reflexivity.
Qed.

(** ** What JSON.parse returns *)

Ltac split_match H :=
  repeat match type of H with
         | context [match ?x with _ => _ end] => destruct x eqn:?; try discriminate H
         | context [if ?x then _ else _] => destruct x eqn:?; try discriminate H
         end.

Lemma forallb_reversed (f : Value -> bool) (xs : list Value) :
  forallb f (rev xs) = forallb f xs.
Proof.
  induction xs as [|x xs IH]; [reflexivity|]. simpl.
  rewrite forallb_app, IH. simpl. rewrite andb_true_r. apply andb_comm.
Qed.

Lemma parse_gives_json (fuel : nat) :
  (forall s v r, parse_value fuel s = Some (v, r) -> is_json v = true)
  /\ (forall s acc v r,
        forallb is_json acc = true ->
        parse_elements fuel s acc = Some (v, r) -> is_json v = true)
  /\ (forall s acc v r,
        members_json acc = true ->
        parse_members fuel s acc = Some (v, r) -> is_json v = true).
Proof.
  induction fuel as [|fuel (IHv & IHe & IHm)].
  - repeat split; intros; discriminate.
  - split; [|split].
    + intros s v r H. cbn [parse_value] in H. split_match H;
        try (injection H as <- <-; reflexivity).
      * exact (IHm _ [] _ _ eq_refl H).
      * exact (IHe _ [] _ _ eq_refl H).
    + intros s acc v r Hacc H. cbn [parse_elements] in H. split_match H.
      * eapply IHe; [|exact H].
        simpl. rewrite Hacc, andb_true_r. eapply IHv. eassumption.
      * injection H as <- <-.
        match goal with
        | |- is_json (JArray ?items) = true => change (forallb is_json items = true)
        end.
        rewrite forallb_app, forallb_reversed, Hacc. simpl.
        rewrite andb_true_r. eapply IHv. eassumption.
    + intros s acc v r Hacc H. cbn [parse_members] in H. split_match H.
      * eapply IHm; [|exact H]. apply members_json_define_own; [exact Hacc|].
        eapply IHv. eassumption.
      * injection H as <- <-. rewrite is_json_object.
        apply members_json_define_own; [exact Hacc|]. eapply IHv. eassumption.
Qed.

(** Whatever JSON.parse returns is a JSON tree: no undefined in it. *)
Lemma JSON_parse_gives_json (text : string) (v : Value) :
  JSON_parse text = Some v -> is_json v = true.
Proof.
  unfold JSON_parse. intros H.
  destruct (parse_value (2 * String.length text + 2) text) as [[v' r]|] eqn:E;
    [|discriminate].
  destruct (skip_ws r); [|discriminate]. injection H as <-.
  exact (proj1 (parse_gives_json _) _ _ _ E).
Qed.

(** A stage that returns, returns a JSON tree. *)
Lemma stage_returns_json (w : World) (c : StageCall) (v : Value) :
  run w (invoke c) = Ok v -> is_json v = true.
Proof.
  intros H.
  destruct (invoke_shape c) as [[e Hfail] | (request & k & Hcall & _)].
  - rewrite Hfail in H. discriminate H.
  - rewrite (run_invoke w c request k Hcall) in H.
    destruct (respond w request) as [response|]; [|discriminate H].
    unfold parsed in H.
    destruct (text response) as [t|]; [|discriminate H].
    destruct (JSON_parse (trim t)) as [v'|] eqn:E; [|discriminate H].
    injection H as <-. exact (JSON_parse_gives_json _ _ E).
Qed.

(** ** The working copy of the concepts *)

(** The full-concept stage, when what it awaits returns [concepts]: the
    review opens on the first concept, and the working copy equals the
    locked-in concepts, which are what the stage returned. *)
Lemma full_concepts_open_the_review (selectedIdeas : list Value) (s : State)
      (file : File) (call : GenerativePart -> StageCall) (w : World) (concepts : Value) :
  starts (RunFullConcepts selectedIdeas) s file call ->
  run w (awaited file call) = Ok concepts ->
  exists s' : State,
    run w (handleGenerateFullConcepts selectedIdeas s) = Ok s'
    /\ stage s' = reviewingConcepts
    /\ reviewIndex s' = 0
    /\ adConcepts s' = concepts
    /\ editableConcepts s' = concepts
    /\ is_json concepts = true.
Proof.
  intros Hstart Hrun. inversion Hstart as [| | ideas s0 file0 type Himage Htype Hlen | |]; subst.
  unfold awaited in Hrun. rewrite run_abind in Hrun.
  destruct (run w (fileToGenerativePart file)) as [imagePart|] eqn:Hpart; [|discriminate Hrun].
  pose proof (stage_returns_json _ _ _ Hrun) as Hjson.
  unfold handleGenerateFullConcepts. rewrite Himage, Htype, Hlen. simpl Nat.eqb. cbv iota.
  rewrite run_try_catch, run_abind, Hpart, run_abind.
  simpl invoke in Hrun. rewrite Hrun.
  rewrite (deep_copy_of_json _ Hjson).
  eexists. split; [reflexivity|]. repeat split. exact Hjson.
Qed.

(** X19. Whatever store an edit returns is a JSON tree. *)
Lemma edit_returns_json (s s' : State) (field value : string) :
  handleConceptEdit field value s = Done s' ->
  is_json (editableConcepts s') = true.
Proof.
  unfold handleConceptEdit, editConcepts. intros H.
  apply obind_done in H. destruct H as (store & H & Hs').
  injection Hs' as <-. cbn [editableConcepts setEditableConcepts].
  apply obind_done in H. destruct H as (newConcepts & Hcopy & H).
  apply obind_done in H. destruct H as (concept & Hitem & H).
  apply obind_done in H. destruct H as (edited & Hpath & H).
  injection H as <-.
  destruct (deep_copy (editableConcepts s)) as [nc|] eqn:Hdc; [|discriminate Hcopy].
  injection Hcopy as ->.
  destruct (deep_copy_ok _ _ Hdc) as (_ & Hjson & _).
  unfold at_index in Hitem.
  destruct (nullish newConcepts) eqn:Hnull; [discriminate Hitem|].
  injection Hitem as <-.
  destruct (assign_path_object _ _ _ _ (split_dot_nonempty field) Hpath)
    as (ms & ms' & Hc & ->).
  destruct newConcepts as [| | | | |items|members]; try discriminate Hc.
  - simpl in Hc. destruct (String.get (reviewIndex s) s0); discriminate Hc.
  - simpl in Hc. cbn [with_item].
    assert (reviewIndex s < List.length items) as Hi
      by (apply (nth_in_range _ items JUndefined (JObject ms) Hc); discriminate).
    change (forallb is_json (replace_nth (reviewIndex s) (JObject ms') items) = true).
    apply forallb_replace_nth; [exact Hjson|].
    apply (assign_path_json (split_dot field) (JString value) (JObject ms));
      [reflexivity | | rewrite <- Hc; exact Hpath].
    rewrite <- Hc. apply nth_json; [exact Hjson | exact Hi].
  - simpl in Hc. destruct (lookup (of_nat (reviewIndex s)) members) eqn:El; [|discriminate Hc].
    subst v. cbn [with_item]. rewrite is_json_object in *.
    apply members_json_replace_own; [exact Hjson|].
    apply (assign_path_json (split_dot field) (JString value) (JObject ms));
      [reflexivity | exact (lookup_json _ _ _ Hjson El) |].
    simpl item in Hpath. rewrite El in Hpath. exact Hpath.
Qed.

(** Running the updater on its own result gives that result again. *)
Lemma editConcepts_again (i : nat) (field value : string) (prev store : Value) :
  editConcepts i field value prev = Done store ->
  editConcepts i field value store = Done store.
Proof.
  unfold editConcepts. intros H.
  apply obind_done in H. destruct H as (newConcepts & Hcopy & H).
  apply obind_done in H. destruct H as (concept & Hitem & H).
  apply obind_done in H. destruct H as (edited & Hpath & H).
  injection H as <-.
  destruct (deep_copy prev) as [nc|] eqn:Hdc; [|discriminate Hcopy].
  injection Hcopy as ->.
  destruct (deep_copy_ok _ _ Hdc) as (_ & Hjson & _).
  unfold at_index in Hitem.
  destruct (nullish newConcepts) eqn:Hnull; [discriminate Hitem|].
  injection Hitem as <-.
  destruct (assign_path_object _ _ _ _ (split_dot_nonempty field) Hpath)
    as (ms & ms' & Hc & ->).
  pose proof (assign_path_again _ _ _ _ Hpath) as Hagain.
  assert (is_json (JObject ms') = true) as Hedited.
  { apply (assign_path_json (split_dot field) (JString value) (item newConcepts i));
      [reflexivity | | exact Hpath].
    rewrite Hc. destruct newConcepts as [| | | | |items|members]; try discriminate Hc.
    - simpl in Hc. destruct (String.get i s); discriminate Hc.
    - simpl in Hc. rewrite <- Hc. apply nth_json; [exact Hjson|].
      apply (nth_in_range i items JUndefined (JObject ms) Hc). discriminate.
    - simpl in Hc. rewrite is_json_object in Hjson.
      destruct (lookup (of_nat i) members) eqn:El; [|discriminate Hc]. subst v.
      exact (lookup_json _ _ _ Hjson El). }
  destruct newConcepts as [| | | | |items|members]; try discriminate Hc.
  - simpl in Hc. destruct (String.get i s); discriminate Hc.
  - simpl in Hc.
    assert (i < List.length items) as Hi
      by (apply (nth_in_range i items JUndefined (JObject ms) Hc); discriminate).
    cbn [with_item].
    rewrite deep_copy_of_json
      by (simpl; apply forallb_replace_nth; [exact Hjson | exact Hedited]).
    cbn [lift obind at_index nullish item]. rewrite (nth_replace_nth i _ _ items Hi).
    rewrite Hagain. cbn [obind with_item]. rewrite replace_nth_again. reflexivity.
  - simpl in Hc. destruct (lookup (of_nat i) members) eqn:El; [|discriminate Hc]. subst v.
    assert (has_own (of_nat i) members = true) as Hown
      by (unfold has_own; rewrite El; reflexivity).
    cbn [with_item]. rewrite is_json_object in Hjson.
    rewrite deep_copy_of_json
      by (rewrite is_json_object; apply members_json_replace_own; assumption).
    cbn [lift obind at_index nullish item].
    rewrite (lookup_replace_own_same _ _ _ Hown). rewrite Hagain. cbn [obind with_item].
    rewrite (replace_own_same _ _ _ (lookup_replace_own_same _ (JObject ms') _ Hown)).
    reflexivity.
Qed.

(** C7. Calling the mutation twice in succession with the same field path
    and the same value ends as calling it once: the second call returns the
    state the first one returned, and if the first call throws (or leaves
    the modelled fragment) so does the pair. *)
Theorem C7_edit_is_idempotent :
  forall (s : State) (field value : string),
    obind (handleConceptEdit field value s) (handleConceptEdit field value)
    = handleConceptEdit field value s.
Proof.
  intros s field value. unfold handleConceptEdit at 1 3.
  destruct (editConcepts (reviewIndex s) field value (editableConcepts s)) as [store| |] eqn:E;
    try reflexivity.
  cbn [obind]. unfold handleConceptEdit. cbn [reviewIndex editableConcepts setEditableConcepts].
  rewrite (editConcepts_again _ _ _ _ _ E). reflexivity.
Qed.



(** Every field name of the editor is a path that addresses a leaf of a
    concept whose technicalSpecs is an object, or is missing. *)
Lemma field_names_address_a_leaf (video : bool) (ms : Members) (field : string) :
  In field (fieldNames video) ->
  (lookup "technicalSpecs" ms = None
   \/ exists inner, lookup "technicalSpecs" ms = Some (JObject inner)) ->
  addressable ms (split_dot field) = true.
Proof.
  intros Hin Hspecs.
  assert (forall k, String.eqb k "__proto__" = false -> addressable ms [k] = true) as Hone.
  { intros k Hk. simpl. rewrite Hk. apply orb_true_r. }
  assert (forall k, String.eqb k "__proto__" = false ->
                    addressable ms ["technicalSpecs"; k] = true) as Htwo.
  { intros k Hk. cbn [addressable].
    destruct Hspecs as [-> | [inner ->]]; simpl; rewrite Hk; [reflexivity | apply orb_true_r]. }
  unfold fieldNames in Hin. apply in_app_or in Hin. destruct Hin as [Hin | Hin].
  - simpl in Hin.
    repeat (destruct Hin as [<- | Hin]; [first [apply Hone | apply Htwo]; reflexivity|]).
    destruct Hin.
  - destruct video; simpl in Hin; [|destruct Hin].
    repeat (destruct Hin as [<- | Hin]; [apply Htwo; reflexivity|]).
    destruct Hin.
Qed.

(** X20. Every field name the editor reports under can be edited, whatever
    the format of the concept under edit: on a store of JSON data, with no
    number but plain ones, whose concept under edit is an object with
    technicalSpecs an object, or with no technicalSpecs at all, the edit
    under any of the field names returns, with only that concept changed
    and the typed text at the path the name spells; where technicalSpecs
    was missing it is now an object that holds just that text. *)
Theorem every_field_of_the_editor_can_be_edited :
  forall (s : State) (items : list Value) (ms : Members) (video : bool)
         (field text : string),
    editableConcepts s = JArray items ->
    is_json (JArray items) = true ->
    plain (JArray items) = true ->
    nth_error items (reviewIndex s) = Some (JObject ms) ->
    (lookup "technicalSpecs" ms = None
     \/ exists inner : Members, lookup "technicalSpecs" ms = Some (JObject inner)) ->
    In field (fieldNames video) ->
    exists ms' : Members,
      handleConceptEdit field text s
      = Done (setEditableConcepts
                (JArray (replace_nth (reviewIndex s) (JObject ms') items)) s)
      /\ leaf (JObject ms') (split_dot field) = JString text
      /\ (lookup "technicalSpecs" ms = None ->
          forall k : string,
            split_dot field = ["technicalSpecs"; k] ->
            lookup "technicalSpecs" ms' = Some (JObject [(k, JString text)])).
Proof.
  intros s items ms video field text Hstore Hjson _ Hitem Hspecs Hin.
  pose proof (field_names_address_a_leaf video ms field Hin Hspecs) as Haddr.
  destruct (assign_path_addressed (split_dot field) (JString text) ms Haddr)
    as (ms' & Hpath & Hleaf & _).
  exists ms'. split; [|split; [exact Hleaf|]].
  - unfold handleConceptEdit, editConcepts. rewrite Hstore.
    rewrite (deep_copy_of_json _ Hjson). cbn [lift obind at_index nullish item].
    rewrite (nth_error_nth items (reviewIndex s) JUndefined Hitem).
    rewrite Hpath. reflexivity.
  - intros Hnone k Hsplit. rewrite Hsplit in Hpath, Haddr.
    cbn [addressable] in Haddr. rewrite Hnone in Haddr.
    apply andb_true_iff in Haddr. destruct Haddr as [_ Hlast].
    simpl in Hlast. apply negb_true_iff in Hlast.
    assert (has_own "technicalSpecs" ms = false) as Hown
      by (unfold has_own; rewrite Hnone; reflexivity).
    rewrite assign_path_step in Hpath. cbn [read_computed] in Hpath.
    unfold read_member in Hpath. rewrite Hnone in Hpath.
    change (inherited "technicalSpecs") with false in Hpath.
    cbn [obind assign_computed] in Hpath. unfold assign_member at 1 in Hpath.
    rewrite Hown in Hpath.
    change ("technicalSpecs" =? "__proto__") with false in Hpath.
    cbn [obind assign_path assign_computed] in Hpath.
    unfold assign_member at 1 in Hpath. simpl has_own in Hpath. rewrite Hlast in Hpath.
    cbn [obind] in Hpath. unfold assign_member in Hpath.
    rewrite has_own_define_own_same in Hpath. cbn [obind] in Hpath.
    injection Hpath as <-.
    rewrite (lookup_replace_own_same _ _ _ (has_own_define_own_same "technicalSpecs" _ ms)).
    f_equal. f_equal. unfold define_own. simpl has_own. cbv iota.
    destruct (array_index k); reflexivity.
Qed.

(** ** The selected copy *)

Lemma bind_ok {A B : Type} (r : Result A) (k : A -> Result B) (b : B) :
  bind r k = Ok b -> exists a, r = Ok a /\ k a = Ok b.
Proof. destruct r; simpl; [eauto | discriminate]. Qed.

Lemma prop_ok (v : Value) (k : string) (x : Value) :
  prop v k = Ok x -> nullish v = false /\ x = own v k.
Proof.
  unfold prop. destruct (nullish v); [discriminate|]. intros H. injection H as <-. auto.
Qed.

Lemma at_index_ok (v : Value) (i : nat) (x : Value) :
  at_index v i = Ok x -> nullish v = false /\ x = item v i.
Proof.
  unfold at_index. destruct (nullish v); [discriminate|]. intros H. injection H as <-. auto.
Qed.

(** Once mounted, the selector holds a hook and a CTA for either concept,
    and neither concept is null or undefined. *)
Lemma mounted_selection_covers_both (c0 c1 hooksAndCtas : Value) (sel : Selection) :
  initialSelection (JArray [c0; c1]) hooksAndCtas = Ok sel ->
  nullish c0 = false /\ nullish c1 = false
  /\ has_own (key_of c0) (selectedHooks sel) = true
  /\ has_own (key_of c1) (selectedHooks sel) = true
  /\ has_own (key_of c0) (selectedCtas sel) = true
  /\ has_own (key_of c1) (selectedCtas sel) = true.
Proof.
  unfold initialSelection. intros H.
  repeat match type of H with
         | bind _ _ = Ok _ =>
             let a := fresh "a" in
             let E := fresh "E" in
             apply bind_ok in H; destruct H as (a & E & H)
         end.
  injection H as <-.
  repeat match goal with
         | E : at_index _ _ = Ok _ |- _ => apply at_index_ok in E; destruct E as [? ?]
         | E : prop _ _ = Ok _ |- _ => apply prop_ok in E; destruct E as [? ?]
         end.
  subst. cbn [item nth] in *. unfold key_of. cbn [selectedHooks selectedCtas].
  repeat split; try assumption;
    first [ apply has_own_define_own_same
          | apply has_own_define_own_kept, has_own_define_own_same ].
Qed.

Lemma choose_keeps_keys (concepts : Value) (sel : Selection) (c : Choice) (k : string) :
  (has_own k (selectedHooks sel) = true ->
   has_own k (selectedHooks (choose concepts sel c)) = true)
  /\ (has_own k (selectedCtas sel) = true ->
      has_own k (selectedCtas (choose concepts sel c)) = true).
Proof.
  destruct c as [index value | index value]; simpl;
    destruct (nullish (item concepts index)); simpl; split; auto;
    apply has_own_define_own_kept.
Qed.

Lemma choices_keep_keys (concepts : Value) (picks : list Choice) (sel : Selection)
      (k : string) :
  (has_own k (selectedHooks sel) = true ->
   has_own k (selectedHooks (fold_left (choose concepts) picks sel)) = true)
  /\ (has_own k (selectedCtas sel) = true ->
      has_own k (selectedCtas (fold_left (choose concepts) picks sel)) = true).
Proof.
  revert sel. induction picks as [|c picks IH]; intros sel; simpl; [auto|].
  destruct (IH (choose concepts sel c)) as [IH1 IH2].
  destruct (choose_keeps_keys concepts sel c k) as [H1 H2]. auto.
Qed.

(** The confirmed concept: the members of the original, with the selected
    hook and CTA written over [hookLine] and [cta]. *)
Lemma withSelectedCopy_frame (sel : Selection) (concept : Value) :
  nullish concept = false ->
  has_own (key_of concept) (selectedHooks sel) = true ->
  has_own (key_of concept) (selectedCtas sel) = true ->
  exists ms : Members,
    withSelectedCopy sel concept = Done (JObject ms)
    /\ (forall k : string,
          k <> "hookLine" -> k <> "cta" -> lookup k ms = lookup k (spread concept))
    /\ lookup "hookLine" ms = lookup (key_of concept) (selectedHooks sel)
    /\ lookup "cta" ms = lookup (key_of concept) (selectedCtas sel).
Proof.
  intros Hnull Hhook Hcta. unfold withSelectedCopy, prop. rewrite Hnull.
  cbn [lift obind]. fold (key_of concept). unfold read_member.
  unfold has_own in Hhook, Hcta.
  destruct (lookup (key_of concept) (selectedHooks sel)) as [hook|]; [|discriminate].
  destruct (lookup (key_of concept) (selectedCtas sel)) as [cta|]; [|discriminate].
  cbn [obind]. eexists. split; [reflexivity|]. split; [|split].
  - intros k Hk1 Hk2.
    rewrite (lookup_define_own_other "cta" k) by exact Hk2.
    rewrite (lookup_define_own_other "hookLine" k) by exact Hk1. reflexivity.
  - rewrite (lookup_define_own_other "cta" "hookLine") by discriminate.
    apply lookup_define_own_same.
  - apply lookup_define_own_same.
Qed.

Lemma requests_try_catch {A : Type} (w : World) (t : Async A) (handler : Thrown -> Async A) :
  requests w (try_catch t handler)
  = (requests w t
     ++ match run w t with
        | Ok _ => []
        | Throw e => requests w (handler e)
        end)%list.
Proof.
  induction t as [a | e | file k IH | request k IH]; simpl; auto.
  rewrite IH. reflexivity.
Qed.

Lemma requests_parse_response (w : World) (what : string) (response : Response) :
  requests w (parse_response what response) = [].
Proof.
  unfold parse_response. destruct (text response) as [t|]; [|reflexivity].
  destruct (JSON_parse (trim t)); reflexivity.
Qed.

Lemma run_sync {A : Type} (w : World) (r : Result A) : run w (sync r) = r.
Proof. destruct r; reflexivity. Qed.

Lemma run_fileToGenerativePart (w : World) (file : File) :
  run w (fileToGenerativePart file) = read_file w file.
Proof. unfold fileToGenerativePart. cbn [run]. apply run_sync. Qed.

Lemma requests_fileToGenerativePart (w : World) (file : File) :
  requests w (fileToGenerativePart file) = [].
Proof.
  unfold fileToGenerativePart. cbn [requests]. destruct (read_file w file); reflexivity.
Qed.

(** The terminal stage on the confirmed concepts: whether it succeeds or
    fails, the concepts handed over are locked in, and the one request made
    carries the terminal instruction built from exactly these concepts. *)
Lemma finalize_consumes_what_it_is_given (final0 final1 : Members) (s : State)
      (file : File) (type : AdvertType) (w : World) (imagePart : GenerativePart) :
  imageFile s = Some file ->
  advertType s = Some type ->
  read_file w file = Ok imagePart ->
  let final := JArray [JObject final0; JObject final1] in
  (exists s' : State,
     run w (handleFinalizeAndGenerateOutputs final s) = Ok s' /\ adConcepts s' = final)
  /\ map prompt (requests w (handleFinalizeAndGenerateOutputs final s))
     = [ match type with
         | still =>
             imagePromptsPrompt (JObject final0) (JObject final1) (Some (priceTag s))
               (ToString (own (JObject final0) "hookLine"))
               (ToString (own (JObject final1) "hookLine"))
               (ToString (own (JObject final0) "cta"))
               (ToString (own (JObject final1) "cta"))
         | video => videoScriptsPrompt (JObject final0) (JObject final1)
         end ].
Proof.
  intros Himage Htype Hread final.
  unfold handleFinalizeAndGenerateOutputs. rewrite Himage, Htype.
  change (prop final "length") with (@Ok Value (JNumber "2")).
  rewrite abind_sync_ok. change (strictly_zero (JNumber "2")) with false. cbv iota.
  split.
  - rewrite run_try_catch, run_abind, run_fileToGenerativePart, Hread.
    destruct type.
    + rewrite run_abind.
      destruct (run w (generateImagePrompts imagePart final (Some (priceTag s))));
        eexists; (split; [reflexivity|]); reflexivity.
    + rewrite run_abind.
      destruct (run w (generateVideoScripts imagePart final));
        eexists; (split; [reflexivity|]); reflexivity.
  - rewrite requests_try_catch, requests_abind, run_abind.
    rewrite run_fileToGenerativePart, requests_fileToGenerativePart, Hread. cbn [app].
    destruct type.
    + rewrite requests_abind, run_abind.
      change (generateImagePrompts imagePart final (Some (priceTag s)))
        with (AwaitContent
                {| model := "gemini-2.5-pro";
                   prompt :=
                     imagePromptsPrompt (JObject final0) (JObject final1) (Some (priceTag s))
                       (ToString (own (JObject final0) "hookLine"))
                       (ToString (own (JObject final1) "hookLine"))
                       (ToString (own (JObject final0) "cta"))
                       (ToString (own (JObject final1) "cta"));
                   image := Some imagePart;
                   responseMimeType := Some "application/json";
                   responseSchema := Some imagePromptsSchema |}
                (fun r => abind (sync r) (parse_response "image prompts"))).
      cbn [requests run].
      match goal with
      | |- context [respond w ?q] => destruct (respond w q) as [response|e]
      end; cbn [sync abind requests run app map prompt].
      * rewrite requests_parse_response.
        destruct (run w (parse_response "image prompts" response)); reflexivity.
      * reflexivity.
    + rewrite requests_abind, run_abind.
      change (generateVideoScripts imagePart final)
        with (AwaitContent
                {| model := "gemini-2.5-pro";
                   prompt := videoScriptsPrompt (JObject final0) (JObject final1);
                   image := Some imagePart;
                   responseMimeType := Some "application/json";
                   responseSchema := Some videoScriptsSchema |}
                (fun r => abind (sync r) (parse_response "video scripts"))).
      cbn [requests run].
      match goal with
      | |- context [respond w ?q] => destruct (respond w q) as [response|e]
      end; cbn [sync abind requests run app map prompt].
      * rewrite requests_parse_response.
        destruct (run w (parse_response "video scripts" response)); reflexivity.
      * reflexivity.
Qed.

(** C5. The selector has mounted on two finalized concepts, and the user has
    made any sequence of picks. Confirming hands on two objects that have,
    under every key other than hookLine and cta, exactly the members of the
    two concepts; hookLine and cta hold the selected copy. The terminal
    stage locks in these two objects as they are, and the instruction of
    the one request it makes is built from them. *)
Theorem C5_confirming_copy_changes_only_hookLine_and_cta :
  forall (c0 c1 hooksAndCtas : Value) (mountedSelection : Selection)
         (userPicks : list Choice),
    initialSelection (JArray [c0; c1]) hooksAndCtas = Ok mountedSelection ->
    let concepts := JArray [c0; c1] in
    let selection := fold_left (choose concepts) userPicks mountedSelection in
    exists final0 final1 : Members,
      handleConfirm false concepts selection
      = Done (Some (JArray [JObject final0; JObject final1]))
      /\ (forall k : string,
            k <> "hookLine" -> k <> "cta" ->
            lookup k final0 = lookup k (spread c0)
            /\ lookup k final1 = lookup k (spread c1))
      /\ lookup "hookLine" final0 = lookup (key_of c0) (selectedHooks selection)
      /\ lookup "cta" final0 = lookup (key_of c0) (selectedCtas selection)
      /\ lookup "hookLine" final1 = lookup (key_of c1) (selectedHooks selection)
      /\ lookup "cta" final1 = lookup (key_of c1) (selectedCtas selection)
      /\ (forall (s : State) (file : File) (type : AdvertType) (w : World)
                 (imagePart : GenerativePart),
            imageFile s = Some file ->
            advertType s = Some type ->
            read_file w file = Ok imagePart ->
            let final := JArray [JObject final0; JObject final1] in
            (exists s' : State,
               run w (handleFinalizeAndGenerateOutputs final s) = Ok s'
               /\ adConcepts s' = final)
            /\ map prompt (requests w (handleFinalizeAndGenerateOutputs final s))
               = [ match type with
                   | still =>
                       imagePromptsPrompt (JObject final0) (JObject final1)
                         (Some (priceTag s))
                         (ToString (own (JObject final0) "hookLine"))
                         (ToString (own (JObject final1) "hookLine"))
                         (ToString (own (JObject final0) "cta"))
                         (ToString (own (JObject final1) "cta"))
                   | video => videoScriptsPrompt (JObject final0) (JObject final1)
                   end ]).
Proof.
  intros c0 c1 hooksAndCtas mountedSelection userPicks Hmount concepts selection.
  destruct (mounted_selection_covers_both c0 c1 hooksAndCtas mountedSelection Hmount)
    as (Hn0 & Hn1 & Hh0 & Hh1 & Hc0 & Hc1).
  assert (forall c : Value,
            has_own (key_of c) (selectedHooks mountedSelection) = true ->
            has_own (key_of c) (selectedCtas mountedSelection) = true ->
            has_own (key_of c) (selectedHooks selection) = true
            /\ has_own (key_of c) (selectedCtas selection) = true) as Hkept.
  { intros c Hh Hc.
    destruct (choices_keep_keys concepts userPicks mountedSelection (key_of c)) as [H1 H2].
    split; [exact (H1 Hh) | exact (H2 Hc)]. }
  destruct (Hkept c0 Hh0 Hc0) as [Hs0 Ht0]. destruct (Hkept c1 Hh1 Hc1) as [Hs1 Ht1].
  destruct (withSelectedCopy_frame selection c0 Hn0 Hs0 Ht0)
    as (final0 & Hconfirm0 & Hframe0 & Hhook0 & Hcta0).
  destruct (withSelectedCopy_frame selection c1 Hn1 Hs1 Ht1)
    as (final1 & Hconfirm1 & Hframe1 & Hhook1 & Hcta1).
  exists final0, final1.
  split.
  { unfold handleConfirm, concepts. cbn [map_outcome]. rewrite Hconfirm0, Hconfirm1.
    reflexivity. }
  split; [intros k Hk1 Hk2; split; [exact (Hframe0 k Hk1 Hk2) | exact (Hframe1 k Hk1 Hk2)]|].
  repeat (split; [assumption|]).
  intros s file type w imagePart Himage Htype Hread.
  exact (finalize_consumes_what_it_is_given final0 final1 s file type w imagePart
           Himage Htype Hread).
Qed.

(** ** Every path of a run *)

(** A try block that awaits the image part and a stage: when the awaited
    part returns, the block goes on with what it returned. *)
Lemma run_try_returned {A : Type} (w : World) (file : File)
      (stage : GenerativePart -> Async Value) (commit : Value -> Async A)
      (rollback : Thrown -> Async A) (v : Value) :
  run w (abind (fileToGenerativePart file) stage) = Ok v ->
  run w (try_catch
           (abind (fileToGenerativePart file) (fun imagePart => abind (stage imagePart) commit))
           rollback)
  = run w (try_catch (commit v) rollback).
Proof.
  intros H. rewrite !run_try_catch, run_abind. rewrite run_abind in H.
  destruct (run w (fileToGenerativePart file)) as [imagePart|e']; [|discriminate H].
  rewrite run_abind, H. reflexivity.
Qed.

(** The requests of such a block are those of the awaited part, when what
    follows it awaits nothing. *)
Lemma requests_try_block {A : Type} (w : World) (file : File)
      (stage : GenerativePart -> Async Value) (commit : Value -> Async A)
      (rollback : Thrown -> Async A) :
  (forall v, requests w (commit v) = []) ->
  (forall v, exists a, run w (commit v) = Ok a) ->
  (forall e, requests w (rollback e) = []) ->
  requests w (try_catch
                (abind (fileToGenerativePart file)
                   (fun imagePart => abind (stage imagePart) commit))
                rollback)
  = requests w (abind (fileToGenerativePart file) stage).
Proof.
  intros Hcommit Hruns Hrollback.
  rewrite requests_try_catch, !requests_abind, !run_abind.
  rewrite requests_fileToGenerativePart. cbn [app].
  destruct (run w (fileToGenerativePart file)) as [imagePart|e].
  - rewrite requests_abind, run_abind.
    destruct (run w (stage imagePart)) as [v|e].
    + rewrite Hcommit. destruct (Hruns v) as [a ->]. rewrite !app_nil_r. reflexivity.
    + rewrite Hrollback, !app_nil_r. reflexivity.
  - rewrite Hrollback. reflexivity.
Qed.

Lemma run_try_return {A : Type} (w : World) (a : A) (rollback : Thrown -> Async A) :
  run w (try_catch (Return a) rollback) = Ok a.
Proof. reflexivity. Qed.

(** Every path through a handler: its guard, the read of the file, the
    stage, and what follows. *)
Ltac handler_guards H s :=
  cbn [handler] in H;
  unfold handleGenerateStyles, handleGenerateIdeas, handleGenerateFullConcepts,
    handleGenerateHooksAndCtasForSelection, handleFinalizeAndGenerateOutputs in H;
  repeat match type of H with
         | context [match imageFile s with _ => _ end] => destruct (imageFile s) eqn:?
         | context [match advertType s with _ => _ end] => destruct (advertType s) eqn:?
         | context [match truthy (selectedStyle s) with _ => _ end] =>
             destruct (truthy (selectedStyle s)) eqn:?
         | context [match Nat.eqb ?a ?b with _ => _ end] => destruct (Nat.eqb a b) eqn:?
         | context [sync (prop ?v ?k)] =>
             unfold prop in H; destruct (nullish v) eqn:?; cbn [sync abind] in H
         | context [if strictly_zero ?v then _ else _] => destruct (strictly_zero v) eqn:?
         end.

Ltac handler_awaits w :=
  rewrite ?requests_try_catch, ?requests_abind, ?requests_fileToGenerativePart,
    ?run_try_catch, ?run_abind, ?run_fileToGenerativePart;
  let imagePart := fresh "imagePart" in
  let e := fresh "e" in
  let v := fresh "v" in
  match goal with
  | |- context [read_file w ?f] => destruct (read_file w f) as [imagePart|e] eqn:?
  end;
  rewrite ?requests_abind, ?run_abind;
  try match goal with
      | |- context [run w ?t] =>
          match t with
          | context [imagePart] => destruct (run w t) as [v|e] eqn:?
          end
      end.

(** X1. Every run of a handler settles. It completes with a state that is the
    one it began with (its guard returned at once, perhaps after setting a
    message), or is at the retry stage with a message, or is at the next
    stage with no message; no run ends in the loading stage it set. The
    only runs that throw are those of the two copy handlers when the
    concepts they are to read the length of are null or undefined, and
    these throw before anything is awaited. *)
Theorem every_run_settles :
  forall (r : StageRun) (s : State) (w : World),
    (exists s' : State,
       run w (handler r s) = Ok s'
       /\ ((s' = s \/ exists message : string, s' = setError (Some message) s)
           \/ (stage s' = retryStage r /\ error s' <> None)
           \/ (stage s' = nextStage r /\ error s' = None)))
    \/ (exists e : Thrown,
          run w (handler r s) = Throw e
          /\ requests w (handler r s) = []
          /\ match r with
             | RunHooksAndCtas => nullish (editableConcepts s) = true
             | RunFinalOutputs concepts => nullish concepts = true
             | _ => False
             end).
Proof.
  intros r s w. remember (handler r s) as h eqn:Hh.
  destruct r as [| | selectedIdeas | | concepts]; handler_guards Hh s; subst h;
    try (left; eexists; split; [reflexivity|]; left; eauto; fail);
    try (right; eexists; split; [reflexivity|]; split;
         [reflexivity | first [assumption | reflexivity]]).
  all: try match goal with a : AdvertType |- context [generateImagePrompts] => destruct a end.
  all: left; handler_awaits w; cbn [run].
  all: try (eexists; split; [reflexivity|]; right; left; split;
            [reflexivity | discriminate]).
  all: try (eexists; split; [reflexivity|]; right; right; split; reflexivity).
  - (* ideas: an empty answer goes back *)
    destruct (truthy v && greater_than_zero (own v "length"));
      eexists; (split; [reflexivity|]); right;
      [right; split; reflexivity | left; split; [reflexivity | discriminate]].
  - (* full concepts: the deep copy *)
    destruct (deep_copy v);
      eexists; (split; [reflexivity|]); right;
      [right; split; reflexivity | left; split; [reflexivity | discriminate]].
Qed.

(** ** The length of an array *)

Lemma number_is_zero_digits (d : Decimal.uint) :
  number_is_zero (NilEmpty.string_of_uint d) = true -> Nat.of_uint_acc d 0 = 0.
Proof.
  induction d; cbn [NilEmpty.string_of_uint number_is_zero Nat.of_uint_acc];
    try discriminate; auto.
Qed.

Lemma number_is_zero_of_nat (n : nat) : number_is_zero (of_nat n) = Nat.eqb n 0.
Proof.
  destruct n as [|n]; [reflexivity|].
  destruct (number_is_zero (of_nat (S n))) eqn:E; [|reflexivity].
  apply number_is_zero_digits in E.
  pose proof (DecimalNat.Unsigned.of_to (S n)) as H. unfold Nat.of_uint in H. congruence.
Qed.

Lemma of_nat_not_negative (n : nat) :
  match of_nat n with
  | String c _ => Ascii.eqb c "-"%char = false
  | EmptyString => True
  end.
Proof.
  unfold of_nat. destruct (Nat.to_uint n); cbn; exact I || reflexivity.
Qed.

(** [items.length > 0] and [items.length === 0] on an array. *)
Lemma array_length_positive (items : list Value) :
  greater_than_zero (own (JArray items) "length") = negb (Nat.eqb (List.length items) 0).
Proof.
  cbn [own String.eqb Ascii.eqb Bool.eqb greater_than_zero]. unfold number_is_positive.
  rewrite number_is_zero_of_nat.
  pose proof (of_nat_not_negative (List.length items)) as H.
  destruct (of_nat (List.length items)); [|rewrite H]; apply andb_true_r.
Qed.

Lemma array_length_zero (items : list Value) :
  strictly_zero (own (JArray items) "length") = Nat.eqb (List.length items) 0.
Proof.
  cbn [own String.eqb Ascii.eqb Bool.eqb strictly_zero]. apply number_is_zero_of_nat.
Qed.

(** A stage makes at most one request: it carries the image part the stage
    was given, asks the stage's model for JSON and names its schema. *)
Lemma requests_invoke_shape (w : World) (c : StageCall) (q : Request) :
  In q (requests w (invoke c)) ->
  requests w (invoke c) = [q]
  /\ image q = Some (imagePartOf c)
  /\ model q = modelOf c
  /\ responseMimeType q = Some "application/json"
  /\ responseSchema q = Some (schemaOf c).
Proof.
  destruct c; simpl invoke;
    unfold generateAdvertStyles, generateConceptIdeas, generateFullConcepts,
      generateHooksAndCtas, generateImagePrompts, generateVideoScripts, at_index, prop;
    repeat match goal with
           | |- context [nullish ?v] =>
               destruct (nullish v) eqn:?; simpl abind; [intros []|]
           end;
    cbn [requests abind generateContent sync];
    intros Hin;
    match goal with
    | |- context [respond w ?r] => destruct (respond w r) as [response|e]
    end; cbn [sync abind requests] in *; rewrite ?requests_parse_response in *;
    destruct Hin as [<- | []]; repeat split.
Qed.

(** X2. Whatever way a run of a handler completes, it leaves the form inputs,
    the image, the advert type, the chosen style and the enhancing flag as
    they were, and among the artifacts it writes only its own: the styles
    run the styles, the ideas run the ideas, the full-concept run the
    locked-in and editable concepts and the review index, the hook/CTA run
    the locked-in concepts and the options, the terminal run the locked-in
    concepts and the output of the chosen format. *)
Theorem a_run_writes_only_its_own_artifacts :
  forall (r : StageRun) (s s' : State) (w : World),
    run w (handler r s) = Ok s' ->
    formInputs s' = formInputs s
    /\ imageFile s' = imageFile s
    /\ imageUrl s' = imageUrl s
    /\ advertType s' = advertType s
    /\ selectedStyle s' = selectedStyle s
    /\ isEnhancingStyling s' = isEnhancingStyling s
    /\ match r with
       | RunStyles =>
           conceptIdeas s' = conceptIdeas s
           /\ adConcepts s' = adConcepts s
           /\ editableConcepts s' = editableConcepts s
           /\ reviewIndex s' = reviewIndex s
           /\ hooksAndCtasForSelection s' = hooksAndCtasForSelection s
           /\ imageGenPrompts s' = imageGenPrompts s
           /\ videoScripts s' = videoScripts s
       | RunIdeas =>
           advertStyles s' = advertStyles s
           /\ adConcepts s' = adConcepts s
           /\ editableConcepts s' = editableConcepts s
           /\ reviewIndex s' = reviewIndex s
           /\ hooksAndCtasForSelection s' = hooksAndCtasForSelection s
           /\ imageGenPrompts s' = imageGenPrompts s
           /\ videoScripts s' = videoScripts s
       | RunFullConcepts _ =>
           advertStyles s' = advertStyles s
           /\ conceptIdeas s' = conceptIdeas s
           /\ hooksAndCtasForSelection s' = hooksAndCtasForSelection s
           /\ imageGenPrompts s' = imageGenPrompts s
           /\ videoScripts s' = videoScripts s
       | RunHooksAndCtas =>
           advertStyles s' = advertStyles s
           /\ conceptIdeas s' = conceptIdeas s
           /\ editableConcepts s' = editableConcepts s
           /\ reviewIndex s' = reviewIndex s
           /\ imageGenPrompts s' = imageGenPrompts s
           /\ videoScripts s' = videoScripts s
       | RunFinalOutputs _ =>
           advertStyles s' = advertStyles s
           /\ conceptIdeas s' = conceptIdeas s
           /\ editableConcepts s' = editableConcepts s
           /\ reviewIndex s' = reviewIndex s
           /\ hooksAndCtasForSelection s' = hooksAndCtasForSelection s
           /\ (advertType s = Some still -> videoScripts s' = videoScripts s)
           /\ (advertType s = Some video -> imageGenPrompts s' = imageGenPrompts s)
       end.
Proof.
  intros r s s' w. remember (handler r s) as h eqn:Hh.
  destruct r as [| | selectedIdeas | | concepts]; handler_guards Hh s; subst h;
    try (intros H; injection H as <-; repeat split; auto; fail);
    try discriminate.
  all: try match goal with a : AdvertType |- context [generateImagePrompts] => destruct a end.
  all: handler_awaits w; cbn [run].
  all: try match goal with
           | |- context [if ?c then _ else _] => destruct c
           | |- context [deep_copy ?v] => destruct (deep_copy v)
           end; cbn [run].
  all: intros H; injection H as <-; repeat split; intros; auto; discriminate.
Qed.

(** X3. A run of a handler asks the provider at most once, and only after its
    guard has let it through and the image has been read: the request then
    carries that image part, asks the stage's model for JSON and names the
    stage's schema. *)
Theorem a_run_asks_the_provider_at_most_once :
  forall (r : StageRun) (s : State) (w : World) (q : Request),
    In q (requests w (handler r s)) ->
    requests w (handler r s) = [q]
    /\ exists (file : File) (call : GenerativePart -> StageCall)
              (imagePart : GenerativePart),
         starts r s file call
         /\ read_file w file = Ok imagePart
         /\ requests w (invoke (call imagePart)) = [q]
         /\ image q = Some imagePart
         /\ model q = modelOf (call imagePart)
         /\ responseMimeType q = Some "application/json"
         /\ responseSchema q = Some (schemaOf (call imagePart)).
Proof.
  intros r s w q. remember (handler r s) as h eqn:Hh.
  destruct r as [| | selectedIdeas | | concepts]; handler_guards Hh s; subst h;
    try (intros []; fail).
  all: try match goal with a : AdvertType |- context [generateImagePrompts] => destruct a end.
  all: handler_awaits w; cbv beta; cbn [run requests app]; try (intros []; fail).
  all: try match goal with
           | |- context [truthy ?v && greater_than_zero ?x] =>
               destruct (truthy v && greater_than_zero x)
           | |- context [deep_copy ?v] => destruct (deep_copy v)
           end; cbn [run requests app].
  all: rewrite ?app_nil_r; intros Hin.
  all: match goal with
       | H : In _ (requests _ ?t) |- _ =>
           match t with
           | generateAdvertStyles ?p ?a =>
               change t with (invoke (AdvertStyles p a)) in H |- *
           | generateConceptIdeas ?p ?c ?b ?u ?st ?a =>
               change t with (invoke (ConceptIdeas p c b u st a)) in H |- *
           | generateFullConcepts ?p ?c ?b ?u ?i ?a ?st =>
               change t with (invoke (FullConcepts p c b u i a st)) in H |- *
           | generateHooksAndCtas ?p ?c ?d ?l =>
               change t with (invoke (HooksAndCtas p c d l)) in H |- *
           | generateImagePrompts ?p ?c ?t' =>
               change t with (invoke (ImagePrompts p c t')) in H |- *
           | generateVideoScripts ?p ?c =>
               change t with (invoke (VideoScripts p c)) in H |- *
           end
       end.
  all: destruct (requests_invoke_shape _ _ _ Hin) as (Hone & Himage & Hmodel & Hmime & Hschema).
  all: split; [exact Hone|].
  all: do 3 eexists; split;
    [ econstructor; try eassumption;
      try (apply Nat.eqb_eq; eassumption);
      try match goal with
          | H : nullish ?v = false |- prop ?v _ = Ok _ =>
              unfold prop; rewrite H; reflexivity
          end
    | ].
  all: repeat split; try eassumption; try exact Hone.
Qed.

(** X4. The run that succeeds: when what the try block awaits returns a value
    that holds no number but plain ones (for ideas: one that is truthy and
    has a positive length), the handler ends at its next stage with the
    message cleared and the value stored as parsed, which is a JSON tree. The full-concept run stores it twice,
    as the locked-in concepts and as an equal working copy, and opens the
    review on the first concept; the hook/CTA run has locked in the edited
    concepts; the terminal run has locked in the concepts it was given and
    stores the value as the image prompts or as the video scripts. *)
Theorem a_run_that_succeeds_commits_what_the_stage_returned :
  forall (r : StageRun) (s : State) (file : File)
         (call : GenerativePart -> StageCall) (w : World) (v : Value),
    starts r s file call ->
    run w (awaited file call) = Ok v ->
    plain v = true ->
    (r = RunIdeas -> truthy v && greater_than_zero (own v "length") = true) ->
    exists s' : State,
      run w (handler r s) = Ok s'
      /\ stage s' = nextStage r
      /\ error s' = None
      /\ is_json v = true
      /\ match r with
         | RunStyles => advertStyles s' = v
         | RunIdeas => conceptIdeas s' = v
         | RunFullConcepts _ =>
             adConcepts s' = v /\ editableConcepts s' = v /\ reviewIndex s' = 0
         | RunHooksAndCtas =>
             hooksAndCtasForSelection s' = v /\ adConcepts s' = editableConcepts s
         | RunFinalOutputs concepts =>
             adConcepts s' = concepts
             /\ match advertType s with
                | Some still => imageGenPrompts s' = v
                | Some video => videoScripts s' = v
                | None => False
                end
         end.
Proof.
  intros r s file call w v Hstart Hrun _ Hideas.
  assert (is_json v = true) as Hjson.
  { unfold awaited in Hrun. rewrite run_abind in Hrun.
    destruct (run w (fileToGenerativePart file)); [|discriminate Hrun].
    exact (stage_returns_json _ _ _ Hrun). }
  unfold awaited in Hrun.
  destruct Hstart as [s file type Himage Htype
                     | s file type Himage Hstyle Htype
                     | selectedIdeas s file type Himage Htype Hlen
                     | s file length Himage Hlength Hnonzero
                     | concepts s file type length Himage Htype Hlength Hnonzero];
    simpl handler.
  - unfold handleGenerateStyles. rewrite Himage, Htype.
    rewrite (run_try_returned w file _ _ _ v Hrun). eexists. split; [reflexivity|].
    repeat split. exact Hjson.
  - unfold handleGenerateIdeas. rewrite Himage, Hstyle, Htype.
    rewrite (run_try_returned w file _ _ _ v Hrun), (Hideas eq_refl).
    eexists. split; [reflexivity|]. repeat split. exact Hjson.
  - unfold handleGenerateFullConcepts. rewrite Himage, Htype, Hlen. simpl Nat.eqb. cbv iota.
    rewrite (run_try_returned w file _ _ _ v Hrun), (deep_copy_of_json _ Hjson).
    eexists. split; [reflexivity|]. repeat split. exact Hjson.
  - unfold handleGenerateHooksAndCtasForSelection. rewrite Himage, Hlength.
    rewrite abind_sync_ok, Hnonzero.
    rewrite (run_try_returned w file _ _ _ v Hrun).
    eexists. split; [reflexivity|]. repeat split. exact Hjson.
  - unfold handleFinalizeAndGenerateOutputs. rewrite Himage, Htype, Hlength.
    rewrite abind_sync_ok, Hnonzero.
    destruct type; rewrite (run_try_returned w file _ _ _ v Hrun);
      (eexists; split; [reflexivity|]); repeat split; exact Hjson.
Qed.

(** X5. The ideas run on an answer that parses but holds no ideas: a falsy
    value, or one whose length is not positive (among arrays: the empty
    one), the length being the engine's own and not a member the answer
    wrote. It is not an error of the stage, yet the handler goes back to the
    styles with its own message and leaves the ideas empty; inputs and
    choices stay. *)
Theorem an_answer_without_ideas_sends_the_user_back :
  forall (s : State) (file : File) (call : GenerativePart -> StageCall)
         (w : World) (v : Value),
    starts RunIdeas s file call ->
    run w (awaited file call) = Ok v ->
    truthy v && greater_than_zero (own v "length") = false ->
    (forall ms : Members, v = JObject ms -> lookup "length" ms = None) ->
    (forall items : list Value, v = JArray items -> items = [])
    /\ exists s' : State,
         run w (handleGenerateIdeas s) = Ok s'
         /\ stage s' = stylesGenerated
         /\ error s'
            = Some "The AI couldn't generate any ideas for this combination. Please try adjusting your inputs."
         /\ conceptIdeas s' = JArray []
         /\ formInputs s' = formInputs s
         /\ choices s' = choices s.
Proof.
  intros s file call w v Hstart Hrun Hnone _. split.
  - intros items ->. rewrite array_length_positive in Hnone. simpl truthy in Hnone.
    destruct items; [reflexivity | discriminate Hnone].
  - unfold awaited in Hrun.
    inversion Hstart as [| s0 file0 type Himage Hstyle Htype | | |]; subst.
    unfold handleGenerateIdeas. rewrite Himage, Hstyle, Htype.
    rewrite (run_try_returned w file _ _ _ v Hrun), Hnone.
    eexists. split; [reflexivity|]. repeat split.
Qed.

(** With the array the schema asks for, ideas are committed exactly when
    there is at least one. *)
Lemma ideas_of_an_array (x : Value) (items : list Value) :
  truthy (JArray (x :: items)) && greater_than_zero (own (JArray (x :: items)) "length")
  = true.
Proof. rewrite array_length_positive. reflexivity. Qed.

(** ** Fewer than two concepts *)



(** ** Enhancing the styling notes *)

(** What the service function returns is the trimmed text of the one answer
    it asks for; it fails when the call fails, or when the answer has no
    text to trim. *)
Lemma run_enhanceStylingNotes (w : World) (concept : Value) :
  let q := {| model := "gemini-2.5-flash";
              prompt := enhanceStylingPrompt concept;
              image := None;
              responseMimeType := None;
              responseSchema := None |} in
  requests w (enhanceStylingNotes concept) = [q]
  /\ run w (enhanceStylingNotes concept)
     = match respond w q with
       | Ok response =>
           match text response with
           | Some t => Ok (trim t)
           | None => Throw (cannot_read JUndefined "trim")
           end
       | Throw e => Throw e
       end.
Proof.
  unfold enhanceStylingNotes, generateContent. cbn [abind requests run].
  destruct (respond w _) as [response|e]; cbn [sync abind requests run]; [|auto].
  destruct (text response); auto.
Qed.


(** X9. The enhancement that succeeds, with whatever the user did while it was
    under way. The notes returned (the trimmed text of the answer) are
    written under stylingNotes of the concept at the index that was under
    review at the start, in the store as it is when the answer arrives:
    every other member of that concept and every other concept are as the
    user left them. *)
Theorem an_enhancement_keeps_what_was_edited_meanwhile :
  forall (during : State -> State) (s : State) (w : World) (notes : string)
         (items : list Value) (ms : Members),
    let concept := item (editableConcepts s) (reviewIndex s) in
    let arrival := during (setError None (setIsEnhancingStyling true s)) in
    nullish (editableConcepts s) = false ->
    truthy concept = true ->
    run w (enhanceStylingNotes concept) = Ok notes ->
    editableConcepts arrival = JArray items ->
    is_json (JArray items) = true ->
    nth_error items (reviewIndex s) = Some (JObject ms) ->
    exists ms' : Members,
      run w (handleEnhanceStyling during s)
      = Ok (Done (setIsEnhancingStyling false
                    (setEditableConcepts
                       (JArray (replace_nth (reviewIndex s) (JObject ms') items))
                       arrival)))
      /\ lookup "stylingNotes" ms' = Some (JString notes)
      /\ (forall k : string, k <> "stylingNotes" -> lookup k ms' = lookup k ms)
      /\ (forall i : nat,
            i <> reviewIndex s ->
            nth_error (replace_nth (reviewIndex s) (JObject ms') items) i
            = nth_error items i)
      /\ exists (response : Response) (t : string),
           respond w {| model := "gemini-2.5-flash";
                        prompt := enhanceStylingPrompt concept;
                        image := None;
                        responseMimeType := None;
                        responseSchema := None |} = Ok response
           /\ text response = Some t
           /\ notes = trim t.
Proof.
  intros during s w notes items ms concept arrival Hstore Htruthy Hnotes Harrival
         Hjson Hitem.
  assert (exists ms', assign_member ms "stylingNotes" (JString notes) = Done ms')
    as [ms' Hassign].
  { unfold assign_member. destruct (has_own "stylingNotes" ms); [eauto|].
    change ("stylingNotes" =? "__proto__") with false. eauto. }
  exists ms'. split; [|split; [|split; [|split]]].
  - unfold handleEnhanceStyling, at_index. rewrite Hstore. cbn [sync abind].
    fold concept. rewrite Htruthy. fold arrival.
    rewrite run_try_catch, run_abind, Hnotes. cbn [run]. rewrite Harrival.
    unfold editConcepts. rewrite (deep_copy_of_json _ Hjson).
    cbn [lift obind at_index nullish item].
    rewrite (nth_error_nth items (reviewIndex s) JUndefined Hitem).
    change (split_dot "stylingNotes") with ["stylingNotes"].
    cbn [assign_path assign_computed]. rewrite Hassign. reflexivity.
  - apply (assign_member_reads_back _ _ _ _ Hassign). right. reflexivity.
  - intros k Hk. exact (assign_member_keeps_others _ _ _ _ _ Hassign Hk).
  - intros i Hi. clear -Hi. revert i Hi. generalize (reviewIndex s) as n.
    induction items as [|y items IH]; intros [|n] [|i] Hi; simpl; try reflexivity;
      try contradiction.
    apply IH. congruence.
  - destruct (run_enhanceStylingNotes w concept) as [_ Hrun]. rewrite Hnotes in Hrun.
    destruct (respond w _) as [response|e]; [|discriminate Hrun].
    destruct (text response) as [t|] eqn:Htext; [|discriminate Hrun].
    injection Hrun as ->. exists response, t. repeat split. exact Htext.
Qed.

(** ** The concept editor *)

(** X10. The editor renders exactly when its concept is there and has technical
    specs: it throws the TypeError of reading format off a concept that is
    null or undefined, and that of reading mood off technical specs that
    are. When it renders, its fields report under the field names of the
    concept's format, in order, and only the styling notes carry the
    Enhance button, disabled while an enhancement is under way. *)
Theorem the_editor_needs_a_concept_with_technical_specs :
  forall (concept : Value) (isEnhancingStyling : bool),
    match render concept isEnhancingStyling with
    | Ok fields =>
        nullish concept = false
        /\ nullish (own concept "technicalSpecs") = false
        /\ map fieldName fields = fieldNames (isVideo concept)
        /\ (forall f : EditableField,
              In f fields ->
              enhanceDisabled f
              = if String.eqb (fieldName f) "stylingNotes"
                then Some isEnhancingStyling else None)
    | Throw e =>
        (nullish concept = true /\ e = cannot_read concept "format")
        \/ (nullish concept = false
            /\ nullish (own concept "technicalSpecs") = true
            /\ e = cannot_read (own concept "technicalSpecs") "mood")
    end.
Proof.
  intros concept isEnhancingStyling. unfold render, prop.
  destruct (nullish concept) eqn:Hconcept; cbn [bind]; [left; auto|].
  destruct (nullish (own concept "technicalSpecs")) eqn:Hspecs; cbn [bind];
    [right; auto|].
  split; [reflexivity|]. split; [reflexivity|]. split.
  - unfold fieldNames. rewrite map_app. destruct (isVideo concept); reflexivity.
  - intros f Hin. apply in_app_or in Hin. destruct Hin as [Hin | Hin].
    + cbn [In] in Hin.
      repeat (destruct Hin as [<- | Hin]; [reflexivity|]). destruct Hin.
    + destruct (isVideo concept); cbn [In] in Hin;
        repeat (destruct Hin as [<- | Hin]; [reflexivity|]); destruct Hin.
Qed.

(** X11. The review panel offers Concept 1 and Concept 2 whatever the number of
    concepts. With a review index past the last concept of a store that is
    not empty, the panel is shown and the editor it mounts throws. *)
Theorem the_review_panel_fails_past_the_last_concept :
  forall (s : State) (items : list Value),
    stage s = reviewingConcepts \/ stage s = generatingHooksAndCtasForSelection ->
    editableConcepts s = JArray items ->
    items <> [] ->
    List.length items <= reviewIndex s ->
    reviewPanel s = Throw (cannot_read JUndefined "format").
Proof.
  intros s items Hstage Hstore Hsome Hpast. unfold reviewPanel.
  assert (bind (prop (editableConcepts s) "length") (fun length =>
            if greater_than_zero length
            then bind (render (item (editableConcepts s) (reviewIndex s))
                         (isEnhancingStyling s)) (fun fields => Ok (Some fields))
            else Ok None)
          = Throw (cannot_read JUndefined "format")) as H.
  { rewrite Hstore. unfold prop. cbn [nullish bind]. rewrite array_length_positive.
    destruct items as [|x items]; [contradiction|]. cbn [List.length Nat.eqb negb].
    cbn [item]. rewrite (nth_overflow _ _ Hpast). reflexivity. }
  destruct Hstage as [-> | ->]; exact H.
Qed.

Lemma or_else_text (t : string) : or_else (JString t) (JString EmptyString) = JString t.
Proof. destruct t; reflexivity. Qed.

(** Assignment under a key other than [__proto__] always goes through. *)
Lemma assign_member_defined (ms : Members) (k : string) (x : Value) :
  String.eqb k "__proto__" = false ->
  exists ms' : Members,
    assign_member ms k x = Done ms'
    /\ lookup k ms' = Some x
    /\ (forall k' : string, k' <> k -> lookup k' ms' = lookup k' ms).
Proof.
  intros Hk.
  assert (exists ms', assign_member ms k x = Done ms') as [ms' H].
  { unfold assign_member. destruct (has_own k ms); [eauto|]. rewrite Hk. eauto. }
  exists ms'. split; [exact H|]. split.
  - apply (assign_member_reads_back _ _ _ _ H). right. exact Hk.
  - intros k' Hne. exact (assign_member_keeps_others _ _ _ _ _ H Hne).
Qed.

(** An edit of a member of the concept under review, and of a member of its
    technical specs. *)
Lemma edit_of_a_member (s : State) (items : list Value) (ms : Members)
      (path : string) (k : string) (text : string) :
  editableConcepts s = JArray items ->
  is_json (JArray items) = true ->
  nth_error items (reviewIndex s) = Some (JObject ms) ->
  split_dot path = [k] ->
  String.eqb k "__proto__" = false ->
  exists ms' : Members,
    handleConceptEdit path text s
    = Done (setEditableConcepts
              (JArray (replace_nth (reviewIndex s) (JObject ms') items)) s)
    /\ lookup k ms' = Some (JString text)
    /\ (forall k' : string, k' <> k -> lookup k' ms' = lookup k' ms).
Proof.
  intros Hstore Hjson Hitem Hpath Hk.
  destruct (assign_member_defined ms k (JString text) Hk) as (ms' & Hassign & Hnew & Hold).
  exists ms'. split; [|split; assumption].
  unfold handleConceptEdit, editConcepts. rewrite Hstore, (deep_copy_of_json _ Hjson).
  cbn [lift obind at_index nullish item].
  rewrite (nth_error_nth items (reviewIndex s) JUndefined Hitem), Hpath.
  cbn [assign_path assign_computed]. rewrite Hassign. reflexivity.
Qed.

Lemma edit_of_a_technical_spec (s : State) (items : list Value) (ms specs : Members)
      (path : string) (k : string) (text : string) :
  editableConcepts s = JArray items ->
  is_json (JArray items) = true ->
  nth_error items (reviewIndex s) = Some (JObject ms) ->
  lookup "technicalSpecs" ms = Some (JObject specs) ->
  split_dot path = ["technicalSpecs"; k] ->
  String.eqb k "__proto__" = false ->
  exists ms' specs' : Members,
    handleConceptEdit path text s
    = Done (setEditableConcepts
              (JArray (replace_nth (reviewIndex s) (JObject ms') items)) s)
    /\ lookup "technicalSpecs" ms' = Some (JObject specs')
    /\ (forall k' : string, k' <> "technicalSpecs" -> lookup k' ms' = lookup k' ms)
    /\ lookup k specs' = Some (JString text)
    /\ (forall k' : string, k' <> k -> lookup k' specs' = lookup k' specs).
Proof.
  intros Hstore Hjson Hitem Hspecs Hpath Hk.
  destruct (assign_member_defined specs k (JString text) Hk)
    as (specs' & Hassign & Hnew & Hold).
  assert (has_own "technicalSpecs" ms = true) as Hown
    by (unfold has_own; rewrite Hspecs; reflexivity).
  exists (replace_own "technicalSpecs" (JObject specs') ms), specs'.
  split; [|split; [|split; [|split]]]; try assumption.
  - unfold handleConceptEdit, editConcepts. rewrite Hstore, (deep_copy_of_json _ Hjson).
    cbn [lift obind at_index nullish item].
    rewrite (nth_error_nth items (reviewIndex s) JUndefined Hitem), Hpath.
    rewrite assign_path_step. cbn [read_computed]. unfold read_member. rewrite Hspecs.
    cbn [obind assign_path assign_computed]. rewrite Hassign. cbn [obind].
    unfold assign_member. rewrite Hown. reflexivity.
  - apply lookup_replace_own_same, Hown.
  - intros k' Hne. apply lookup_replace_own_other, Hne.
Qed.

Ltac rewrite_lookups ms' Hnew Hold :=
  repeat match goal with
         | |- context [lookup ?k ms'] =>
             first [ rewrite Hnew | rewrite (Hold k) by discriminate ]
         end.

(** X12. Typing into a field of the editor. For a concept with technical specs
    in a store of JSON data, and any field the editor renders, the edit
    reported under its field name returns a store in which only that
    concept changed, and the editor rendered on the changed concept shows
    the typed text in that field and everything else as before: the same
    fields, labels and values. *)
Theorem an_edit_shows_in_its_field_and_in_no_other :
  forall (s : State) (items : list Value) (ms specs : Members)
         (isEnhancingStyling : bool) (fields : list EditableField)
         (f : EditableField) (text : string),
    editableConcepts s = JArray items ->
    is_json (JArray items) = true ->
    nth_error items (reviewIndex s) = Some (JObject ms) ->
    lookup "technicalSpecs" ms = Some (JObject specs) ->
    render (JObject ms) isEnhancingStyling = Ok fields ->
    In f fields ->
    exists (s' : State) (ms' : Members),
      handleConceptEdit (fieldName f) text s = Done s'
      /\ reviewIndex s' = reviewIndex s
      /\ editableConcepts s' = JArray (replace_nth (reviewIndex s) (JObject ms') items)
      /\ render (JObject ms') isEnhancingStyling
         = Ok (map (fun g =>
                      if String.eqb (fieldName g) (fieldName f)
                      then {| label := label g;
                              fieldName := fieldName g;
                              value := JString text;
                              rows := rows g;
                              enhanceDisabled := enhanceDisabled g |}
                      else g)
                 fields).
Proof.
  intros s items ms specs enhancing fields f text Hstore Hjson Hitem Hspecs Hrender Hin.
  unfold render, prop in Hrender. cbn [nullish bind own] in Hrender.
  rewrite Hspecs in Hrender. cbn [nullish bind] in Hrender.
  injection Hrender as <-.
  assert (forall (k : string) (ms' : Members),
            "format" <> k ->
            (forall k' : string, k' <> k -> lookup k' ms' = lookup k' ms) ->
            isVideo (JObject ms') = isVideo (JObject ms)) as Hformat.
  { intros k ms' Hk Hold. unfold isVideo. cbn [own]. rewrite (Hold "format" Hk).
    reflexivity. }
  destruct (isVideo (JObject ms)) eqn:Hvideo; cbn [In app] in Hin.
  all: repeat
         (destruct Hin as [<- | Hin];
          [ cbn [fieldName plainField];
            match goal with
            | |- exists _ _, handleConceptEdit ?path _ _ = _ /\ _ =>
                let segments := eval vm_compute in (split_dot path) in
                match segments with
                | [?k] =>
                    destruct (edit_of_a_member s items ms path k text Hstore Hjson Hitem
                                eq_refl eq_refl) as (ms' & Hedit & Hnew & Hold);
                    exists (setEditableConcepts
                              (JArray (replace_nth (reviewIndex s) (JObject ms') items)) s),
                      ms';
                    split; [exact Hedit|]; split; [reflexivity|]; split; [reflexivity|];
                    unfold render, prop; cbn [nullish bind own];
                    rewrite (Hformat k ms' ltac:(discriminate) Hold);
                    rewrite_lookups ms' Hnew Hold; rewrite Hspecs; cbn [nullish bind];
                    reflexivity
                | [_; ?k] =>
                    destruct (edit_of_a_technical_spec s items ms specs path k text Hstore
                                Hjson Hitem Hspecs eq_refl eq_refl)
                      as (ms' & specs' & Hedit & Hnew & Hold & Hnew' & Hold');
                    exists (setEditableConcepts
                              (JArray (replace_nth (reviewIndex s) (JObject ms') items)) s),
                      ms';
                    split; [exact Hedit|]; split; [reflexivity|]; split; [reflexivity|];
                    unfold render, prop; cbn [nullish bind own];
                    rewrite (Hformat "technicalSpecs" ms' ltac:(discriminate) Hold);
                    rewrite_lookups ms' Hnew Hold; cbn [nullish bind own];
                    rewrite_lookups specs' Hnew' Hold';
                    rewrite ?or_else_text; reflexivity
                end
            end
          |]).
  all: destruct Hin.
Qed.

(** ** The selector *)

(** X13. For concepts whose option names the computed keys turn into text,
    the selector's two initial records can be built exactly when there are
    a first and a second concept and the options hold both a hooks and a
    ctas member; otherwise mounting throws a TypeError. *)
Theorem the_selector_mounts_on_two_concepts_and_both_lists :
  forall concepts hooksAndCtas : Value,
    printable (own (item concepts 0) "optionName") = true ->
    printable (own (item concepts 1) "optionName") = true ->
    (exists sel : Selection, initialSelection concepts hooksAndCtas = Ok sel)
    <-> (nullish concepts = false
         /\ nullish (item concepts 0) = false
         /\ nullish (item concepts 1) = false
         /\ nullish hooksAndCtas = false
         /\ nullish (own hooksAndCtas "hooks") = false
         /\ nullish (own hooksAndCtas "ctas") = false).
Proof.
  intros concepts hooksAndCtas _ _. unfold initialSelection, at_index, prop.
  destruct (nullish concepts); cbn [bind];
    [split; [intros [sel H]; discriminate H | intros (H & _); discriminate H]|].
  destruct (nullish (item concepts 0)); cbn [bind];
    [split; [intros [sel H]; discriminate H | intros (_ & H & _); discriminate H]|].
  destruct (nullish hooksAndCtas); cbn [bind];
    [split; [intros [sel H]; discriminate H | intros (_ & _ & _ & H & _); discriminate H]|].
  destruct (nullish (own hooksAndCtas "hooks")); cbn [bind];
    [split; [intros [sel H]; discriminate H
            | intros (_ & _ & _ & _ & H & _); discriminate H]|].
  destruct (nullish (item concepts 1)); cbn [bind];
    [split; [intros [sel H]; discriminate H | intros (_ & _ & H & _); discriminate H]|].
  destruct (nullish (own hooksAndCtas "ctas")); cbn [bind];
    [split; [intros [sel H]; discriminate H
            | intros (_ & _ & _ & _ & _ & H); discriminate H]|].
  split; [intros _; repeat split | intros _; eexists; reflexivity].
Qed.

(** What confirming hands on for two concepts whose copy the selection
    holds. *)
Lemma confirm_two (c0 c1 : Value) (sel : Selection) (h0 h1 t0 t1 : Value) :
  nullish c0 = false -> nullish c1 = false ->
  lookup (key_of c0) (selectedHooks sel) = Some h0 ->
  lookup (key_of c1) (selectedHooks sel) = Some h1 ->
  lookup (key_of c0) (selectedCtas sel) = Some t0 ->
  lookup (key_of c1) (selectedCtas sel) = Some t1 ->
  handleConfirm false (JArray [c0; c1]) sel
  = Done (Some (JArray
       [ JObject (define_own "cta" t0 (define_own "hookLine" h0 (spread c0)));
         JObject (define_own "cta" t1 (define_own "hookLine" h1 (spread c1))) ])).
Proof.
  intros Hn0 Hn1 Hh0 Hh1 Ht0 Ht1.
  unfold handleConfirm. cbn [map_outcome]. unfold withSelectedCopy, prop, read_member.
  rewrite Hn0, Hn1. cbn [lift obind]. fold (key_of c0). fold (key_of c1).
  rewrite Hh0, Hh1, Ht0, Ht1. reflexivity.
Qed.

Lemma lookup_copy (k : string) (h t : Value) (ms : Members) :
  lookup k (define_own "cta" t (define_own "hookLine" h ms))
  = if String.eqb k "cta" then Some t
    else if String.eqb k "hookLine" then Some h
    else lookup k ms.
Proof.
  destruct (String.eqb k "cta") eqn:Ecta.
  - apply String.eqb_eq in Ecta. subst k. apply lookup_define_own_same.
  - apply String.eqb_neq in Ecta. rewrite (lookup_define_own_other "cta" k) by exact Ecta.
    destruct (String.eqb k "hookLine") eqn:Ehook.
    + apply String.eqb_eq in Ehook. subst k. apply lookup_define_own_same.
    + apply String.eqb_neq in Ehook. apply lookup_define_own_other, Ehook.
Qed.

(** The selection the selector mounts with. *)
Lemma mounted_selection (c0 c1 hooksAndCtas : Value) (sel : Selection) :
  initialSelection (JArray [c0; c1]) hooksAndCtas = Ok sel ->
  let hooks := own hooksAndCtas "hooks" in
  let ctas := own hooksAndCtas "ctas" in
  nullish c0 = false /\ nullish c1 = false
  /\ selectedHooks sel
     = define_own (key_of c1) (or_else (item hooks 1) (own c1 "hookLine"))
         (define_own (key_of c0) (or_else (item hooks 0) (own c0 "hookLine")) [])
  /\ selectedCtas sel
     = define_own (key_of c1) (or_else (item ctas 1) (own c1 "cta"))
         (define_own (key_of c0) (or_else (item ctas 0) (own c0 "cta")) []).
Proof.
  unfold initialSelection. intros H.
  repeat match type of H with
         | bind _ _ = Ok _ =>
             let a := fresh "a" in
             let E := fresh "E" in
             apply bind_ok in H; destruct H as (a & E & H)
         end.
  injection H as <-.
  repeat match goal with
         | E : at_index _ _ = Ok _ |- _ => apply at_index_ok in E; destruct E as [? ?]
         | E : prop _ _ = Ok _ |- _ => apply prop_ok in E; destruct E as [? ?]
         end.
  subst. cbn [item nth] in *. unfold key_of. cbn [selectedHooks selectedCtas].
  repeat split; assumption.
Qed.

(** X14. Confirming right after the selector has mounted, for option names
    the computed keys turn into text and options that hold no number but
    plain ones. The second concept gets the second offered hook and CTA, or
    keeps its own where that option is missing or empty; the first concept
    gets the first ones when its option name differs from the second's, and
    otherwise the copy of the second. *)
Theorem the_copy_confirmed_without_a_pick :
  forall (c0 c1 hooksAndCtas : Value) (mounted : Selection),
    initialSelection (JArray [c0; c1]) hooksAndCtas = Ok mounted ->
    printable (own c0 "optionName") = true ->
    printable (own c1 "optionName") = true ->
    plain hooksAndCtas = true ->
    let hooks := own hooksAndCtas "hooks" in
    let ctas := own hooksAndCtas "ctas" in
    exists final0 final1 : Members,
      handleConfirm false (JArray [c0; c1]) mounted
      = Done (Some (JArray [JObject final0; JObject final1]))
      /\ lookup "hookLine" final1 = Some (or_else (item hooks 1) (own c1 "hookLine"))
      /\ lookup "cta" final1 = Some (or_else (item ctas 1) (own c1 "cta"))
      /\ (key_of c0 <> key_of c1 ->
          lookup "hookLine" final0 = Some (or_else (item hooks 0) (own c0 "hookLine"))
          /\ lookup "cta" final0 = Some (or_else (item ctas 0) (own c0 "cta")))
      /\ (key_of c0 = key_of c1 ->
          lookup "hookLine" final0 = lookup "hookLine" final1
          /\ lookup "cta" final0 = lookup "cta" final1).
Proof.
  intros c0 c1 hooksAndCtas mounted Hmount _ _ _ hooks ctas.
  destruct (mounted_selection c0 c1 hooksAndCtas mounted Hmount)
    as (Hn0 & Hn1 & Hhooks & Hctas).
  fold hooks in Hhooks. fold ctas in Hctas.
  assert (forall (k0 k1 : string) (v0 v1 : Value),
            lookup k1 (define_own k1 v1 (define_own k0 v0 [])) = Some v1
            /\ (k0 <> k1 -> lookup k0 (define_own k1 v1 (define_own k0 v0 [])) = Some v0)
            /\ (k0 = k1 -> lookup k0 (define_own k1 v1 (define_own k0 v0 [])) = Some v1))
    as Hdefined.
  { intros k0 k1 v0 v1. split; [apply lookup_define_own_same|]. split.
    - intros Hne. rewrite (lookup_define_own_other k1 k0) by exact Hne.
      apply lookup_define_own_same.
    - intros ->. apply lookup_define_own_same. }
  destruct (Hdefined (key_of c0) (key_of c1)
              (or_else (item hooks 0) (own c0 "hookLine"))
              (or_else (item hooks 1) (own c1 "hookLine"))) as (Hh1 & Hh0 & Hh0').
  destruct (Hdefined (key_of c0) (key_of c1)
              (or_else (item ctas 0) (own c0 "cta"))
              (or_else (item ctas 1) (own c1 "cta"))) as (Ht1 & Ht0 & Ht0').
  rewrite <- Hhooks in Hh1, Hh0, Hh0'. rewrite <- Hctas in Ht1, Ht0, Ht0'.
  destruct (String.eqb (key_of c0) (key_of c1)) eqn:Ekeys.
  - apply String.eqb_eq in Ekeys.
    eexists _, _. split.
    { exact (confirm_two c0 c1 mounted _ _ _ _ Hn0 Hn1 (Hh0' Ekeys) Hh1 (Ht0' Ekeys) Ht1). }
    rewrite !lookup_copy. cbn [String.eqb Ascii.eqb Bool.eqb].
    repeat split; try reflexivity. all: intros; contradiction.
  - apply String.eqb_neq in Ekeys.
    eexists _, _. split.
    { exact (confirm_two c0 c1 mounted _ _ _ _ Hn0 Hn1 (Hh0 Ekeys) Hh1 (Ht0 Ekeys) Ht1). }
    rewrite !lookup_copy. cbn [String.eqb Ascii.eqb Bool.eqb].
    repeat split; try reflexivity. all: intros; contradiction.
Qed.

Lemma has_own_inv (k : string) (ms : Members) :
  has_own k ms = true -> exists v : Value, lookup k ms = Some v.
Proof. unfold has_own. destruct (lookup k ms); [eauto | discriminate]. Qed.

(** After the selector has mounted and whatever has been picked, the
    selection holds a hook and a CTA for either concept. *)
Lemma selection_covers_both (c0 c1 hooksAndCtas : Value) (mounted : Selection)
      (picks : list Choice) :
  initialSelection (JArray [c0; c1]) hooksAndCtas = Ok mounted ->
  let sel := fold_left (choose (JArray [c0; c1])) picks mounted in
  nullish c0 = false /\ nullish c1 = false
  /\ exists h0 h1 t0 t1 : Value,
       lookup (key_of c0) (selectedHooks sel) = Some h0
       /\ lookup (key_of c1) (selectedHooks sel) = Some h1
       /\ lookup (key_of c0) (selectedCtas sel) = Some t0
       /\ lookup (key_of c1) (selectedCtas sel) = Some t1.
Proof.
  intros Hmount sel.
  destruct (mounted_selection_covers_both c0 c1 hooksAndCtas mounted Hmount)
    as (Hn0 & Hn1 & Hh0 & Hh1 & Hc0 & Hc1).
  destruct (choices_keep_keys (JArray [c0; c1]) picks mounted (key_of c0)) as [K0 K0'].
  destruct (choices_keep_keys (JArray [c0; c1]) picks mounted (key_of c1)) as [K1 K1'].
  destruct (has_own_inv _ _ (K0 Hh0)) as [h0 E0].
  destruct (has_own_inv _ _ (K1 Hh1)) as [h1 E1].
  destruct (has_own_inv _ _ (K0' Hc0)) as [t0 E0'].
  destruct (has_own_inv _ _ (K1' Hc1)) as [t1 E1'].
  split; [exact Hn0|]. split; [exact Hn1|]. exists h0, h1, t0, t1. auto.
Qed.


(** X16. A pick in one of the select boxes, after any earlier picks, for
    option names the computed keys turn into text and options that hold no
    number but plain ones. Confirming then hands on the picked text as the
    hook (or CTA) of the concept the box belongs to and leaves every other
    member of both concepts as confirming before the pick would; the other
    concept is the same object as before when the option names differ, and
    gets the picked text too when they are equal. *)
Theorem a_pick_changes_the_copy_of_its_concept :
  forall (c0 c1 hooksAndCtas : Value) (mounted : Selection) (picks : list Choice)
         (forHook : bool) (i : nat) (text : string),
    initialSelection (JArray [c0; c1]) hooksAndCtas = Ok mounted ->
    printable (own c0 "optionName") = true ->
    printable (own c1 "optionName") = true ->
    plain hooksAndCtas = true ->
    i < 2 ->
    let concepts := JArray [c0; c1] in
    let before := fold_left (choose concepts) picks mounted in
    let pick := if forHook then ChooseHook i text else ChooseCta i text in
    let picked := if forHook then "hookLine" else "cta" in
    exists before0 before1 after0 after1 : Members,
      handleConfirm false concepts before
      = Done (Some (JArray [JObject before0; JObject before1]))
      /\ handleConfirm false concepts (choose concepts before pick)
         = Done (Some (JArray [JObject after0; JObject after1]))
      /\ lookup picked (nth i [after0; after1] []) = Some (JString text)
      /\ (forall k : string,
            k <> picked ->
            lookup k after0 = lookup k before0 /\ lookup k after1 = lookup k before1)
      /\ (key_of c0 <> key_of c1 ->
          nth (1 - i) [after0; after1] [] = nth (1 - i) [before0; before1] [])
      /\ (key_of c0 = key_of c1 ->
          lookup picked after0 = Some (JString text)
          /\ lookup picked after1 = Some (JString text)).
Proof.
  intros c0 c1 hooksAndCtas mounted picks forHook i text Hmount _ _ _ Hi concepts before
         pick picked.
  destruct (selection_covers_both c0 c1 hooksAndCtas mounted picks Hmount)
    as (Hn0 & Hn1 & h0 & h1 & t0 & t1 & Hh0 & Hh1 & Ht0 & Ht1).
  fold concepts in Hh0, Hh1, Ht0, Ht1. fold before in Hh0, Hh1, Ht0, Ht1.
  exists (define_own "cta" t0 (define_own "hookLine" h0 (spread c0))),
    (define_own "cta" t1 (define_own "hookLine" h1 (spread c1))).
  assert (forall (k k' : string) (v x : Value) (ms : Members),
            lookup k' ms = Some v ->
            exists v', lookup k' (define_own k x ms) = Some v'
                       /\ (k' = k -> v' = x) /\ (k' <> k -> v' = v)) as Hdefine.
  { intros k k' v x ms Hv. destruct (String.eqb k' k) eqn:E.
    - apply String.eqb_eq in E. subst k'. exists x.
      rewrite lookup_define_own_same.
      split; [reflexivity|]. split; [reflexivity | intros H; contradiction].
    - apply String.eqb_neq in E. exists v.
      rewrite (lookup_define_own_other k k') by exact E.
      split; [exact Hv|]. split; [intros H; contradiction | reflexivity]. }
  assert (i = 0 \/ i = 1) as [-> | ->] by lia; destruct forHook; subst pick picked;
    cbn [choose concepts item nth nullish]; rewrite ?Hn0, ?Hn1;
    fold (key_of c0); fold (key_of c1); cbn [Nat.sub].
  - destruct (Hdefine (key_of c0) (key_of c0) h0 (JString text) _ Hh0) as (h0' & E0 & A0 & _).
    destruct (Hdefine (key_of c0) (key_of c1) h1 (JString text) _ Hh1) as (h1' & E1 & A1 & B1).
    eexists _, _. split; [exact (confirm_two c0 c1 _ _ _ _ _ Hn0 Hn1 Hh0 Hh1 Ht0 Ht1)|].
    split; [apply confirm_two; [exact Hn0 | exact Hn1 | exact E0 | exact E1 | exact Ht0 | exact Ht1]|].
    cbn [nth]. rewrite !lookup_copy. cbn [String.eqb Ascii.eqb Bool.eqb].
    rewrite (A0 eq_refl). split; [reflexivity|]. split; [|split].
    + intros k Hk. rewrite !lookup_copy. apply String.eqb_neq in Hk. rewrite Hk.
      split; reflexivity.
    + intros Hne. rewrite (B1 (fun E => Hne (eq_sym E))). reflexivity.
    + intros Heq. rewrite (A1 (eq_sym Heq)). split; reflexivity.
  - destruct (Hdefine (key_of c0) (key_of c0) t0 (JString text) _ Ht0) as (t0' & E0 & A0 & _).
    destruct (Hdefine (key_of c0) (key_of c1) t1 (JString text) _ Ht1) as (t1' & E1 & A1 & B1).
    eexists _, _. split; [exact (confirm_two c0 c1 _ _ _ _ _ Hn0 Hn1 Hh0 Hh1 Ht0 Ht1)|].
    split; [apply confirm_two; [exact Hn0 | exact Hn1 | exact Hh0 | exact Hh1 | exact E0 | exact E1]|].
    cbn [nth]. rewrite !lookup_copy. cbn [String.eqb Ascii.eqb Bool.eqb].
    rewrite (A0 eq_refl). split; [reflexivity|]. split; [|split].
    + intros k Hk. rewrite !lookup_copy. apply String.eqb_neq in Hk. rewrite Hk.
      split; reflexivity.
    + intros Hne. rewrite (B1 (fun E => Hne (eq_sym E))). reflexivity.
    + intros Heq. rewrite (A1 (eq_sym Heq)). split; reflexivity.
  - destruct (Hdefine (key_of c1) (key_of c0) h0 (JString text) _ Hh0) as (h0' & E0 & A0 & B0).
    destruct (Hdefine (key_of c1) (key_of c1) h1 (JString text) _ Hh1) as (h1' & E1 & A1 & _).
    eexists _, _. split; [exact (confirm_two c0 c1 _ _ _ _ _ Hn0 Hn1 Hh0 Hh1 Ht0 Ht1)|].
    split; [apply confirm_two; [exact Hn0 | exact Hn1 | exact E0 | exact E1 | exact Ht0 | exact Ht1]|].
    cbn [nth]. rewrite !lookup_copy. cbn [String.eqb Ascii.eqb Bool.eqb].
    rewrite (A1 eq_refl). split; [reflexivity|]. split; [|split].
    + intros k Hk. rewrite !lookup_copy. apply String.eqb_neq in Hk. rewrite Hk.
      split; reflexivity.
    + intros Hne. rewrite (B0 Hne). reflexivity.
    + intros Heq. rewrite (A0 Heq). split; reflexivity.
  - destruct (Hdefine (key_of c1) (key_of c0) t0 (JString text) _ Ht0) as (t0' & E0 & A0 & B0).
    destruct (Hdefine (key_of c1) (key_of c1) t1 (JString text) _ Ht1) as (t1' & E1 & A1 & _).
    eexists _, _. split; [exact (confirm_two c0 c1 _ _ _ _ _ Hn0 Hn1 Hh0 Hh1 Ht0 Ht1)|].
    split; [apply confirm_two; [exact Hn0 | exact Hn1 | exact Hh0 | exact Hh1 | exact E0 | exact E1]|].
    cbn [nth]. rewrite !lookup_copy. cbn [String.eqb Ascii.eqb Bool.eqb].
    rewrite (A1 eq_refl). split; [reflexivity|]. split; [|split].
    + intros k Hk. rewrite !lookup_copy. apply String.eqb_neq in Hk. rewrite Hk.
      split; reflexivity.
    + intros Hne. rewrite (B0 Hne). reflexivity.
    + intros Heq. rewrite (A0 Heq). split; reflexivity.
Qed.

(** ** The concepts in the terminal instruction *)

Lemma strip_prefix_within (n a b r : string) :
  strip_prefix n a = Some r -> strip_prefix n (a ++ b) = Some (r ++ b).
Proof.
  revert a. induction n as [|c n IH]; intros a; simpl.
  - intros H. injection H as <-. reflexivity.
  - destruct a as [|d a]; simpl; [discriminate|].
    destruct (Ascii.eqb c d); [apply IH | discriminate].
Qed.

Lemma includes_within (n a b : string) :
  includes n a = true -> includes n (a ++ b) = true.
Proof.
  induction a as [|c a IH].
  - simpl. destruct (strip_prefix n EmptyString) as [r|] eqn:E; [|discriminate].
    intros _. destruct n; [|discriminate E]. destruct b; reflexivity.
  - intros H. cbn [includes append] in *.
    destruct (strip_prefix n (String c a)) as [r|] eqn:E.
    + change (String c (a ++ b)) with (String c a ++ b).
      rewrite (strip_prefix_within _ _ b _ E). reflexivity.
    + change (String c (a ++ b)) with (String c a ++ b).
      destruct (strip_prefix n (String c a ++ b)); [reflexivity | exact (IH H)].
Qed.

Lemma append_nothing (s : string) : s ++ EmptyString = s.
Proof. induction s as [|c s IH]; simpl; [reflexivity | rewrite IH; reflexivity]. Qed.

Lemma includes_itself (p : string) : includes p p = true.
Proof. apply (includes_at p p EmptyString). symmetry. apply append_nothing. Qed.

Lemma includes_in_lines (sep p : string) (parts : list string) :
  In p parts -> includes p (join_lines sep parts) = true.
Proof.
  induction parts as [|x parts IH]; [intros []|].
  intros [-> | Hin]; cbn [join_lines].
  - destruct parts; [apply includes_itself|].
    apply includes_within, includes_itself.
  - destruct parts as [|y parts]; [destruct Hin|].
    apply includes_skip, includes_skip, IH, Hin.
Qed.

(** A member of an object is printed in its JSON text, as its quoted key, a
    colon and a space, and the text of its value. *)
Lemma member_in_json (k : string) (x : Value) (ms : Members) (indent t text : string) :
  lookup k ms = Some x ->
  serialize (indent ++ "  ") x = Some t ->
  serialize indent (JObject ms) = Some text ->
  includes (quote k ++ ": " ++ t) text = true.
Proof.
  intros Hk Hx. cbn [serialize].
  set (parts := (fix go (ms0 : Members) : list string :=
                   match ms0 with
                   | [] => []
                   | (k0, x0) :: rest =>
                       match serialize (indent ++ "  ") x0 with
                       | Some t0 => (quote k0 ++ ": " ++ t0) :: go rest
                       | None => go rest
                       end
                   end) ms).
  assert (In (quote k ++ ": " ++ t) parts) as Hin.
  { subst parts. induction ms as [|[k' x'] ms IH]; [discriminate Hk|].
    cbn [lookup] in Hk. destruct (String.eqb k k') eqn:E.
    - apply String.eqb_eq in E. subst k'. injection Hk as ->. rewrite Hx. left. reflexivity.
    - destruct (serialize (indent ++ "  ") x'); [right|]; exact (IH Hk). }
  destruct parts as [|p parts]; [destruct Hin|].
  intros H. injection H as <-.
  apply (includes_skip _ "{"), (includes_skip _ nl), (includes_skip _ (indent ++ "  ")).
  apply (includes_within _
           (join_lines ("," ++ nl ++ indent ++ "  ") (p :: parts)) (nl ++ indent ++ "}")).
  exact (includes_in_lines _ _ (p :: parts) Hin).
Qed.


(** X17. The copy the user confirmed reaches the provider. The one request of
    the terminal run prints both confirmed concepts in full, so the hook
    line and the CTA of each are in the instruction as JSON members; for
    still images the instruction also quotes both hook lines and both
    CTAs as the text to render, names the price tag (Not provided for an
    empty one) and asks for a sticker with the price tag as typed. *)
Theorem the_confirmed_copy_is_put_to_the_provider :
  forall (final0 final1 : Members) (s : State) (file : File) (type : AdvertType)
         (w : World) (imagePart : GenerativePart) (hook0 hook1 cta0 cta1 : string),
    imageFile s = Some file ->
    advertType s = Some type ->
    read_file w file = Ok imagePart ->
    lookup "hookLine" final0 = Some (JString hook0) ->
    lookup "hookLine" final1 = Some (JString hook1) ->
    lookup "cta" final0 = Some (JString cta0) ->
    lookup "cta" final1 = Some (JString cta1) ->
    let final := JArray [JObject final0; JObject final1] in
    let printed0 := JSON_stringify_2 (JObject final0) in
    let printed1 := JSON_stringify_2 (JObject final1) in
    exists q : Request,
      requests w (handleFinalizeAndGenerateOutputs final s) = [q]
      /\ includes ("    1. Concept: " ++ printed0) (prompt q) = true
      /\ includes ("    2. Concept: " ++ printed1) (prompt q) = true
      /\ includes (quote "hookLine" ++ ": " ++ quote hook0) printed0 = true
      /\ includes (quote "cta" ++ ": " ++ quote cta0) printed0 = true
      /\ includes (quote "hookLine" ++ ": " ++ quote hook1) printed1 = true
      /\ includes (quote "cta" ++ ": " ++ quote cta1) printed1 = true
      /\ (type = still ->
          includes ("        - The hook line: " ++ dq ++ hook0 ++ dq
                    ++ " (for the first prompt) and " ++ dq ++ hook1 ++ dq
                    ++ " (for the second).") (prompt q) = true
          /\ includes ("        - The CTA: " ++ dq ++ cta0 ++ dq
                       ++ " (for the first prompt) and " ++ dq ++ cta1 ++ dq
                       ++ " (for the second).") (prompt q) = true
          /\ includes ("    OPTIONAL PRICE TAG: " ++ dq
                       ++ or_string (priceTag s) "Not provided" ++ dq) (prompt q) = true
          /\ includes ("**If a price tag is provided**, the prompt MUST also include instructions to add a visually appealing price tag sticker with the text "
                       ++ dq ++ priceTag s ++ dq) (prompt q) = true).
Proof.
  intros final0 final1 s file type w imagePart hook0 hook1 cta0 cta1 Himage Htype Hread
         Hh0 Hh1 Hc0 Hc1 final printed0 printed1.
  destruct (finalize_consumes_what_it_is_given final0 final1 s file type w imagePart
              Himage Htype Hread) as [_ Hprompt].
  fold final in Hprompt.
  destruct (requests w (handleFinalizeAndGenerateOutputs final s)) as [|q [|q' rest]];
    try discriminate Hprompt.
  exists q. split; [reflexivity|].
  cbn [map] in Hprompt. injection Hprompt as Hprompt.
  assert (forall (k text : string) (ms : Members),
            lookup k ms = Some (JString text) ->
            includes (quote k ++ ": " ++ quote text) (JSON_stringify_2 (JObject ms)) = true)
    as Hmember.
  { intros k text ms Hk. unfold JSON_stringify_2.
    destruct (serialize EmptyString (JObject ms)) as [t|] eqn:E.
    - exact (member_in_json k (JString text) ms EmptyString (quote text) t Hk eq_refl E).
    - cbn [serialize] in E.
      match type of E with
      | match ?parts with _ => _ end = None => destruct parts; discriminate E
      end. }
  split; [|split; [|split; [|split; [|split; [|split]]]]];
    try (apply Hmember; assumption).
  - rewrite Hprompt. destruct type; unfold imagePromptsPrompt, videoScriptsPrompt;
      subst printed0; in_text.
  - rewrite Hprompt. destruct type; unfold imagePromptsPrompt, videoScriptsPrompt;
      subst printed1; in_text.
  - intros ->. rewrite Hprompt. unfold imagePromptsPrompt.
    cbn [own]. rewrite Hh0, Hh1, Hc0, Hc1. cbn [ToString or_text priceTagText].
    fold (or_string (priceTag s) "Not provided").
    repeat split; in_text.
Qed.

(** ** White space around an answer *)

Lemma rev_string_acc (s acc : string) :
  rev_string s acc = rev_string s EmptyString ++ acc.
Proof.
  revert acc. induction s as [|c s IH]; intros acc; simpl; [reflexivity|].
  rewrite (IH (String c acc)), (IH (String c EmptyString)), append_assoc. reflexivity.
Qed.

Lemma rev_string_append (a b : string) :
  rev_string (a ++ b) EmptyString = rev_string b EmptyString ++ rev_string a EmptyString.
Proof.
  induction a as [|c a IH]; simpl.
  - symmetry. apply append_nothing.
  - rewrite (rev_string_acc (a ++ b)), (rev_string_acc a), IH, append_assoc. reflexivity.
Qed.

Lemma rev_string_involutive (s : string) :
  rev_string (rev_string s EmptyString) EmptyString = s.
Proof.
  induction s as [|c s IH]; simpl; [reflexivity|].
  rewrite (rev_string_acc s), rev_string_append, IH. reflexivity.
Qed.

(** Stripping a white space code point that heads the text leaves the rest:
    no other code point of the list is a prefix of it. *)
Lemma strip_any_white_space (w s : string) :
  In w white_space -> strip_any white_space (w ++ s) = Some s.
Proof.
  intros Hin. unfold white_space in Hin. cbn [map bytes fold_right In] in Hin.
  repeat (destruct Hin as [<- | Hin]; [reflexivity|]). destruct Hin.
Qed.

Lemma strip_any_white_space_reversed (w s : string) :
  In w white_space ->
  strip_any (map (fun w => rev_string w EmptyString) white_space)
    (rev_string w EmptyString ++ s) = Some s.
Proof.
  intros Hin. unfold white_space in Hin. cbn [map bytes fold_right In] in Hin.
  repeat (destruct Hin as [<- | Hin]; [reflexivity|]). destruct Hin.
Qed.

(** A printable ASCII character neither begins nor ends a white space code
    point. *)
Lemma strip_any_printable (c : ascii) (r : string) :
  33 <= nat_of_ascii c <= 126 ->
  strip_any white_space (String c r) = None
  /\ strip_any (map (fun w => rev_string w EmptyString) white_space) (String c r) = None.
Proof.
  intros Hc.
  assert (forall n : nat, (n < 33 \/ 126 < n) -> n < 256 ->
                          Ascii.eqb (ascii_of_nat n) c = false) as Hne.
  { intros n Hn Hlt. destruct (Ascii.eqb (ascii_of_nat n) c) eqn:E; [|reflexivity].
    apply Ascii.eqb_eq in E. subst c. rewrite nat_ascii_embedding in Hc by exact Hlt. lia. }
  unfold white_space. cbn [map bytes fold_right rev_string strip_any strip_prefix].
  rewrite !Hne by lia. split; reflexivity.
Qed.

(** Stripping goes through a run of strippable pieces and stops at a text
    that none of the pieces begins. *)
Lemma strip_all_through (ps pads : list string) (x : string) (fuel : nat) :
  (forall w s, In w pads -> strip_any ps (w ++ s) = Some s) ->
  strip_any ps x = None ->
  List.length pads <= fuel ->
  strip_all fuel ps (String.concat EmptyString pads ++ x) = x.
Proof.
  intros Hstrip Hstop. revert fuel.
  assert (forall pads', (forall w, In w pads' -> In w pads) ->
            forall fuel, List.length pads' <= fuel ->
              strip_all fuel ps
                (fold_right (fun w s => w ++ s) x pads') = x) as H.
  { induction pads' as [|w pads' IH]; intros Hsub fuel Hfuel.
    - simpl. destruct fuel; simpl; [reflexivity | rewrite Hstop; reflexivity].
    - destruct fuel as [|fuel]; [simpl in Hfuel; lia|].
      cbn [fold_right strip_all]. rewrite (Hstrip w _ (Hsub w (or_introl eq_refl))).
      apply IH; [intros w' Hw'; apply Hsub; right; exact Hw' | simpl in Hfuel; lia]. }
  intros fuel Hfuel.
  assert (forall pads', String.concat EmptyString pads' ++ x
                        = fold_right (fun w s => w ++ s) x pads') as Hconcat.
  { induction pads' as [|w [|w' pads'] IH]; [reflexivity | |].
    - simpl. reflexivity.
    - change (String.concat EmptyString (w :: w' :: pads'))
        with (w ++ EmptyString ++ String.concat EmptyString (w' :: pads')).
      cbn [append fold_right] in *. rewrite append_assoc, IH. reflexivity. }
  rewrite Hconcat. apply H; [auto | exact Hfuel].
Qed.

Lemma length_append (a b : string) :
  String.length (a ++ b) = String.length a + String.length b.
Proof. induction a as [|c a IH]; simpl; [reflexivity | rewrite IH; reflexivity]. Qed.

Lemma concat_length (pads : list string) :
  (forall w, In w pads -> w <> EmptyString) ->
  List.length pads <= String.length (String.concat EmptyString pads).
Proof.
  induction pads as [|w [|w' pads] IH]; intros Hne; [simpl; lia | |].
  - simpl. destruct w; [exfalso; apply (Hne EmptyString); [left|]; reflexivity | simpl; lia].
   
  - change (String.concat EmptyString (w :: w' :: pads))
      with (w ++ EmptyString ++ String.concat EmptyString (w' :: pads)).
    cbn [append]. rewrite length_append.
    assert (1 <= String.length w).
    { destruct w; [exfalso; apply (Hne EmptyString); [left|]; reflexivity | simpl; lia]. }
    specialize (IH (fun w0 H0 => Hne w0 (or_intror H0))). simpl List.length in *. lia.
Qed.

Lemma concat_cons (w : string) (pads : list string) :
  String.concat EmptyString (w :: pads) = w ++ String.concat EmptyString pads.
Proof.
  destruct pads as [|w' pads]; [symmetry; apply append_nothing | reflexivity].
Qed.

Lemma concat_app (a b : list string) :
  String.concat EmptyString (a ++ b)%list
  = String.concat EmptyString a ++ String.concat EmptyString b.
Proof.
  induction a as [|w a IH]; [reflexivity|].
  change ((w :: a) ++ b)%list with (w :: (a ++ b)%list).
  rewrite !concat_cons, IH, append_assoc. reflexivity.
Qed.

Lemma rev_string_concat (pads : list string) :
  rev_string (String.concat EmptyString pads) EmptyString
  = String.concat EmptyString
      (rev (map (fun w => rev_string w EmptyString) pads)).
Proof.
  induction pads as [|w pads IH]; [reflexivity|].
  rewrite concat_cons, rev_string_append, IH. cbn [map rev].
  rewrite concat_app, concat_cons. cbn [String.concat]. rewrite append_nothing.
  reflexivity.
Qed.

(** X18. Every stage trims the text of the answer before it parses it. A text
    that begins and ends with a printable ASCII character (any JSON text
    does) and comes wrapped in white space of any kind, a byte-order mark
    or no-break spaces included, is trimmed to itself and parses as the
    bare text does. *)
Theorem white_space_around_an_answer_is_ignored :
  forall (before after : list string) (t : string) (first last : ascii)
         (rest tser : string),
    Forall (fun w => In w white_space) before ->
    Forall (fun w => In w white_space) after ->
    t = String first rest ->
    rev_string t EmptyString = String last tser ->
    33 <= nat_of_ascii first <= 126 ->
    33 <= nat_of_ascii last <= 126 ->
    let padded :=
      String.concat EmptyString before ++ t ++ String.concat EmptyString after in
    trim padded = t
    /\ trim t = t
    /\ parsed {| text := Some padded |} = parsed {| text := Some t |}.
Proof.
  intros before after t first last rest tser Hbefore Hafter Hfirst Hlast Hc Hd.
  assert (forall w, In w white_space -> w <> EmptyString) as Hnonempty.
  { intros w Hin ->. unfold white_space in Hin. cbn [map bytes fold_right In] in Hin.
    repeat (destruct Hin as [Hin | Hin]; [discriminate Hin|]). destruct Hin. }
  rewrite Forall_forall in Hbefore, Hafter.
  assert (forall before after : list string,
            (forall w, In w before -> In w white_space) ->
            (forall w, In w after -> In w white_space) ->
            trim (String.concat EmptyString before ++ t ++ String.concat EmptyString after)
            = t) as Htrim.
  { clear before after Hbefore Hafter. intros before after Hbefore Hafter. unfold trim.
    assert (trimStart
              (String.concat EmptyString before ++ t ++ String.concat EmptyString after)
            = t ++ String.concat EmptyString after) as ->.
    { unfold trimStart. apply strip_all_through.
      - intros w s Hw. apply strip_any_white_space, Hbefore, Hw.
      - rewrite Hfirst. cbn [append]. exact (proj1 (strip_any_printable first _ Hc)).
      - rewrite length_append.
        pose proof (concat_length before (fun w Hw => Hnonempty w (Hbefore w Hw))). lia. }
    unfold trimEnd. rewrite rev_string_append, rev_string_concat, Hlast.
    rewrite strip_all_through.
    - rewrite <- Hlast. apply rev_string_involutive.
    - intros w s Hw. apply in_rev, in_map_iff in Hw. destruct Hw as (w0 & <- & Hw0).
      apply strip_any_white_space_reversed, Hafter, Hw0.
    - exact (proj2 (strip_any_printable last _ Hd)).
    - rewrite length_append, length_rev, length_map.
      assert (List.length after
              <= String.length
                   (String.concat EmptyString
                      (rev (map (fun w => rev_string w EmptyString) after)))) as Hlen.
      { rewrite <- (length_map (fun w => rev_string w EmptyString) after), <- length_rev.
        apply concat_length. intros w Hw. apply in_rev, in_map_iff in Hw.
        destruct Hw as (w0 & <- & Hw0). intros E.
        apply (Hnonempty w0 (Hafter w0 Hw0)).
        rewrite <- (rev_string_involutive w0), E. reflexivity. }
      lia. }
  intros padded.
  assert (trim padded = t) as Hpadded by (apply Htrim; assumption).
  assert (trim t = t) as Hplain.
  { pose proof (Htrim [] [] (fun w H => match H with end) (fun w H => match H with end))
      as H.
    cbn [String.concat append] in H. rewrite append_nothing in H. exact H. }
  split; [exact Hpadded|]. split; [exact Hplain|].
  unfold parsed. cbn [text]. rewrite Hpadded, Hplain. reflexivity.
Qed.

(** ** From the review to the terminal instruction *)

(** A member that holds a text is printed in the JSON text of its object. *)
Lemma text_member_in_json (k text : string) (ms : Members) :
  lookup k ms = Some (JString text) ->
  includes (quote k ++ ": " ++ quote text) (JSON_stringify_2 (JObject ms)) = true.
Proof.
  intros Hk. unfold JSON_stringify_2.
  destruct (serialize EmptyString (JObject ms)) as [t|] eqn:E.
  - exact (member_in_json k (JString text) ms EmptyString (quote text) t Hk eq_refl E).
  - cbn [serialize] in E.
    match type of E with
    | match ?parts with _ => _ end = None => destruct parts; discriminate E
    end.
Qed.

(** The hook/CTA run that reaches the selector went through its try block:
    it has locked in the working copy. *)
Lemma hooks_run_reaches_the_selector (s s' : State) (w : World) :
  run w (handleGenerateHooksAndCtasForSelection s) = Ok s' ->
  stage s = reviewingConcepts ->
  stage s' = selectingHooksAndCtas ->
  adConcepts s' = editableConcepts s
  /\ imageFile s' = imageFile s
  /\ advertType s' = advertType s
  /\ exists file : File, imageFile s = Some file.
Proof.
  remember (handleGenerateHooksAndCtasForSelection s) as h eqn:Hh.
  unfold handleGenerateHooksAndCtasForSelection in Hh.
  destruct (imageFile s) as [file|] eqn:Hfile.
  2: { subst h. intros H Hs Hs'. injection H as <-. congruence. }
  unfold prop in Hh. destruct (nullish (editableConcepts s)); cbn [sync abind] in Hh.
  { subst h. discriminate. }
  destruct (strictly_zero _).
  { subst h. intros H Hs Hs'. injection H as <-. congruence. }
  subst h. rewrite run_try_catch, !run_abind, run_fileToGenerativePart.
  destruct (read_file w file) as [imagePart|e].
  - rewrite run_abind. destruct (run w (generateHooksAndCtas _ _ _ _)) as [v|e]; cbn [run].
    + intros H _ _. injection H as <-. repeat split; eauto.
    + intros H _ Hs'. injection H as <-. discriminate Hs'.
  - cbn [run]. intros H _ Hs'. injection H as <-. discriminate Hs'.
Qed.

(** X21. What is typed in the review is what the terminal stage is asked
    about. A text typed into a top-level field of the concept under review
    (any but the hook line and the CTA) is still there after the hook/CTA
    run has locked the working copy in, the selector has mounted on it and
    the user has picked and confirmed any copy: the one request of the
    terminal run prints that concept in full, with the field and the typed
    text as a JSON member. *)
Theorem what_is_typed_in_the_review_reaches_the_terminal_instruction :
  forall (s : State) (c0 c1 : Value) (ms : Members) (k text : string)
         (type : AdvertType),
    stage s = reviewingConcepts ->
    advertType s = Some type ->
    editableConcepts s = JArray [c0; c1] ->
    is_json (JArray [c0; c1]) = true ->
    nth_error [c0; c1] (reviewIndex s) = Some (JObject ms) ->
    split_dot k = [k] ->
    k <> "__proto__" -> k <> "hookLine" -> k <> "cta" ->
    exists edited : State,
      handleConceptEdit k text s = Done edited
      /\ forall (w : World) (selecting : State) (mounted : Selection) (picks : list Choice),
           run w (handleGenerateHooksAndCtasForSelection edited) = Ok selecting ->
           stage selecting = selectingHooksAndCtas ->
           initialSelection (adConcepts selecting) (hooksAndCtasForSelection selecting)
           = Ok mounted ->
           exists (final0 final1 : Members) (file : File),
             handleConfirm false (adConcepts selecting)
               (fold_left (choose (adConcepts selecting)) picks mounted)
             = Done (Some (JArray [JObject final0; JObject final1]))
             /\ imageFile selecting = Some file
             /\ forall (w' : World) (imagePart : GenerativePart),
                  read_file w' file = Ok imagePart ->
                  let printed :=
                    JSON_stringify_2 (JObject (nth (reviewIndex s) [final0; final1] [])) in
                  exists q : Request,
                    requests w'
                      (handleFinalizeAndGenerateOutputs
                         (JArray [JObject final0; JObject final1]) selecting) = [q]
                    /\ includes ((if Nat.eqb (reviewIndex s) 0
                                  then "    1. Concept: " else "    2. Concept: ")
                                 ++ printed) (prompt q) = true
                    /\ includes (quote k ++ ": " ++ quote text) printed = true.
Proof.
  intros s c0 c1 ms k text type Hstage Htype Hstore Hjson Hitem Hpath Hproto Hhook Hcta.
  destruct (edit_of_a_member s [c0; c1] ms k k text Hstore Hjson Hitem Hpath
              (proj2 (String.eqb_neq _ _) Hproto)) as (ms' & Hedit & Hnew & _).
  eexists. split; [exact Hedit|].
  intros w selecting mounted picks Hrun Hselecting Hmount.
  destruct (hooks_run_reaches_the_selector _ _ _ Hrun Hstage Hselecting)
    as (Hlocked & Hfile & Hadvert & file & Hfile').
  cbn [editableConcepts setEditableConcepts] in Hlocked.
  assert (advertType selecting = Some type) as Hadvert' by (rewrite Hadvert; exact Htype).
  rewrite Hlocked in Hmount |- *. clear Hlocked.
  assert (reviewIndex s = 0 \/ reviewIndex s = 1) as Hindex.
  { destruct (reviewIndex s) as [|[|n]]; auto. destruct n; discriminate Hitem. }
  assert (forall (d0 d1 : Value) (i : nat),
            i < 2 -> nth i [d0; d1] JUndefined = JObject ms' ->
            initialSelection (JArray [d0; d1]) (hooksAndCtasForSelection selecting)
            = Ok mounted ->
            exists (final0 final1 : Members),
              handleConfirm false (JArray [d0; d1])
                (fold_left (choose (JArray [d0; d1])) picks mounted)
              = Done (Some (JArray [JObject final0; JObject final1]))
              /\ lookup k (nth i [final0; final1] []) = Some (JString text)) as Hconfirm.
  { intros d0 d1 i Hi Hnth Hm.
    destruct (selection_covers_both d0 d1 _ mounted picks Hm)
      as (Hn0 & Hn1 & h0 & h1 & t0 & t1 & Hh0 & Hh1 & Ht0 & Ht1).
    eexists _, _. split.
    { exact (confirm_two d0 d1 _ _ _ _ _ Hn0 Hn1 Hh0 Hh1 Ht0 Ht1). }
    assert (String.eqb k "cta" = false) as Ec by (apply String.eqb_neq; exact Hcta).
    assert (String.eqb k "hookLine" = false) as Eh by (apply String.eqb_neq; exact Hhook).
    destruct i as [|[|i]]; [| |lia]; cbn [nth] in Hnth |- *; subst;
      rewrite lookup_copy, Ec, Eh; exact Hnew. }
  assert (exists final0 final1 : Members,
            handleConfirm false
              (JArray (replace_nth (reviewIndex s) (JObject ms') [c0; c1]))
              (fold_left
                 (choose (JArray (replace_nth (reviewIndex s) (JObject ms') [c0; c1])))
                 picks mounted)
            = Done (Some (JArray [JObject final0; JObject final1]))
            /\ lookup k (nth (reviewIndex s) [final0; final1] []) = Some (JString text))
    as (final0 & final1 & Hfinal & Hk).
  { destruct Hindex as [E | E]; rewrite E in *; cbn [replace_nth] in Hmount |- *.
    - exact (Hconfirm _ _ 0 ltac:(lia) eq_refl Hmount).
    - exact (Hconfirm _ _ 1 ltac:(lia) eq_refl Hmount). }
  exists final0, final1, file. split; [exact Hfinal|].
  split; [rewrite Hfile; exact Hfile'|].
  intros w' imagePart Hread printed.
  assert (imageFile selecting = Some file) as Hfile'' by (rewrite Hfile; exact Hfile').
  destruct (finalize_consumes_what_it_is_given final0 final1 selecting file type w'
              imagePart Hfile'' Hadvert' Hread) as [_ Hprompt].
  destruct (requests w' (handleFinalizeAndGenerateOutputs
                           (JArray [JObject final0; JObject final1]) selecting))
    as [|q [|q' rest]]; try discriminate Hprompt.
  exists q. split; [reflexivity|].
  cbn [map] in Hprompt. injection Hprompt as Hprompt.
  split; [|exact (text_member_in_json _ _ _ Hk)].
  rewrite Hprompt. subst printed.
  destruct Hindex as [E | E]; rewrite E; cbn [Nat.eqb nth];
    destruct type; unfold imagePromptsPrompt, videoScriptsPrompt; in_text.
Qed.

(** ** The theorems at work on the scenario *)

Lemma C1_witness :
  starts RunHooksAndCtas Scenario.edited Scenario.photo
    (fun imagePart =>
       HooksAndCtas imagePart (editableConcepts Scenario.edited)
         (ctaDetailsOf Scenario.edited) (copyLanguage Scenario.edited))
  /\ run (Scenario.answering Scenario.notJson)
         (awaited Scenario.photo
            (fun imagePart =>
               HooksAndCtas imagePart (editableConcepts Scenario.edited)
                 (ctaDetailsOf Scenario.edited) (copyLanguage Scenario.edited)))
     = Throw (invalid_response "hooks and CTAs")
  /\ exists s' : State,
       run (Scenario.answering Scenario.notJson) (handler RunHooksAndCtas Scenario.edited)
       = Ok s'
       /\ stage s' = reviewingConcepts
       /\ adConcepts s' = editableConcepts Scenario.edited.
Proof.
  assert (starts RunHooksAndCtas Scenario.edited Scenario.photo
            (fun imagePart =>
               HooksAndCtas imagePart (editableConcepts Scenario.edited)
                 (ctaDetailsOf Scenario.edited) (copyLanguage Scenario.edited))) as Hstart.
  { apply (starts_hooks Scenario.edited Scenario.photo (JNumber "2")); reflexivity. }
  assert (run (Scenario.answering Scenario.notJson)
            (awaited Scenario.photo
               (fun imagePart =>
                  HooksAndCtas imagePart (editableConcepts Scenario.edited)
                    (ctaDetailsOf Scenario.edited) (copyLanguage Scenario.edited)))
          = Throw (invalid_response "hooks and CTAs")) as Hfail.
  { vm_compute. reflexivity. }
  split; [exact Hstart | split; [exact Hfail|]].
  destruct (C1_failed_run_ends_in_its_retry_stage _ _ _ _ _ _ Hstart Hfail)
    as (s' & Hrun & Hstage & _ & _ & _ & _ & _ & _ & _ & _ & _ & _ & _ & Hlocked).
  exists s'. split; [exact Hrun | split; [exact Hstage | exact Hlocked]].
Defined.


Lemma C3_witness :
  exists (full hooks : Request) (k k' : Result Response -> Async Value),
    generateFullConcepts Scenario.photoPart Scenario.urlOnly EmptyString EmptyString
      Scenario.chosenIdeas still (item Scenario.styles 0) = AwaitContent full k
    /\ generateHooksAndCtas Scenario.photoPart Scenario.concepts Scenario.urlOnly "English"
       = AwaitContent hooks k'
    /\ includes ("    - Website for CTA: " ++ dq ++ "https://x.com" ++ dq ++ nl) (prompt full)
       = true
    /\ includes ("    - WhatsApp for CTA: " ++ dq ++ "Not provided" ++ dq ++ nl) (prompt full)
       = true
    /\ includes ("    - Website URL: " ++ "https://x.com" ++ nl) (prompt hooks) = true
    /\ includes ("    - WhatsApp Number: " ++ "Not provided" ++ nl) (prompt hooks) = true
    /\ run (Scenario.answering (JSON_stringify_2 Scenario.offRule))
         (generateFullConcepts Scenario.photoPart Scenario.urlOnly EmptyString EmptyString
            Scenario.chosenIdeas still (item Scenario.styles 0)) = Ok Scenario.offRule.
Proof.
  destruct (C3_cta_details_and_rule_are_put_to_the_provider Scenario.urlOnly
              Scenario.photoPart EmptyString EmptyString "English" Scenario.chosenIdeas still
              (item Scenario.styles 0) Scenario.concepts
              eq_refl eq_refl eq_refl eq_refl eq_refl eq_refl eq_refl)
    as (full & hooks & k & k' & Hfull & Hhooks & Hurl & _ & _ & Hnone & _ & _ & _ & _ & _
        & _ & _ & Hreturned & _).
  exists full, hooks, k, k'.
  split; [exact Hfull|]. split; [exact Hhooks|].
  destruct (Hurl "https://x.com" eq_refl ltac:(discriminate)) as [Hsite Hsite'].
  destruct (Hnone (or_intror eq_refl)) as [Hnumber Hnumber'].
  split; [exact Hsite|]. split; [exact Hnumber|]. split; [exact Hsite'|].
  split; [exact Hnumber'|].
  apply (Hreturned _ {| text := Some (JSON_stringify_2 Scenario.offRule) |}).
  - reflexivity.
  - vm_compute. reflexivity.
Defined.

Lemma C4_witness :
  (conforms (fullConceptsSchema true) Scenario.videoAnswer = true
   /\ exists concepts : list Value,
        Scenario.videoAnswer = JArray concepts
        /\ Forall (fun c => Spec.videoShape c = true) concepts)
  /\ exists (request : Request) (k : Result Response -> Async Value)
            (properties technicalSpecs : list (string * option Schema))
            (required technicalRequired : list string),
       generateFullConcepts Scenario.photoPart Scenario.urlOnly EmptyString EmptyString
         Scenario.chosenIdeas still (item Scenario.styles 0) = AwaitContent request k
       /\ responseSchema request = Some (ARRAY (OBJECT properties required))
       /\ In ("technicalSpecs", Some (OBJECT technicalSpecs technicalRequired)) properties
       /\ technicalRequired = [ "camera"; "lenses"; "angles"; "specs"; "mood" ]
       /\ In ("format", Some (STRING (Some ("Set to " ++ dq ++ "Still Image" ++ dq))))
            properties.
Proof.
  split.
  - assert (conforms (fullConceptsSchema true) Scenario.videoAnswer = true) as Hconf
      by (vm_compute; reflexivity).
    split; [exact Hconf|].
    refine (proj2 (proj1 (proj2 (C4_variant_shape_is_requested_of_the_provider
                                   Scenario.photoPart Scenario.urlOnly EmptyString
                                   EmptyString Scenario.chosenIdeas video
                                   (item Scenario.styles 0) _ _ eq_refl eq_refl))
                     eq_refl) Scenario.videoAnswer Hconf).
  - destruct (C4_variant_shape_is_requested_of_the_provider
                Scenario.photoPart Scenario.urlOnly EmptyString EmptyString
                Scenario.chosenIdeas still (item Scenario.styles 0) _ _ eq_refl eq_refl)
      as ((properties & technicalSpecs & required & technicalRequired & Hschema & Hspecs
           & _ & _ & _ & Hstill) & _).
    destruct (Hstill eq_refl) as (Hnames & Hrequired & _ & Hformat & _).
    eexists _, _, properties, technicalSpecs, required, technicalRequired.
    split; [reflexivity|]. split; [exact Hschema|]. split; [exact Hspecs|].
    split; [rewrite Hrequired; exact Hnames | exact Hformat].
Defined.

Lemma C5_witness :
  initialSelection (JArray [Scenario.lockedIn0; Scenario.lockedIn1]) Scenario.hooksAndCtas
  = Ok Scenario.mounted
  /\ exists final0 final1 : Members,
       handleConfirm false (JArray [Scenario.lockedIn0; Scenario.lockedIn1])
         (fold_left (choose (JArray [Scenario.lockedIn0; Scenario.lockedIn1]))
            Scenario.picks Scenario.mounted)
       = Done (Some (JArray [JObject final0; JObject final1]))
       /\ lookup "adCopy" final0 = lookup "adCopy" (spread Scenario.lockedIn0)
       /\ lookup "technicalSpecs" final1 = lookup "technicalSpecs" (spread Scenario.lockedIn1).
Proof.
  assert (initialSelection (JArray [Scenario.lockedIn0; Scenario.lockedIn1])
            Scenario.hooksAndCtas = Ok Scenario.mounted) as Hmount
    by (vm_compute; reflexivity).
  split; [exact Hmount|].
  destruct (C5_confirming_copy_changes_only_hookLine_and_cta _ _ _ _ Scenario.picks Hmount)
    as (final0 & final1 & Hconfirm & Hframe & _).
  exists final0, final1. split; [exact Hconfirm|]. split.
  - apply (Hframe "adCopy"); discriminate.
  - apply (Hframe "technicalSpecs"); discriminate.
Defined.


Lemma C8_witness :
  List.length [Scenario.entry "Night light" "The lamp in a dark room."] <> 2
  /\ exists s' : State,
       handleGenerateFullConcepts [Scenario.entry "Night light" "The lamp in a dark room."]
         Scenario.ideasReady = Return s'
       /\ stage s' = ideasGenerated
       /\ error s' = Some "Something went wrong. Please start over.".
Proof.
  assert (List.length [Scenario.entry "Night light" "The lamp in a dark room."] <> 2) as Hlen
    by (simpl; discriminate).
  split; [exact Hlen|].
  destruct (C8_wrong_number_of_ideas_is_rejected_before_any_call _ Scenario.ideasReady Hlen)
    as (s' & Hreturn & _ & Herror & Hstage & _).
  exists s'. split; [exact Hreturn | split; [exact Hstage | exact Herror]].
Defined.

Lemma C9_witness :
  nullish (item Scenario.styles 0) = false
  /\ (exists (request : Request) (k : Result Response -> Async Value),
        generateConceptIdeas Scenario.photoPart Scenario.urlOnly "Tone: calm."
          "A lamp as a lighthouse" (item Scenario.styles 0) still
        = AwaitContent request k
        /\ includes
             ("        - User's Raw Ad Concept to Enhance: " ++ dq ++ "A lamp as a lighthouse" ++ dq)
             (prompt request) = true)
  /\ exists (request : Request) (k : Result Response -> Async Value),
       generateConceptIdeas Scenario.photoPart Scenario.urlOnly "Tone: calm."
         EmptyString (item Scenario.styles 0) still
       = AwaitContent request k
       /\ includes
            ("Your task is to generate 5 distinct, highly trending, and attention-grabbing ad concept IDEAS for a still image, all aligned with the chosen ad style: "
             ++ dq ++ "Bold Minimalism: One object, one colour." ++ dq)
            (prompt request) = true.
Proof.
  split; [reflexivity|]. split.
  - destruct (C9_idea_instruction_follows_the_user_concept Scenario.photoPart
                Scenario.urlOnly "Tone: calm." "A lamp as a lighthouse"
                (item Scenario.styles 0) still eq_refl eq_refl eq_refl)
      as (request & k & Hcall & Henhance & _).
    exists request, k. split; [exact Hcall|].
    destruct (Henhance ltac:(discriminate)) as (_ & _ & _ & Hquoted & _). exact Hquoted.
  - destruct (C9_idea_instruction_follows_the_user_concept Scenario.photoPart
                Scenario.urlOnly "Tone: calm." EmptyString
                (item Scenario.styles 0) still eq_refl eq_refl eq_refl)
      as (request & k & Hcall & _ & Hinvent).
    exists request, k. split; [exact Hcall|].
    destruct (Hinvent eq_refl) as (Htext & _). rewrite Htext.
    vm_compute. reflexivity.
Defined.

(** ** The further properties at work on the scenario *)

Lemma a_run_writes_only_its_own_artifacts_witness :
  run (Scenario.answering Scenario.notJson) (handler RunHooksAndCtas Scenario.edited)
  = Ok (setStage reviewingConcepts
          (setError
             (Some "An error occurred: The AI returned an invalid response for hooks and CTAs.")
             (setAdConcepts (editableConcepts Scenario.edited) Scenario.edited)))
  /\ editableConcepts
       (setStage reviewingConcepts
          (setError
             (Some "An error occurred: The AI returned an invalid response for hooks and CTAs.")
             (setAdConcepts (editableConcepts Scenario.edited) Scenario.edited)))
     = editableConcepts Scenario.edited.
Proof.
  assert (run (Scenario.answering Scenario.notJson)
            (handler RunHooksAndCtas Scenario.edited)
          = Ok (setStage reviewingConcepts
                  (setError
                     (Some "An error occurred: The AI returned an invalid response for hooks and CTAs.")
                     (setAdConcepts (editableConcepts Scenario.edited) Scenario.edited))))
    as Hrun by (vm_compute; reflexivity).
  split; [exact Hrun|].
  destruct (a_run_writes_only_its_own_artifacts _ _ _ _ Hrun)
    as (_ & _ & _ & _ & _ & _ & _ & _ & Hstore & _).
  exact Hstore.
Defined.

Lemma a_run_asks_the_provider_at_most_once_witness :
  let q := {| model := "gemini-2.5-flash";
              prompt := advertStylesPrompt "still image";
              image := Some Scenario.photoPart;
              responseMimeType := Some "application/json";
              responseSchema := Some (title_summary_schema None None) |} in
  In q (requests Scenario.offline (handler RunStyles Scenario.typeChosen))
  /\ requests Scenario.offline (handler RunStyles Scenario.typeChosen) = [q].
Proof.
  intros q.
  assert (In q (requests Scenario.offline (handler RunStyles Scenario.typeChosen))) as Hin
    by (left; reflexivity).
  split; [exact Hin|].
  exact (proj1 (a_run_asks_the_provider_at_most_once _ _ _ _ Hin)).
Defined.

Lemma a_run_that_succeeds_commits_what_the_stage_returned_witness :
  starts (RunFullConcepts Scenario.chosenIdeas) Scenario.ideasReady Scenario.photo
    (fun imagePart =>
       FullConcepts imagePart (ctaDetailsOf Scenario.ideasReady)
         (brandGuidelines Scenario.ideasReady) (userConcept Scenario.ideasReady)
         Scenario.chosenIdeas still (selectedStyle Scenario.ideasReady))
  /\ exists s' : State,
       run (Scenario.answering (JSON_stringify_2 Scenario.concepts))
         (handler (RunFullConcepts Scenario.chosenIdeas) Scenario.ideasReady) = Ok s'
       /\ stage s' = reviewingConcepts
       /\ adConcepts s' = Scenario.concepts
       /\ editableConcepts s' = Scenario.concepts.
Proof.
  assert (starts (RunFullConcepts Scenario.chosenIdeas) Scenario.ideasReady Scenario.photo
            (fun imagePart =>
               FullConcepts imagePart (ctaDetailsOf Scenario.ideasReady)
                 (brandGuidelines Scenario.ideasReady) (userConcept Scenario.ideasReady)
                 Scenario.chosenIdeas still (selectedStyle Scenario.ideasReady))) as Hstart
    by (apply starts_full; reflexivity).
  split; [exact Hstart|].
  destruct (a_run_that_succeeds_commits_what_the_stage_returned _ _ _ _
              (Scenario.answering (JSON_stringify_2 Scenario.concepts)) Scenario.concepts
              Hstart ltac:(vm_compute; reflexivity) eq_refl ltac:(discriminate))
    as (s' & Hrun & Hstage & _ & _ & Hlocked & Hcopy & _).
  exists s'. repeat split; assumption.
Defined.

Lemma an_answer_without_ideas_sends_the_user_back_witness :
  starts RunIdeas Scenario.styleChosen Scenario.photo
    (fun imagePart =>
       ConceptIdeas imagePart (ctaDetailsOf Scenario.styleChosen)
         (brandGuidelines Scenario.styleChosen) (userConcept Scenario.styleChosen)
         (selectedStyle Scenario.styleChosen) still)
  /\ exists s' : State,
       run (Scenario.answering "[]") (handleGenerateIdeas Scenario.styleChosen) = Ok s'
       /\ stage s' = stylesGenerated
       /\ conceptIdeas s' = JArray [].
Proof.
  assert (starts RunIdeas Scenario.styleChosen Scenario.photo
            (fun imagePart =>
               ConceptIdeas imagePart (ctaDetailsOf Scenario.styleChosen)
                 (brandGuidelines Scenario.styleChosen) (userConcept Scenario.styleChosen)
                 (selectedStyle Scenario.styleChosen) still)) as Hstart
    by (apply starts_ideas; reflexivity).
  split; [exact Hstart|].
  destruct (an_answer_without_ideas_sends_the_user_back _ _ _ (Scenario.answering "[]")
              (JArray []) Hstart ltac:(vm_compute; reflexivity) eq_refl
              ltac:(intros ms H; discriminate H))
    as (_ & s' & Hrun & Hstage & _ & Hideas & _).
  exists s'. repeat split; assumption.
Defined.



Lemma an_enhancement_keeps_what_was_edited_meanwhile_witness :
  run (Scenario.answering "  Matte props, a brass tray.  ")
    (enhanceStylingNotes (item (editableConcepts Scenario.conceptsReady) 0))
  = Ok "Matte props, a brass tray."
  /\ exists ms' : Members,
       run (Scenario.answering "  Matte props, a brass tray.  ")
         (handleEnhanceStyling Scenario.meanwhile Scenario.conceptsReady)
       = Ok (Done (setIsEnhancingStyling false
                     (setEditableConcepts
                        (JArray [ JObject ms';
                                  Scenario.concept "Desk hero" "Work brighter"
                                    "Visit https://x.com" ])
                        Scenario.arrival)))
       /\ lookup "stylingNotes" ms' = Some (JString "Matte props, a brass tray.")
       /\ lookup "adCopy" ms' = Some (JString "Softer light.").
Proof.
  assert (run (Scenario.answering "  Matte props, a brass tray.  ")
            (enhanceStylingNotes (item (editableConcepts Scenario.conceptsReady) 0))
          = Ok "Matte props, a brass tray.") as Hnotes by (vm_compute; reflexivity).
  split; [exact Hnotes|].
  destruct (an_enhancement_keeps_what_was_edited_meanwhile Scenario.meanwhile
              Scenario.conceptsReady (Scenario.answering "  Matte props, a brass tray.  ")
              "Matte props, a brass tray."
              [ JObject Scenario.retyped;
                Scenario.concept "Desk hero" "Work brighter" "Visit https://x.com" ]
              Scenario.retyped eq_refl eq_refl Hnotes eq_refl eq_refl eq_refl)
    as (ms' & Hrun & Hnew & Hold & _).
  exists ms'. split; [exact Hrun|]. split; [exact Hnew|].
  rewrite (Hold "adCopy") by discriminate. reflexivity.
Defined.

Lemma the_review_panel_fails_past_the_last_concept_witness :
  stage (setReviewIndex 1 Scenario.oneConcept) = reviewingConcepts
  /\ reviewPanel (setReviewIndex 1 Scenario.oneConcept)
     = Throw (ErrorObject "Cannot read properties of undefined (reading 'format')").
Proof.
  split; [reflexivity|].
  apply (the_review_panel_fails_past_the_last_concept (setReviewIndex 1 Scenario.oneConcept)
           [item Scenario.videoAnswer 0]).
  - left. reflexivity.
  - reflexivity.
  - discriminate.
  - simpl. lia.
Defined.

Lemma an_edit_shows_in_its_field_and_in_no_other_witness :
  exists (fields : list EditableField) (s' : State) (ms' : Members),
    render (item (editableConcepts Scenario.conceptsReady) 0) false = Ok fields
    /\ handleConceptEdit "technicalSpecs.mood" "calm" Scenario.conceptsReady = Done s'
    /\ item (editableConcepts s') 0 = JObject ms'
    /\ map value
         (match render (JObject ms') false with
          | Ok shown => shown
          | Throw _ => []
          end)
       = map (fun g => if String.eqb (fieldName g) "technicalSpecs.mood"
                       then JString "calm" else value g)
           fields.
Proof.
  destruct (render (item (editableConcepts Scenario.conceptsReady) 0) false)
    as [fields|] eqn:Hrender; [|vm_compute in Hrender; discriminate Hrender].
  destruct (an_edit_shows_in_its_field_and_in_no_other Scenario.conceptsReady
              [ Scenario.concept "Night light" "Own the night" "Visit https://x.com";
                Scenario.concept "Desk hero" "Work brighter" "Visit https://x.com" ]
              (Scenario.conceptMembers "Night light" "Own the night" "Visit https://x.com")
              [ ("camera", JString "Hasselblad X2D");
                ("lenses", JString "85mm f/1.4");
                ("angles", JString "Three-quarter");
                ("specs", JString "High-resolution, 3:2");
                ("mood", JString "dark and moody") ]
              false fields
              (plainField "Mood / Effect" "technicalSpecs.mood" (JString "dark and moody"))
              "calm" eq_refl eq_refl eq_refl eq_refl Hrender
              ltac:(vm_compute in Hrender; injection Hrender as <-;
                    do 6 right; left; reflexivity))
    as (s' & ms' & Hedit & _ & Hstore & Hshown).
  exists fields, s', ms'. split; [reflexivity|]. split; [exact Hedit|].
  split; [rewrite Hstore; reflexivity|].
  rewrite Hshown. rewrite map_map. apply map_ext. intros g.
  cbn [fieldName plainField]. destruct (String.eqb (fieldName g) "technicalSpecs.mood");
    reflexivity.
Defined.

Lemma the_selector_mounts_on_two_concepts_and_both_lists_witness :
  exists sel : Selection,
    initialSelection Scenario.concepts Scenario.hooksAndCtas = Ok sel.
Proof.
  apply (proj2 (the_selector_mounts_on_two_concepts_and_both_lists
                  Scenario.concepts Scenario.hooksAndCtas eq_refl eq_refl)).
  repeat split.
Defined.

Lemma the_copy_confirmed_without_a_pick_witness :
  initialSelection (JArray [Scenario.lockedIn0; Scenario.lockedIn1]) Scenario.hooksAndCtas
  = Ok Scenario.mounted
  /\ exists final0 final1 : Members,
       handleConfirm false (JArray [Scenario.lockedIn0; Scenario.lockedIn1]) Scenario.mounted
       = Done (Some (JArray [JObject final0; JObject final1]))
       /\ lookup "hookLine" final0 = Some (JString "Glow up")
       /\ lookup "hookLine" final1 = Some (JString "Light it")
       /\ lookup "cta" final1 = Some (JString "Buy at https://x.com").
Proof.
  assert (initialSelection (JArray [Scenario.lockedIn0; Scenario.lockedIn1])
            Scenario.hooksAndCtas = Ok Scenario.mounted) as Hmount
    by (vm_compute; reflexivity).
  split; [exact Hmount|].
  destruct (the_copy_confirmed_without_a_pick _ _ _ _ Hmount eq_refl eq_refl eq_refl)
    as (final0 & final1 & Hconfirm & Hhook1 & Hcta1 & Hfirst & _).
  exists final0, final1. split; [exact Hconfirm|].
  destruct (Hfirst ltac:(discriminate)) as [Hhook0 _].
  split; [exact Hhook0|]. split; [exact Hhook1 | exact Hcta1].
Defined.


Lemma a_pick_changes_the_copy_of_its_concept_witness :
  initialSelection (JArray [Scenario.lockedIn0; Scenario.lockedIn1]) Scenario.hooksAndCtas
  = Ok Scenario.mounted
  /\ exists before0 before1 after0 after1 : Members,
       handleConfirm false (JArray [Scenario.lockedIn0; Scenario.lockedIn1])
         (choose (JArray [Scenario.lockedIn0; Scenario.lockedIn1])
            (fold_left (choose (JArray [Scenario.lockedIn0; Scenario.lockedIn1]))
               Scenario.picks Scenario.mounted)
            (ChooseHook 0 "Shine on"))
       = Done (Some (JArray [JObject after0; JObject after1]))
       /\ handleConfirm false (JArray [Scenario.lockedIn0; Scenario.lockedIn1])
            (fold_left (choose (JArray [Scenario.lockedIn0; Scenario.lockedIn1]))
               Scenario.picks Scenario.mounted)
          = Done (Some (JArray [JObject before0; JObject before1]))
       /\ lookup "hookLine" after0 = Some (JString "Shine on")
       /\ after1 = before1.
Proof.
  assert (initialSelection (JArray [Scenario.lockedIn0; Scenario.lockedIn1])
            Scenario.hooksAndCtas = Ok Scenario.mounted) as Hmount
    by (vm_compute; reflexivity).
  split; [exact Hmount|].
  destruct (a_pick_changes_the_copy_of_its_concept _ _ _ _ Scenario.picks true 0 "Shine on"
              Hmount eq_refl eq_refl eq_refl ltac:(lia))
    as (before0 & before1 & after0 & after1 & Hbefore & Hafter & Hpicked & _ & Hother & _).
  exists before0, before1, after0, after1.
  split; [exact Hafter|]. split; [exact Hbefore|]. split; [exact Hpicked|].
  exact (Hother ltac:(discriminate)).
Defined.

Lemma the_confirmed_copy_is_put_to_the_provider_witness :
  exists q : Request,
    requests Scenario.offline
      (handleFinalizeAndGenerateOutputs
         (JArray [Scenario.lockedIn0; Scenario.lockedIn1]) Scenario.copyReady) = [q]
    /\ includes ("        - The hook line: " ++ dq ++ "Own the night" ++ dq
                 ++ " (for the first prompt) and " ++ dq ++ "Work brighter" ++ dq
                 ++ " (for the second).") (prompt q) = true
    /\ includes (quote "cta" ++ ": " ++ quote "Visit https://x.com")
         (JSON_stringify_2 Scenario.lockedIn0) = true.
Proof.
  destruct (the_confirmed_copy_is_put_to_the_provider
              (spread Scenario.lockedIn0) (spread Scenario.lockedIn1) Scenario.copyReady
              Scenario.photo still Scenario.offline Scenario.photoPart
              "Own the night" "Work brighter" "Visit https://x.com" "Visit https://x.com"
              eq_refl eq_refl eq_refl eq_refl eq_refl eq_refl eq_refl)
    as (q & Hone & _ & _ & _ & Hcta & _ & _ & Hstill).
  exists q. split; [exact Hone|].
  destruct (Hstill eq_refl) as (Hhooks & _). split; [exact Hhooks | exact Hcta].
Defined.

Lemma white_space_around_an_answer_is_ignored_witness :
  trim Scenario.wrapped = "[]"
  /\ parsed {| text := Some Scenario.wrapped |} = Some (JArray []).
Proof.
  destruct (white_space_around_an_answer_is_ignored
              [bytes [239; 187; 191]; " "; nl] [bytes [194; 160]; nl] "[]"
              "["%char "]"%char "]" "["
              ltac:(apply Forall_cons; [do 24 right; left; reflexivity|];
                    apply Forall_cons; [do 5 right; left; reflexivity|];
                    apply Forall_cons; [do 1 right; left; reflexivity|];
                    apply Forall_nil)
              ltac:(apply Forall_cons; [do 6 right; left; reflexivity|];
                    apply Forall_cons; [do 1 right; left; reflexivity|];
                    apply Forall_nil)
              eq_refl eq_refl
              ltac:(split; apply Nat.leb_le; reflexivity)
              ltac:(split; apply Nat.leb_le; reflexivity))
    as (Htrim & _ & Hparsed).
  split; [exact Htrim | exact Hparsed].
Defined.

Lemma edit_returns_json_witness :
  handleConceptEdit "technicalSpecs.mood" "calm" Scenario.conceptsReady
  = Done Scenario.edited
  /\ is_json (editableConcepts Scenario.edited) = true.
Proof.
  assert (handleConceptEdit "technicalSpecs.mood" "calm" Scenario.conceptsReady
          = Done Scenario.edited) as Hedit by (vm_compute; reflexivity).
  split; [exact Hedit|].
  exact (edit_returns_json _ _ _ _ Hedit).
Defined.

Lemma every_field_of_the_editor_can_be_edited_witness :
  In "technicalSpecs.soundDesign" (fieldNames true)
  /\ exists ms' : Members,
       handleConceptEdit "technicalSpecs.soundDesign" "A switch." Scenario.conceptsReady
       = Done (setEditableConcepts
                 (JArray
                    [ JObject ms';
                      Scenario.concept "Desk hero" "Work brighter" "Visit https://x.com" ])
                 Scenario.conceptsReady)
       /\ leaf (JObject ms') ["technicalSpecs"; "soundDesign"] = JString "A switch.".
Proof.
  assert (In "technicalSpecs.soundDesign" (fieldNames true)) as Hin
    by (do 13 right; left; reflexivity).
  split; [exact Hin|].
  destruct (every_field_of_the_editor_can_be_edited Scenario.conceptsReady
              [ Scenario.concept "Night light" "Own the night" "Visit https://x.com";
                Scenario.concept "Desk hero" "Work brighter" "Visit https://x.com" ]
              (Scenario.conceptMembers "Night light" "Own the night" "Visit https://x.com")
              true "technicalSpecs.soundDesign" "A switch." eq_refl eq_refl eq_refl eq_refl
              (or_intror (ex_intro _ _ eq_refl)) Hin)
    as (ms' & Hedit & Hleaf & _).
  exists ms'. split; [exact Hedit | exact Hleaf].
Defined.

Lemma what_is_typed_in_the_review_reaches_the_terminal_instruction_witness :
  exists (final0 final1 : Members) (q : Request),
    handleConfirm false (adConcepts Scenario.restyledCopyReady) Scenario.mountedOnRestyled
    = Done (Some (JArray [JObject final0; JObject final1]))
    /\ requests Scenario.offline
         (handleFinalizeAndGenerateOutputs (JArray [JObject final0; JObject final1])
            Scenario.restyledCopyReady) = [q]
    /\ includes ("    1. Concept: " ++ JSON_stringify_2 (JObject final0)) (prompt q) = true
    /\ includes (quote "stylingNotes" ++ ": " ++ quote "Brass props.")
         (JSON_stringify_2 (JObject final0)) = true.
Proof.
  destruct (what_is_typed_in_the_review_reaches_the_terminal_instruction
              Scenario.conceptsReady
              (Scenario.concept "Night light" "Own the night" "Visit https://x.com")
              (Scenario.concept "Desk hero" "Work brighter" "Visit https://x.com")
              (Scenario.conceptMembers "Night light" "Own the night" "Visit https://x.com")
              "stylingNotes" "Brass props." still
              eq_refl eq_refl eq_refl eq_refl eq_refl eq_refl
              ltac:(discriminate) ltac:(discriminate) ltac:(discriminate))
    as (edited & Hedit & Hchain).
  assert (handleConceptEdit "stylingNotes" "Brass props." Scenario.conceptsReady
          = Done Scenario.restyled) as Hrestyled by (vm_compute; reflexivity).
  rewrite Hrestyled in Hedit. injection Hedit as <-.
  assert (run (Scenario.answering (JSON_stringify_2 Scenario.hooksAndCtas))
            (handleGenerateHooksAndCtasForSelection Scenario.restyled)
          = Ok Scenario.restyledCopyReady) as Hrun by (vm_compute; reflexivity).
  destruct (Hchain _ Scenario.restyledCopyReady Scenario.mountedOnRestyled [] Hrun eq_refl
              ltac:(vm_compute; reflexivity))
    as (final0 & final1 & file & Hconfirm & Hfile & Hterminal).
  destruct (Hterminal Scenario.offline Scenario.photoPart eq_refl)
    as (q & Hone & Hprinted & Hmember).
  exists final0, final1, q. split; [exact Hconfirm|]. split; [exact Hone|].
  split; [exact Hprinted | exact Hmember].
Defined.
